(** * Selkies legacy WebRTC session layer ([selkies/legacy/rtc.py])

    A shallow embedding of [PipelineBridge] and [RTCApp] and the
    properties of the session layer that follow from the code.

    Conventions.
    - Python [int] is [Z]; [str] is [string]; [bytes] is [list ascii].
      A [str] that is only ever encoded is carried by its UTF-8 bytes.
    - A reference that may be [None] is an [option].
    - A call either returns, raises, or (for a coroutine) is left suspended
      at an [await]: the three cases of [outcome].
    - Stateful code is a state transformer [St S A]; mutations made before
      an exception is raised are kept, as in Python.
    - Methods of [RTCApp] run over a [world]: the fields of the object
      together with the trace of what the call did to its collaborators
      (logger calls, data-channel sends, connection close, buffer unmap). *)

From Stdlib Require Import ZArith List String Ascii Bool Lia DecimalString.
Import ListNotations.

Open Scope string_scope.
Open Scope Z_scope.

(* ===================================================================== *)
(** * Outcomes of calls and the state monad                               *)
(* ===================================================================== *)

(** The exceptions the module raises or can meet.  All of them derive from
    [Exception], so an [except Exception] clause catches each. *)
Inductive exn : Type :=
| RTCAppError (msg : string)
| ValueError (msg : string)
| AttributeError (msg : string)
| ZeroDivisionError (msg : string)
| OverflowError (msg : string)
| StopIteration
| QueueEmpty
| QueueFull
| ForeignError (msg : string).

(** [str(e)], as interpolated by the f-strings of the error logs. *)
Definition exn_str (e : exn) : string :=
  match e with
  | RTCAppError m | ValueError m | AttributeError m
  | ZeroDivisionError m | OverflowError m | ForeignError m => m
  | StopIteration | QueueEmpty | QueueFull => EmptyString
  end.

Inductive outcome (A : Type) : Type :=
| Ok (a : A)
| Raise (e : exn)
| Pending.

Arguments Ok {A} a.
Arguments Raise {A} e.
Arguments Pending {A}.

Definition raised {A} (o : outcome A) : bool :=
  match o with Raise _ => true | _ => false end.

Definition St (S A : Type) : Type := S -> outcome A * S.

Definition ret {S A} (a : A) : St S A := fun s => (Ok a, s).

Definition bind {S A B} (c : St S A) (k : A -> St S B) : St S B :=
  fun s =>
    match c s with
    | (Ok a, s') => k a s'
    | (Raise e, s') => (Raise e, s')
    | (Pending, s') => (Pending, s')
    end.

Definition raise {S A} (e : exn) : St S A := fun s => (Raise e, s).

Definition gets {S A} (f : S -> A) : St S A := fun s => (Ok (f s), s).

Definition modify {S} (f : S -> S) : St S unit := fun s => (Ok tt, f s).

(** [try: body except Exception as e: handler(e)].  A suspended body is
    not an exception and is left suspended. *)
Definition try_except {S A} (body : St S A) (handler : exn -> St S A)
  : St S A :=
  fun s =>
    match body s with
    | (Raise e, s') => handler e s'
    | other => other
    end.

(** Run a computation on a part [T] of the state [S]. *)
Definition zoom {S T A} (get : S -> T) (set : T -> S -> S) (c : St T A)
  : St S A :=
  fun s => let '(r, t') := c (get s) in (r, set t' s).

Declare Scope st_scope.
Delimit Scope st_scope with st.
Notation "x <- c ;; k" := (bind c (fun x => k))
  (at level 61, c at next level, right associativity) : st_scope.
Notation "c >> k" := (bind c (fun _ => k))
  (at level 61, right associativity) : st_scope.
Open Scope st_scope.

(* ===================================================================== *)
(** * [asyncio.Queue], as far as the bridge uses it                        *)
(* ===================================================================== *)

Module Queue.

Record t (A : Type) : Type := mk { maxsize : Z; items : list A }.

Arguments mk {A} maxsize items.
Arguments maxsize {A} q : rename.
Arguments items {A} q : rename.

Definition create (A : Type) (maxsize : Z) : t A := mk maxsize [].

Definition qsize {A} (q : t A) : Z := Z.of_nat (List.length (items q)).

Definition empty {A} (q : t A) : bool :=
  match items q with [] => true | _ => false end.

(** A queue with [maxsize <= 0] is never full. *)
Definition full {A} (q : t A) : bool :=
  if maxsize q <=? 0 then false else maxsize q <=? qsize q.

Definition get_nowait {A} : St (t A) A :=
  fun q =>
    match items q with
    | [] => (Raise QueueEmpty, q)
    | x :: rest => (Ok x, mk (maxsize q) rest)
    end.

Definition put_nowait {A} (item : A) : St (t A) unit :=
  fun q =>
    if full q then (Raise QueueFull, q)
    else (Ok tt, mk (maxsize q) (items q ++ [item])).

(** [await q.get()]: waits while the queue is empty, then takes the
    oldest item. *)
Definition get {A} : St (t A) A :=
  fun q => if empty q then (Pending, q) else get_nowait q.

End Queue.

(* ===================================================================== *)
(** * [PipelineBridge]                                                     *)
(* ===================================================================== *)

Module PipelineBridge.

(** [_lock] is [true] while some task holds the [asyncio.Lock]. *)
Record t (A : Type) : Type := mk { _lock : bool; _queue : Queue.t A }.

Arguments mk {A} _lock _queue.
Arguments _lock {A} b : rename.
Arguments _queue {A} b : rename.

Definition on_queue {A B} (c : St (Queue.t A) B) : St (t A) B :=
  zoom _queue (fun q b => mk (_lock b) q) c.

(** [async with self._lock: body].  Entering suspends while the lock is
    held; leaving releases it, also when the body raised. *)
Definition with_lock {A B} (body : St (t A) B) : St (t A) B :=
  fun b =>
    if _lock b then (Pending, b)
    else
      let '(r, b') := body (mk true (_queue b)) in
      (r, mk false (_queue b')).

(** [__init__] *)
Definition init (A : Type) : t A := mk false (Queue.create A 1).

(** [set_data] *)
Definition set_data {A} (data : A) : St (t A) unit :=
  with_lock
    (is_full <- gets (fun b => Queue.full (_queue b)) ;;
     (if is_full : bool
      then (_ <- on_queue Queue.get_nowait ;; ret tt)
      else ret tt) >>
     on_queue (Queue.put_nowait data)).

(** [get_data] *)
Definition get_data {A} : St (t A) A := on_queue Queue.get.

(** A run of [set_data] calls, each awaited before the next. *)
Fixpoint set_all {A} (l : list A) : St (t A) unit :=
  match l with
  | [] => ret tt
  | x :: l' => set_data x >> set_all l'
  end.

Definition pending {A} (b : t A) : list A := Queue.items (_queue b).

(** What the constructor establishes and every method keeps: the lock is
    free between calls, the queue has capacity one and holds at most one
    item. *)
Definition inv {A} (b : t A) : Prop :=
  _lock b = false /\ Queue.maxsize (_queue b) = 1 /\
  (List.length (pending b) <= 1)%nat.

End PipelineBridge.

(* ===================================================================== *)
(** * Text: lower case, decimal numerals, base64                           *)
(* ===================================================================== *)

Definition dquote : string := String (ascii_of_nat 34) EmptyString.

(** [str(n)] and ["%d" % n] for an [int]. *)
Definition str_of_int (n : Z) : string := NilZero.string_of_int (Z.to_int n).

(** [str(b)] for a [bool]. *)
Definition str_of_bool (b : bool) : string := if b then "True" else "False".

Definition lower_ascii (c : ascii) : ascii :=
  let n := N_of_ascii c in
  if ((65 <=? n) && (n <=? 90))%N then ascii_of_N (n + 32) else c.

(** [s.lower()] on the ASCII letters; MIME types are ASCII. *)
Fixpoint lower (s : string) : string :=
  match s with
  | EmptyString => EmptyString
  | String c s' => String (lower_ascii c) (lower s')
  end.

(** Equality of two strings up to the case of their letters. *)
Definition eq_ignoring_case (a b : string) : Prop := lower a = lower b.

Definition b64_alphabet : string :=
  "ABCDEFGHIJKLMNOPQRSTUVWXYZabcdefghijklmnopqrstuvwxyz0123456789+/".

Definition b64_digit (i : N) : ascii :=
  match String.get (N.to_nat i) b64_alphabet with
  | Some c => c
  | None => "="%char
  end.

(** [base64.b64encode]: three bytes give four digits; a last group of one
    or two bytes is padded with ["="]. *)
Fixpoint b64encode (l : list ascii) : list ascii :=
  match l with
  | [] => []
  | [a] =>
      let x := N_of_ascii a in
      [b64_digit (N.shiftr x 2); b64_digit (N.shiftl (N.land x 3) 4);
       "="%char; "="%char]
  | [a; b] =>
      let x := N_of_ascii a in
      let y := N_of_ascii b in
      [b64_digit (N.shiftr x 2);
       b64_digit (N.lor (N.shiftl (N.land x 3) 4) (N.shiftr y 4));
       b64_digit (N.shiftl (N.land y 15) 2); "="%char]
  | a :: b :: c :: rest =>
      let x := N_of_ascii a in
      let y := N_of_ascii b in
      let z := N_of_ascii c in
      b64_digit (N.shiftr x 2)
      :: b64_digit (N.lor (N.shiftl (N.land x 3) 4) (N.shiftr y 4))
      :: b64_digit (N.lor (N.shiftl (N.land y 15) 2) (N.shiftr z 6))
      :: b64_digit (N.land z 63)
      :: b64encode rest
  end.

(** [base64.b64encode(data.encode()).decode("utf-8")] *)
Definition b64_text (data : string) : string :=
  string_of_list_ascii (b64encode (list_ascii_of_string data)).

(** [len(s)] *)
Definition len (s : string) : Z := Z.of_nat (String.length s).

(* ===================================================================== *)
(** * JSON values                                                          *)
(* ===================================================================== *)

(** A [float] is carried by the text [repr] prints for it, which is also
    what [json.dumps] writes. *)
Record pyfloat : Type := mkfloat { float_repr : string }.

#[warnings="-register-all"] Inductive json : Type :=
| JNull
| JBool (b : bool)
| JInt (n : Z)
| JFloat (x : pyfloat)
| JStr (s : string)
| JObj (fields : list (string * json)).

(** The envelope of every control message: [{"type": ..., "data": ...}]. *)
Definition envelope (msg_type : string) (data : json) : json :=
  JObj [("type", JStr msg_type); ("data", data)].

(* ===================================================================== *)
(** * The transport's objects                                              *)
(* ===================================================================== *)

(** The kinds of track the transport knows; [getCapabilities] accepts no
    other. *)
Inductive media_kind : Type := Audio | Video.

(** [track.kind] *)
Definition kind_str (k : media_kind) : string :=
  match k with Audio => "audio" | Video => "video" end.

Inductive connection_state : Type :=
| StateNew | Connecting | Connected | Disconnected | Failed | Closed.

Definition is_connected (s : connection_state) : bool :=
  match s with Connected => true | _ => false end.

Record RTCSessionDescription : Type :=
  { sdp : string; type : string }.

Record RTCRtpCodecCapability : Type :=
  { mimeType : string; clockRate : Z }.

(** A sender is an object; [==] on senders is identity, here [sender_id]. *)
Record RTCRtpSender : Type :=
  { sender_id : nat; track_kind : media_kind }.

Definition same_sender (a b : RTCRtpSender) : bool :=
  Nat.eqb (sender_id a) (sender_id b).

Record RTCRtpTransceiver : Type :=
  { sender : RTCRtpSender;
    preferred_codecs : list RTCRtpCodecCapability }.

Record RTCPeerConnection : Type :=
  { connectionState : connection_state;
    remoteDescription : option RTCSessionDescription;
    transceivers : list RTCRtpTransceiver }.

Record RTCDataChannel : Type := { label : string }.

(** Modelled from the spec: what the transport's [setRemoteDescription],
    which is not part of rtc.py, does to the connection when it accepts a
    description: it installs it as the remote description.  Whether it
    accepts one is the transport's, see [sdp_fault]. *)
Definition install_remote (d : RTCSessionDescription)
  (pc : RTCPeerConnection) : RTCPeerConnection :=
  {| connectionState := connectionState pc;
     remoteDescription := Some d;
     transceivers := transceivers pc |}.

(** Modelled from the spec: the transceiver's [setCodecPreferences], which
    is not part of rtc.py; it restricts the preference list to the codecs
    given, in their order. *)
Definition setCodecPreferences (codecs : list RTCRtpCodecCapability)
  (t : RTCRtpTransceiver) : RTCRtpTransceiver :=
  {| sender := sender t; preferred_codecs := codecs |}.

Definition with_transceivers (ts : list RTCRtpTransceiver)
  (pc : RTCPeerConnection) : RTCPeerConnection :=
  {| connectionState := connectionState pc;
     remoteDescription := remoteDescription pc;
     transceivers := ts |}.

(** [next(x for x in l if p(x))], with the position of the element found:
    the element is an object of the list and is mutated in place. *)
Fixpoint next_where {A} (p : A -> bool) (l : list A) : option (nat * A) :=
  match l with
  | [] => None
  | x :: l' =>
      if p x then Some (O, x)
      else match next_where p l' with
           | Some (i, y) => Some (S i, y)
           | None => None
           end
  end.

Fixpoint replace_at {A} (i : nat) (y : A) (l : list A) : list A :=
  match l, i with
  | [], _ => []
  | _ :: l', O => y :: l'
  | x :: l', S j => x :: replace_at j y l'
  end.

(* ===================================================================== *)
(** * Media packets and capture samples                                    *)
(* ===================================================================== *)

Record Fraction : Type := { numerator : Z; denominator : Z }.

(** A fraction in lowest terms with a positive denominator, as
    [Fraction.__new__] normalises it. *)
Definition normalize (n d : Z) : Fraction :=
  let g := if d <? 0 then - Z.gcd n d else Z.gcd n d in
  {| numerator := n / g; denominator := d / g |}.

(** [Fraction(n, d)] *)
Definition Fraction_new {S} (n d : Z) : St S Fraction :=
  if d =? 0 then
    raise (ZeroDivisionError ("Fraction(" ++ str_of_int n ++ ", 0)"))
  else ret (normalize n d).

Record Packet : Type :=
  { payload : list ascii;
    time_base : option Fraction;
    pts : option Z;
    dts : option Z }.

Definition set_time_base (f : Fraction) (p : Packet) : Packet :=
  {| payload := payload p; time_base := Some f; pts := pts p; dts := dts p |}.

Definition set_pts (v : option Z) (p : Packet) : Packet :=
  {| payload := payload p; time_base := time_base p; pts := v; dts := dts p |}.

Definition set_dts (v : option Z) (p : Packet) : Packet :=
  {| payload := payload p; time_base := time_base p; pts := pts p; dts := v |}.

(** [Gst.CLOCK_TIME_NONE], the unset timestamp: [2^64 - 1]. *)
Definition CLOCK_TIME_NONE : Z := 18446744073709551615.

Inductive gvalue : Type :=
| GInt (n : Z)
| GString (s : string).

Definition GstStructure : Type := list (string * gvalue).

Fixpoint field (name : string) (s : GstStructure) : option gvalue :=
  match s with
  | [] => None
  | (k, v) :: s' => if String.eqb k name then Some v else field name s'
  end.

(** [structure.get_int(name)]: the success flag and the value, which is 0
    when the field is missing or is not an integer. *)
Definition get_int (name : string) (s : GstStructure) : bool * Z :=
  match field name s with
  | Some (GInt n) => (true, n)
  | _ => (false, 0)
  end.

(** Caps are a list of structures; [get_structure(i)] is [None] past its
    end.  A caps object is true like any object: [not caps] tests for
    [None]. *)
Definition GstCaps : Type := list GstStructure.

Definition get_structure (i : nat) (c : GstCaps) : option GstStructure :=
  nth_error c i.

(** A buffer: its timestamp and, when it can be mapped for reading, its
    bytes. *)
Record GstBuffer : Type :=
  { buf_pts : option Z;
    buf_data : option (list ascii) }.

Record GstSample : Type :=
  { get_buffer : option GstBuffer;
    get_caps : option GstCaps }.

(** [buf.map(Gst.MapFlags.READ)] *)
Definition buf_map (b : GstBuffer) : bool * list ascii :=
  match buf_data b with
  | Some d => (true, d)
  | None => (false, [])
  end.

Inductive FlowReturn : Type := FlowOK | FlowERROR.

(* ===================================================================== *)
(** * The session object and its world                                     *)
(* ===================================================================== *)

Inductive level : Type := DEBUG | INFO | WARNING | ERROR.

(** What a run does to its collaborators.  [Log] records a call of the
    module's logger; the logger is set to [INFO], so a [DEBUG] call is made
    and is not written out. *)
Inductive event : Type :=
| Log (lvl : level) (msg : string)
| ChannelSend (ch : RTCDataChannel) (text : string)
| ConnectionClose (pc : RTCPeerConnection)
| BufferUnmap (b : GstBuffer).

(** The fields of [RTCApp] that the methods below read or write. *)
Record RTCApp : Type :=
  { peer_connection : option RTCPeerConnection;
    data_channel : option RTCDataChannel;
    aux_data_channel : option RTCDataChannel;
    last_cursor_sent : option json;
    audio_pipeline_bridge : option (PipelineBridge.t Packet);
    video_pipeline_bridge : option (PipelineBridge.t Packet) }.

Record world : Type := { self : RTCApp; trace : list event }.

(** [RTCApp.__init__] *)
Definition RTCApp_init : RTCApp :=
  {| peer_connection := None; data_channel := None;
     aux_data_channel := None; last_cursor_sent := None;
     audio_pipeline_bridge := None; video_pipeline_bridge := None |}.

Definition set_peer_connection (v : option RTCPeerConnection) (a : RTCApp) :=
  {| peer_connection := v; data_channel := data_channel a;
     aux_data_channel := aux_data_channel a;
     last_cursor_sent := last_cursor_sent a;
     audio_pipeline_bridge := audio_pipeline_bridge a;
     video_pipeline_bridge := video_pipeline_bridge a |}.

Definition set_data_channel (v : option RTCDataChannel) (a : RTCApp) :=
  {| peer_connection := peer_connection a; data_channel := v;
     aux_data_channel := aux_data_channel a;
     last_cursor_sent := last_cursor_sent a;
     audio_pipeline_bridge := audio_pipeline_bridge a;
     video_pipeline_bridge := video_pipeline_bridge a |}.

Definition set_aux_data_channel (v : option RTCDataChannel) (a : RTCApp) :=
  {| peer_connection := peer_connection a; data_channel := data_channel a;
     aux_data_channel := v;
     last_cursor_sent := last_cursor_sent a;
     audio_pipeline_bridge := audio_pipeline_bridge a;
     video_pipeline_bridge := video_pipeline_bridge a |}.

Definition set_last_cursor_sent (v : option json) (a : RTCApp) :=
  {| peer_connection := peer_connection a; data_channel := data_channel a;
     aux_data_channel := aux_data_channel a;
     last_cursor_sent := v;
     audio_pipeline_bridge := audio_pipeline_bridge a;
     video_pipeline_bridge := video_pipeline_bridge a |}.

Definition set_audio_pipeline_bridge (v : option (PipelineBridge.t Packet))
  (a : RTCApp) :=
  {| peer_connection := peer_connection a; data_channel := data_channel a;
     aux_data_channel := aux_data_channel a;
     last_cursor_sent := last_cursor_sent a;
     audio_pipeline_bridge := v;
     video_pipeline_bridge := video_pipeline_bridge a |}.

Definition set_video_pipeline_bridge (v : option (PipelineBridge.t Packet))
  (a : RTCApp) :=
  {| peer_connection := peer_connection a; data_channel := data_channel a;
     aux_data_channel := aux_data_channel a;
     last_cursor_sent := last_cursor_sent a;
     audio_pipeline_bridge := audio_pipeline_bridge a;
     video_pipeline_bridge := v |}.

(** [self.f = v] *)
Definition assign (f : RTCApp -> RTCApp) : St world unit :=
  modify (fun w => {| self := f (self w); trace := trace w |}).

(** [self.f] *)
Definition read {A} (f : RTCApp -> A) : St world A :=
  gets (fun w => f (self w)).

(** The world after some more events. *)
Definition extend (es : list event) (w : world) : world :=
  {| self := self w; trace := trace w ++ es |}.

Definition emit (e : event) : St world unit := modify (extend [e]).

(** [logger.<lvl>(msg)] *)
Definition logger (lvl : level) (msg : string) : St world unit :=
  emit (Log lvl msg).

(** The text frames written to a data channel by a run, in order. *)
Fixpoint sent (t : list event) : list string :=
  match t with
  | [] => []
  | ChannelSend _ text :: t' => text :: sent t'
  | _ :: t' => sent t'
  end.

(** The logger calls of a run at a given level, in order. *)
Fixpoint logged (lvl : level) (t : list event) : list string :=
  match t with
  | [] => []
  | Log l msg :: t' =>
      match l, lvl with
      | DEBUG, DEBUG | INFO, INFO | WARNING, WARNING | ERROR, ERROR =>
          msg :: logged lvl t'
      | _, _ => logged lvl t'
      end
  | _ :: t' => logged lvl t'
  end.

(** The control channel exists and its connection is connected. *)
Definition ready (w : world) : Prop :=
  exists ch pc,
    data_channel (self w) = Some ch /\
    peer_connection (self w) = Some pc /\
    connectionState pc = Connected.

(** The channels of a session belong to its connection: they are created
    from it and dropped together with it. *)
Definition wired (a : RTCApp) : Prop :=
  data_channel a <> None -> peer_connection a <> None.

(** All five session-owned references are absent. *)
Definition all_absent (a : RTCApp) : Prop :=
  peer_connection a = None /\ data_channel a = None /\
  aux_data_channel a = None /\ video_pipeline_bridge a = None /\
  audio_pipeline_bridge a = None.

Definition bridge_items (b : option (PipelineBridge.t Packet)) : list Packet :=
  match b with
  | Some b => PipelineBridge.pending b
  | None => []
  end.

(** The packets waiting for the video and for the audio track. *)
Definition video_pending (w : world) : list Packet :=
  bridge_items (video_pipeline_bridge (self w)).
Definition audio_pending (w : world) : list Packet :=
  bridge_items (audio_pipeline_bridge (self w)).

(** A bridge reference is at rest when it is absent or its bridge is
    between calls. *)
Definition at_rest (b : option (PipelineBridge.t Packet)) : Prop :=
  match b with
  | Some b => PipelineBridge.inv b
  | None => True
  end.

(** The timestamp conversion of the design: a defined buffer timestamp [t]
    gives [floor(t * clock_rate / 1_000_000_000)] ticks ([/] on [Z] rounds
    down, see [ticks_floor]), an undefined one gives no timestamp. *)
Definition stamped_as (buf : GstBuffer) (clock_rate : Z) (stamp : option Z)
  : Prop :=
  (forall t, buf_pts buf = Some t -> t <> CLOCK_TIME_NONE ->
     stamp = Some (t * clock_rate / 1000000000)) /\
  (buf_pts buf = None \/ buf_pts buf = Some CLOCK_TIME_NONE ->
     stamp = None).

(** Decode and presentation timestamps agree. *)
Definition synced (p : Packet) : Prop := dts p = pts p.

(** Every packet waiting for the video track has [dts == pts]. *)
Definition video_synced (w : world) : Prop :=
  Forall synced (video_pending w).

(** No packet waiting for the audio track has a [dts]. *)
Definition audio_undated (w : world) : Prop :=
  Forall (fun p => dts p = None) (audio_pending w).

(** The calls of the outgoing message methods. *)
Inductive outgoing : Type :=
| Clipboard (data : string)
| Cursor (data : json)
| GpuStats (load memory_total memory_used : json)
| ReloadWindow
| Framerate (framerate : Z)
| VideoBitrate (bitrate : Z)
| AudioBitrate (bitrate : Z)
| Encoder (encoder : string)
| ResizeEnabled (resize_enabled : bool)
| RemoteResolution (res : string)
| Ping (t : pyfloat)
| LatencyTime (latency : json)
| SystemStats (cpu_percent mem_total mem_used : json).

(** What rtc.py takes from outside the repository's session layer: JSON
    text, float formatting, PyAV's packet allocation and the transport's
    codec table. *)
Class Collaborators : Type :=
  { (** [json.dumps] *)
    json_dumps : json -> string;
    (** [float("%.3f" % t)] *)
    round3 : pyfloat -> pyfloat;
    (** the exception [av.Packet(data)] raises, if it does *)
    av_fault : list ascii -> option exn;
    (** the exception [pc.setRemoteDescription(sdp)] raises, if it does *)
    sdp_fault : RTCSessionDescription -> RTCPeerConnection -> option exn;
    (** [RTCRtpSender.getCapabilities(kind).codecs] *)
    getCapabilities : media_kind -> list RTCRtpCodecCapability;
    (** [repr] of a list of codecs, for the log *)
    repr_codecs : list RTCRtpCodecCapability -> string }.

(* ===================================================================== *)
(** * Concrete collaborators and states, for closed examples               *)
(* ===================================================================== *)

Definition json_quote (s : string) : string := dquote ++ s ++ dquote.

(** A plain JSON writer with the separators of [json.dumps]; strings are
    written without escapes. *)
Fixpoint plain_dumps (j : json) : string :=
  match j with
  | JNull => "null"
  | JBool b => if b then "true" else "false"
  | JInt n => str_of_int n
  | JFloat x => float_repr x
  | JStr s => json_quote s
  | JObj fs =>
      let fix members (l : list (string * json)) : string :=
        match l with
        | [] => EmptyString
        | [(k, v)] => json_quote k ++ ": " ++ plain_dumps v
        | (k, v) :: l' =>
            json_quote k ++ ": " ++ plain_dumps v ++ ", " ++ members l'
        end in
      "{" ++ members fs ++ "}"
  end.

Definition h264 : RTCRtpCodecCapability :=
  {| mimeType := "video/H264"; clockRate := 90000 |}.
Definition vp8 : RTCRtpCodecCapability :=
  {| mimeType := "video/VP8"; clockRate := 90000 |}.
Definition video_rtx : RTCRtpCodecCapability :=
  {| mimeType := "video/rtx"; clockRate := 90000 |}.
Definition opus : RTCRtpCodecCapability :=
  {| mimeType := "audio/opus"; clockRate := 48000 |}.

Definition sample_capabilities (k : media_kind)
  : list RTCRtpCodecCapability :=
  match k with
  | Video => [vp8; video_rtx; h264]
  | Audio => [opus]
  end.

Definition sample_repr (l : list RTCRtpCodecCapability) : string :=
  "[" ++ String.concat ", " (map mimeType l) ++ "]".

(** A transport that refuses a description without text, as an SDP
    parser does, and accepts any other. *)
Definition refuse_empty (d : RTCSessionDescription) (pc : RTCPeerConnection)
  : option exn :=
  match sdp d with
  | EmptyString => Some (ValueError "invalid session description")
  | String _ _ => None
  end.

(** Collaborators that make packets and pin codecs without failing. *)
Definition sound : Collaborators :=
  {| json_dumps := plain_dumps;
     round3 := fun x => x;
     av_fault := fun _ => None;
     sdp_fault := refuse_empty;
     getCapabilities := sample_capabilities;
     repr_codecs := sample_repr |}.

(** Collaborators whose packet allocation always fails, and whose
    transport offers no retransmission codec. *)
Definition starved : Collaborators :=
  {| json_dumps := plain_dumps;
     round3 := fun x => x;
     av_fault := fun _ => Some (ForeignError "out of memory");
     sdp_fault := refuse_empty;
     getCapabilities := fun _ => [vp8; h264];
     repr_codecs := sample_repr |}.

Definition video_sender : RTCRtpSender :=
  {| sender_id := 0; track_kind := Video |}.
Definition audio_sender : RTCRtpSender :=
  {| sender_id := 1; track_kind := Audio |}.

Definition sample_connection (s : connection_state) : RTCPeerConnection :=
  {| connectionState := s;
     remoteDescription := None;
     transceivers :=
       [ {| sender := video_sender; preferred_codecs := [] |};
         {| sender := audio_sender; preferred_codecs := [] |} ] |}.

Definition input_channel : RTCDataChannel := {| label := "input" |}.

(** A session as [start_rtc_pipeline] leaves it, with the connection in
    state [s]. *)
Definition started (s : connection_state) : world :=
  {| self :=
       {| peer_connection := Some (sample_connection s);
          data_channel := Some input_channel;
          aux_data_channel := None;
          last_cursor_sent := None;
          audio_pipeline_bridge := Some (PipelineBridge.init Packet);
          video_pipeline_bridge := Some (PipelineBridge.init Packet) |};
     trace := [] |}.

(** A session that was constructed and not started. *)
Definition fresh : world := {| self := RTCApp_init; trace := [] |}.

Definition one_second : Z := 1000000000.

Definition sample_of (t : option Z) (data : list ascii) (caps : GstCaps)
  : GstSample :=
  {| get_buffer := Some {| buf_pts := t; buf_data := Some data |};
     get_caps := Some caps |}.

Definition frame : list ascii := ["A"%char; "V"%char].

(** Clipboard texts of 49050 and 49051 bytes: their base64 texts have
    65400 and 65404 characters. *)
Definition exact_fit : string :=
  string_of_list_ascii (repeat "a"%char (Z.to_nat 49050)).
Definition one_more : string :=
  string_of_list_ascii (repeat "a"%char (Z.to_nat 49051)).

Definition half_second : Z := 500000000.

(** Caps of an encoded video stream. *)
Definition video_caps : GstCaps := [[("stream-format", GString "byte-stream")]].

(** Audio caps declaring a rate. *)
Definition caps_at (rate : Z) : GstCaps := [[("rate", GInt rate)]].

(** A buffer that cannot be mapped. *)
Definition sealed_sample : GstSample :=
  {| get_buffer := Some {| buf_pts := Some 0; buf_data := None |};
     get_caps := Some (caps_at 48000) |}.

(** A bridge whose slot is taken. *)
Definition taken : PipelineBridge.t Z :=
  PipelineBridge.mk false (Queue.mk 1 [7]).

(* ===================================================================== *)
(** * Scripts of bridge calls and the one-place slot                       *)
(* ===================================================================== *)

(** A step of a schedule on a bridge: the producer calls [set_data], a
    consumer calls [get_data], or the event loop resumes a consumer that
    was woken. *)
Inductive bridge_call (A : Type) : Type :=
| SetData (x : A)
| GetData (consumer : nat)
| Resume (consumer : nat).

Arguments SetData {A} x.
Arguments GetData {A} consumer.
Arguments Resume {A} consumer.

(** A bridge with the consumers suspended in [Queue.get].  [getters] are
    the futures the queue holds in [_getters], in order of arrival;
    [woken] are the consumers whose future [put_nowait] has resolved and
    that the event loop has not resumed yet. *)
Record served (A : Type) : Type :=
  { bridge : PipelineBridge.t A;
    getters : list nat;
    woken : list nat }.

Arguments Build_served {A} _ _ _.
Arguments bridge {A} s : rename.
Arguments getters {A} s : rename.
Arguments woken {A} s : rename.

(** A bridge nobody waits on. *)
Definition unattended {A} (b : PipelineBridge.t A) : served A :=
  {| bridge := b; getters := []; woken := [] |}.

(** [self._wakeup_next(self._getters)], with which [put_nowait] ends: the
    first future in line is resolved.  No task of rtc.py awaits
    [Queue.put], so [get_nowait] has nobody to wake. *)
Definition wakeup_next {A} (s : served A) : served A :=
  match getters s with
  | [] => s
  | c :: cs => {| bridge := bridge s; getters := cs; woken := woken s ++ [c] |}
  end.

(** One turn of the loop of [Queue.get] for a consumer: it takes the
    item, or it leaves a future in [_getters] and stays suspended. *)
Definition attempt {A} (c : nat) (s : served A)
  : outcome (option A) * served A :=
  let '(r, b) := PipelineBridge.get_data (bridge s) in
  match r with
  | Ok x =>
      (Ok (Some x), {| bridge := b; getters := getters s; woken := woken s |})
  | Raise e =>
      (Raise e, {| bridge := b; getters := getters s; woken := woken s |})
  | Pending =>
      (Pending,
       {| bridge := b; getters := getters s ++ [c]; woken := woken s |})
  end.

Definition among (c : nat) (l : list nat) : bool := existsb (Nat.eqb c) l.

(** One step of a schedule; [None] when the step cannot happen: a
    suspended consumer makes no new call, and only a woken consumer is
    resumed.  A [get_data] answers with its item. *)
Definition run_call {A} (c : bridge_call A) (s : served A)
  : option (outcome (option A) * served A) :=
  match c with
  | SetData x =>
      let '(r, b) := PipelineBridge.set_data x (bridge s) in
      let s' := {| bridge := b; getters := getters s; woken := woken s |} in
      Some match r with
           | Ok _ => (Ok None, wakeup_next s')
           | Raise e => (Raise e, s')
           | Pending => (Pending, s')
           end
  | GetData c =>
      if among c (getters s) || among c (woken s) then None
      else Some (attempt c s)
  | Resume c =>
      if among c (woken s) then
        Some (attempt c
                {| bridge := bridge s;
                   getters := getters s;
                   woken := filter (fun c' => negb (Nat.eqb c c')) (woken s) |})
      else None
  end.

(** The steps of a schedule, each on the bridge the one before left. *)
Fixpoint run_script {A} (cs : list (bridge_call A)) (s : served A)
  : option (list (outcome (option A)) * served A) :=
  match cs with
  | [] => Some ([], s)
  | c :: cs' =>
      match run_call c s with
      | None => None
      | Some (r, s1) =>
          match run_script cs' s1 with
          | None => None
          | Some (rs, s2) => Some (r :: rs, s2)
          end
      end
  end.

(** No wake-up is lost: while an item waits and consumers are in line,
    one of them has been woken. *)
Definition alert {A} (s : served A) : Prop :=
  PipelineBridge.pending (bridge s) <> [] -> getters s <> [] ->
  woken s <> [].

(** A slot that holds the newest item not yet taken: whoever comes for
    it, on a first call or resumed, takes it or stays suspended. *)
Definition slot_call {A} (c : bridge_call A) (slot : option A)
  : outcome (option A) * option A :=
  match c, slot with
  | SetData x, _ => (Ok None, Some x)
  | (GetData _ | Resume _), Some x => (Ok (Some x), None)
  | (GetData _ | Resume _), None => (Pending, None)
  end.

Fixpoint slot_script {A} (cs : list (bridge_call A)) (slot : option A)
  : list (outcome (option A)) * option A :=
  match cs with
  | [] => ([], slot)
  | c :: cs' =>
      let '(r, s1) := slot_call c slot in
      let '(rs, s2) := slot_script cs' s1 in
      (r :: rs, s2)
  end.

(** The item a bridge at rest holds, and the bridge at rest that holds a
    given slot. *)
Definition slot_of {A} (b : PipelineBridge.t A) : option A :=
  hd_error (PipelineBridge.pending b).

Definition bridge_of {A} (slot : option A) : PipelineBridge.t A :=
  PipelineBridge.mk false
    (Queue.mk 1 (match slot with Some x => [x] | None => [] end)).

(** [AudioMedia.recv] and [VideoMedia.recv], on the bridge the track was
    built on. *)
Definition Media_recv : St (PipelineBridge.t Packet) Packet :=
  PipelineBridge.get_data.

(* ===================================================================== *)
(** * ICE configuration                                                    *)
(* ===================================================================== *)

(** [s.split(sep)] for a separator of one character. *)
Fixpoint split_on (sep : ascii) (s : string) : list string :=
  match s with
  | EmptyString => [EmptyString]
  | String c s' =>
      if Ascii.eqb c sep then EmptyString :: split_on sep s'
      else match split_on sep s' with
           | piece :: pieces => String c piece :: pieces
           | [] => [String c EmptyString]
           end
  end.

(** [s.split(sep, 1)]: at most one cut, at the first separator. *)
Fixpoint split_once (sep : ascii) (s : string) : list string :=
  match s with
  | EmptyString => [EmptyString]
  | String c s' =>
      if Ascii.eqb c sep then [EmptyString; s']
      else match split_once sep s' with
           | piece :: pieces => String c piece :: pieces
           | [] => [String c EmptyString]
           end
  end.

(** [sep in s] *)
Fixpoint occurs (sep : ascii) (s : string) : bool :=
  match s with
  | EmptyString => false
  | String c s' => Ascii.eqb c sep || occurs sep s'
  end.

Definition at_sign : ascii := "@"%char.
Definition colon : ascii := ":"%char.

(** The [urls] of an ICE server: nothing, one address or a list. *)
Inductive urls_value : Type :=
| NoUrls
| OneUrl (u : string)
| ManyUrls (l : list string).

Record RTCIceServer : Type :=
  { urls : urls_value;
    username : option string;
    credential : option string }.

Record RTCConfiguration : Type := { iceServers : list RTCIceServer }.

(** The constructor arguments [RTCApp] keeps and never assigns again. *)
Record RTCSettings : Type :=
  { stun_servers : option (list string);
    turn_servers : option (list string);
    turn_username : string;
    turn_password : string }.

(** What indexing raises in [get_rtc_config]: [TypeError] on [None],
    [IndexError] past the end of a list. *)
Inductive config_error : Type :=
| NotSubscriptable
| IndexOutOfRange.

(** [l[i]] *)
Definition item {A} (l : list A) (i : nat) : config_error + A :=
  match nth_error l i with
  | Some x => inr x
  | None => inl IndexOutOfRange
  end.

(** [get_rtc_config] *)
Definition get_rtc_config (cfg : RTCSettings)
  : config_error + RTCConfiguration :=
  match turn_servers cfg with
  | None => inl NotSubscriptable
  | Some servers =>
      match item servers 0 with
      | inl e => inl e
      | inr first =>
          match item (split_on at_sign first) 1 with
          | inl e => inl e
          | inr turn_server =>
              match item (split_once colon first) 0 with
              | inl e => inl e
              | inr scheme =>
                  let turn_server := scheme ++ "://" ++ turn_server in
                  inr {| iceServers :=
                           [ {| urls := match stun_servers cfg with
                                        | Some l => ManyUrls l
                                        | None => NoUrls
                                        end;
                                username := None;
                                credential := None |};
                             {| urls := OneUrl turn_server;
                                username := Some (turn_username cfg);
                                credential := Some (turn_password cfg) |} ] |}
              end
          end
      end
  end.

(** The two entries of a configuration. *)
Definition stun_entry (cfg : RTCSettings) : RTCIceServer :=
  {| urls := match stun_servers cfg with
             | Some l => ManyUrls l
             | None => NoUrls
             end;
     username := None;
     credential := None |}.

Definition turn_entry_of (cfg : RTCSettings) (url : string) : RTCIceServer :=
  {| urls := OneUrl url;
     username := Some (turn_username cfg);
     credential := Some (turn_password cfg) |}.

(** The text of a [config_error], and the exception as the session sees
    it. *)
Definition config_exn (e : config_error) : exn :=
  match e with
  | NotSubscriptable =>
      ForeignError "'NoneType' object is not subscriptable"
  | IndexOutOfRange => ForeignError "list index out of range"
  end.

(* ===================================================================== *)
(** * Scripts of session calls                                             *)
(* ===================================================================== *)

(** Modelled from the spec: the text of a connection state, one of new,
    connecting, connected, disconnected, failed, closed. *)
Definition state_str (s : connection_state) : string :=
  match s with
  | StateNew => "new"
  | Connecting => "connecting"
  | Connected => "connected"
  | Disconnected => "disconnected"
  | Failed => "failed"
  | Closed => "closed"
  end.

(** The number of [unmap] calls in a trace. *)
Fixpoint unmaps (t : list event) : nat :=
  match t with
  | [] => O
  | BufferUnmap _ :: t' => S (unmaps t')
  | _ :: t' => unmaps t'
  end.

(** The connections closed in a trace, in order. *)
Fixpoint closed_connections (t : list event) : list RTCPeerConnection :=
  match t with
  | [] => []
  | ConnectionClose pc :: t' => pc :: closed_connections t'
  | _ :: t' => closed_connections t'
  end.

(** An event of the control channel of a session: a logger call, or a
    frame written to the primary data channel. *)
Definition control_event (a : RTCApp) (e : event) : Prop :=
  match e with
  | Log _ _ => True
  | ChannelSend ch _ => data_channel a = Some ch
  | _ => False
  end.

(** A logger call. *)
Definition log_event (e : event) : Prop :=
  match e with Log _ _ => True | _ => False end.

(** The fields of a session that sample ingestion has no part in. *)
Definition controls (a : RTCApp)
  : option RTCPeerConnection * option RTCDataChannel
    * option RTCDataChannel * option json :=
  (peer_connection a, data_channel a, aux_data_channel a,
   last_cursor_sent a).

(** [buf.map] was called on the sample and succeeded. *)
Definition mapped (sample : option GstSample) : bool :=
  match sample with
  | Some s =>
      match get_buffer s, get_caps s with
      | Some buf, Some _ =>
          match buf_data buf with Some _ => true | None => false end
      | _, _ => false
      end
  | None => false
  end.

(** The session as [__init__] builds it, but for the cursor record. *)
Definition unstarted (a : RTCApp) : Prop :=
  a = set_last_cursor_sent (last_cursor_sent a) RTCApp_init.

(** What every method keeps: the channel belongs to a connection and the
    bridges are between calls. *)
Definition session_inv (w : world) : Prop :=
  wired (self w) /\
  at_rest (video_pipeline_bridge (self w)) /\
  at_rest (audio_pipeline_bridge (self w)).

(** A TURN entry [scheme:userinfo@hostport] and settings built on it. *)
Definition turn_entry : string := "turn:selkies:secret@relay.example.org:3478".

Definition sample_settings : RTCSettings :=
  {| stun_servers := Some ["stun:stun.example.org:19302"];
     turn_servers := Some [turn_entry; "turn:other@backup.example.org:3478"];
     turn_username := "selkies";
     turn_password := "secret" |}.

(** Settings without a TURN server. *)
Definition no_turn : RTCSettings :=
  {| stun_servers := Some ["stun:stun.example.org:19302"];
     turn_servers := Some [];
     turn_username := EmptyString;
     turn_password := EmptyString |}.

(** What [start_rtc_pipeline] asks of the transport, and the handler the
    application installed for the offer.  Each call may return, raise or
    stay suspended, and acts on the connection object. *)
Class Transport : Type :=
  { (** [RTCPeerConnection(config)] *)
    RTCPeerConnection_new : RTCConfiguration -> outcome RTCPeerConnection;
    (** [pc.createDataChannel(label, ordered=..., maxRetransmits=...)] *)
    createDataChannel :
      string -> bool -> Z -> St RTCPeerConnection RTCDataChannel;
    (** [pc.addTrack(track)], by the kind of the track *)
    addTrack : media_kind -> St RTCPeerConnection RTCRtpSender;
    (** [await pc.setLocalDescription(await pc.createOffer())], then
        [pc.localDescription.sdp] *)
    local_offer : St RTCPeerConnection string;
    (** [await self.on_sdp(sdp_type, sdp)] *)
    on_sdp : string -> string -> St world unit }.

(** The calls of a session, as an application makes them. *)
Inductive session_call : Type :=
| DoStart (cfg : RTCSettings)
| DoStop
| DoSend (m : outgoing)
| DoIngest (sample : option GstSample) (kind : string)
| DoAnswer (sdp_type : string) (sdp_text : option string)
| DoAuxChannel (channel : RTCDataChannel)
| DoStateChange.

(** A transport that answers every call at once: a new connection has no
    transceiver, each track added gets a transceiver of its own, and the
    offer handler notes what it was given. *)
Definition loopback : Transport :=
  {| RTCPeerConnection_new := fun _ =>
       Ok {| connectionState := StateNew;
             remoteDescription := None;
             transceivers := [] |};
     createDataChannel := fun name _ _ pc => (Ok {| label := name |}, pc);
     addTrack := fun k pc =>
       let s := {| sender_id := List.length (transceivers pc);
                   track_kind := k |} in
       (Ok s,
        with_transceivers
          (transceivers pc ++ [ {| sender := s; preferred_codecs := [] |} ])
          pc);
     local_offer := fun pc => (Ok "v=0", pc);
     on_sdp := fun sdp_type text => logger INFO (sdp_type ++ " " ++ text) |}.

(* ===================================================================== *)
(** * [RTCApp]                                                             *)
(* ===================================================================== *)

Section Session.

Context {rt : Collaborators}.

(** [await self.peer_connection.setRemoteDescription(sdp)] on the
    connection [pc] of the session: the transport refuses the description
    with an exception of its own, or installs it. *)
Definition setRemoteDescription (d : RTCSessionDescription)
  (pc : RTCPeerConnection) : St world unit :=
  match sdp_fault d pc with
  | Some e => raise e
  | None => assign (set_peer_connection (Some (install_remote d pc)))
  end.

(** [set_sdp] *)
Definition set_sdp (sdp_type : string) (sdp_text : option string)
  : St world unit :=
  if negb (sdp_type =? "answer")%string then
    raise (RTCAppError
             ("ERROR: sdp type was not " ++ dquote ++ "answer" ++ dquote))
  else
    match sdp_text with
    | None => raise (RTCAppError "ERROR: sdp can't be None")
    | Some text =>
        let d := {| sdp := text; type := sdp_type |} in
        pc <- read peer_connection ;;
        match pc with
        | None =>
            raise (AttributeError
              "'NoneType' object has no attribute 'setRemoteDescription'")
        | Some pc => setRemoteDescription d pc
        end
    end.

(** The value of [a and b] when [a] is [None]-or-object and [b] a [bool]:
    [None] stands for Python's [None]. *)
Definition truthy (v : option bool) : bool :=
  match v with Some true => true | _ => false end.

(** [is_data_channel_ready] *)
Definition is_data_channel_ready : St world (option bool) :=
  dc <- read data_channel ;;
  match dc with
  | None => ret None
  | Some _ =>
      pc <- read peer_connection ;;
      match pc with
      | None =>
          raise (AttributeError
            "'NoneType' object has no attribute 'connectionState'")
      | Some pc => ret (Some (is_connected (connectionState pc)))
      end
  end.

(** [__send_data_channel_message] *)
Definition send_data_channel_message (msg_type : string) (data : json)
  : St world unit :=
  ready <- is_data_channel_ready ;;
  if negb (truthy ready) then
    logger DEBUG
      ("skipping message because data channel is not ready: " ++ msg_type)
  else
    let msg := envelope msg_type data in
    dc <- read data_channel ;;
    match dc with
    | None =>
        raise (AttributeError "'NoneType' object has no attribute 'send'")
    | Some ch => emit (ChannelSend ch (json_dumps msg))
    end.

Definition CLIPBOARD_RESTRICTION : Z := 65400.

(** [send_clipboard_data] *)
Definition send_clipboard_data (data : string) : St world unit :=
  let clipboard_message := b64_text data in
  let clipboard_length := len clipboard_message in
  if clipboard_length <=? CLIPBOARD_RESTRICTION then
    send_data_channel_message "clipboard"
      (JObj [("content", JStr clipboard_message)])
  else
    logger WARNING
      ("clipboard may not be sent to the client because the base64 message length "
       ++ str_of_int clipboard_length
       ++ " is above the maximum length of "
       ++ str_of_int CLIPBOARD_RESTRICTION).

(** [send_cursor_data] *)
Definition send_cursor_data (data : json) : St world unit :=
  assign (set_last_cursor_sent (Some data)) >>
  send_data_channel_message "cursor" data.

(** [send_gpu_stats] *)
Definition send_gpu_stats (load memory_total memory_used : json)
  : St world unit :=
  send_data_channel_message "gpu_stats"
    (JObj [("load", load); ("memory_total", memory_total);
           ("memory_used", memory_used)]).

(** [send_reload_window] *)
Definition send_reload_window : St world unit :=
  logger INFO "sending window reload" >>
  send_data_channel_message "system" (JObj [("action", JStr "reload")]).

(** [send_framerate] *)
Definition send_framerate (framerate : Z) : St world unit :=
  logger INFO "sending framerate" >>
  send_data_channel_message "system"
    (JObj [("action", JStr ("videoFramerate," ++ str_of_int framerate))]).

(** [send_video_bitrate] *)
Definition send_video_bitrate (bitrate : Z) : St world unit :=
  logger INFO "sending video bitrate" >>
  send_data_channel_message "system"
    (JObj [("action", JStr ("video_bitrate," ++ str_of_int bitrate))]).

(** [send_audio_bitrate] *)
Definition send_audio_bitrate (bitrate : Z) : St world unit :=
  logger INFO "sending audio bitrate" >>
  send_data_channel_message "system"
    (JObj [("action", JStr ("audio_bitrate," ++ str_of_int bitrate))]).

(** [send_encoder] *)
Definition send_encoder (encoder : string) : St world unit :=
  logger INFO ("sending encoder: " ++ encoder) >>
  send_data_channel_message "system"
    (JObj [("action", JStr ("encoder," ++ encoder))]).

(** [send_resize_enabled] *)
Definition send_resize_enabled (resize_enabled : bool) : St world unit :=
  logger INFO "sending resize enabled state" >>
  send_data_channel_message "system"
    (JObj [("action", JStr ("resize," ++ str_of_bool resize_enabled))]).

(** [send_remote_resolution] *)
Definition send_remote_resolution (res : string) : St world unit :=
  logger INFO ("sending remote resolution of: " ++ res) >>
  send_data_channel_message "system"
    (JObj [("action", JStr ("resolution," ++ res))]).

(** [send_ping] *)
Definition send_ping (t : pyfloat) : St world unit :=
  send_data_channel_message "ping"
    (JObj [("start_time", JFloat (round3 t))]).

(** [send_latency_time] *)
Definition send_latency_time (latency : json) : St world unit :=
  send_data_channel_message "latency_measurement"
    (JObj [("latency_ms", latency)]).

(** [send_system_stats] *)
Definition send_system_stats (cpu_percent mem_total mem_used : json)
  : St world unit :=
  send_data_channel_message "system_stats"
    (JObj [("cpu_percent", cpu_percent); ("mem_total", mem_total);
           ("mem_used", mem_used)]).

(** [av.Packet(bytes(map_info.data))]: a fresh packet has no time base and
    no timestamps. *)
Definition av_Packet (data : list ascii) : St world Packet :=
  match av_fault data with
  | Some e => raise e
  | None =>
      ret {| payload := data; time_base := None; pts := None; dts := None |}
  end.

(** The timestamp of a buffer when
    [buf.pts is not None and buf.pts != Gst.CLOCK_TIME_NONE]. *)
Definition defined_pts (buf : GstBuffer) : option Z :=
  match buf_pts buf with
  | Some t => if negb (t =? CLOCK_TIME_NONE) then Some t else None
  | None => None
  end.

(** [if self.<bridge> != None: await self.<bridge>.set_data(packet)] *)
Definition feed (bridge : RTCApp -> option (PipelineBridge.t Packet))
  (store : option (PipelineBridge.t Packet) -> RTCApp -> RTCApp)
  (packet : Packet) : St world unit :=
  fun w =>
    match bridge (self w) with
    | None => (Ok tt, w)
    | Some b =>
        let '(r, b') := PipelineBridge.set_data packet b in
        (r, {| self := store (Some b') (self w); trace := trace w |})
    end.

Definition RTP_VIDEO_CLOCK_RATE : Z := 90000.

(** A value fits the signed 64-bit timestamp fields of a packet. *)
Definition fits_int64 (v : Z) : bool :=
  (- 2 ^ 63 <=? v) && (v <? 2 ^ 63).

(** Assignment to [packet.pts]: PyAV stores the timestamp in a signed
    64-bit field and raises [OverflowError] for a Python integer outside
    it.  A buffer timestamp is an unsigned 64-bit number, so at the video
    rate of 90000 the ticks always fit (see [video_ticks_fit]); at an
    audio rate taken from the caps they may not. *)
Definition int64_field (v : Z) : St world Z :=
  if fits_int64 v then ret v
  else raise (OverflowError "Python int too large to convert to C long").

(** The ticks of a buffer at a clock rate fit the timestamp field. *)
Definition ticks_fit (buf : GstBuffer) (clock_rate : Z) : bool :=
  match defined_pts buf with
  | Some t => fits_int64 (t * clock_rate / 1000000000)
  | None => true
  end.

(** The [try] block of the video branch of [receive_data]. *)
Definition process_video (buf : GstBuffer) (data : list ascii)
  : St world unit :=
  packet <- av_Packet data ;;
  tb <- Fraction_new 1 RTP_VIDEO_CLOCK_RATE ;;
  let packet := set_time_base tb packet in
  let packet :=
    match defined_pts buf with
    | Some t =>
        let packet :=
          set_pts (Some (t * RTP_VIDEO_CLOCK_RATE / 1000000000)) packet in
        set_dts (pts packet) packet
    | None => packet
    end in
  feed video_pipeline_bridge set_video_pipeline_bridge packet.

(** The [try] block of the audio branch of [receive_data]. *)
Definition process_audio (buf : GstBuffer) (caps : GstCaps)
  (data : list ascii) : St world unit :=
  packet <- av_Packet data ;;
  match get_structure 0 caps with
  | None =>
      raise (AttributeError "'NoneType' object has no attribute 'get_int'")
  | Some audio_info =>
      let '(_, clock_rate) := get_int "rate" audio_info in
      clock_rate <-
        (if clock_rate =? 0 then
           logger WARNING
             "Could not get clock-rate from caps, falling back to 48000" >>
           ret 48000
         else ret clock_rate) ;;
      tb <- Fraction_new 1 clock_rate ;;
      let packet := set_time_base tb packet in
      packet <-
        match defined_pts buf with
        | Some t =>
            ticks <- int64_field (t * clock_rate / 1000000000) ;;
            ret (set_pts (Some ticks) packet)
        | None => ret packet
        end ;;
      feed audio_pipeline_bridge set_audio_pipeline_bridge packet
  end.

(** The packet the video branch builds from a buffer and its bytes. *)
Definition video_packet (buf : GstBuffer) (data : list ascii) : Packet :=
  {| payload := data;
     time_base := Some {| numerator := 1; denominator := 90000 |};
     pts := option_map (fun t => t * 90000 / 1000000000) (defined_pts buf);
     dts := option_map (fun t => t * 90000 / 1000000000) (defined_pts buf) |}.

(** The packet the audio branch builds at a given clock rate. *)
Definition audio_packet (buf : GstBuffer) (clock_rate : Z)
  (data : list ascii) : Packet :=
  {| payload := data;
     time_base := Some (normalize 1 clock_rate);
     pts := option_map (fun t => t * clock_rate / 1000000000)
              (defined_pts buf);
     dts := None |}.

(** The clock rate the audio branch settles on. *)
Definition audio_clock_rate (info : GstStructure) : Z :=
  if snd (get_int "rate" info) =? 0 then 48000
  else snd (get_int "rate" info).

(** The world after the fallback warning, where there is one. *)
Definition after_rate_lookup (info : GstStructure) (w : world) : world :=
  if snd (get_int "rate" info) =? 0 then
    extend [Log WARNING
              "Could not get clock-rate from caps, falling back to 48000"] w
  else w.

(** The world after a packet replaced the content of a bridge. *)
Definition delivered
  (store : option (PipelineBridge.t Packet) -> RTCApp -> RTCApp)
  (p : Packet) (w : world) : world :=
  {| self := store (Some (PipelineBridge.mk false (Queue.mk 1 [p]))) (self w);
     trace := trace w |}.

(** [receive_data].  The result is the value returned: [None] where the
    function falls off its end. *)
Definition receive_data (sample : option GstSample) (kind : string)
  : St world (option FlowReturn) :=
  match sample with
  | Some sample =>
      match get_buffer sample, get_caps sample with
      | Some buf, Some caps =>
          let '(result, data) := buf_map buf in
          if negb result then ret (Some FlowERROR)
          else
            (if (kind =? "video")%string then
               try_except (process_video buf data)
                 (fun e =>
                    logger ERROR
                      ("error processing video sample: " ++ exn_str e))
             else
               try_except (process_audio buf caps data)
                 (fun e =>
                    logger ERROR
                      ("error processing audio sample: " ++ exn_str e))) >>
            emit (BufferUnmap buf) >>
            ret None
      | _, _ =>
          logger WARNING "receive_data: buffer or caps is None" >>
          ret (Some FlowOK)
      end
  | None =>
      logger WARNING "sample received is empty" >>
      ret None
  end.

(** [force_codec].  The connection is an argument, mutated in place; the
    result is the connection after the call. *)
Definition force_codec (pc : RTCPeerConnection) (sender0 : RTCRtpSender)
  (forced_codec_mime : string) : St world RTCPeerConnection :=
  let kind := track_kind sender0 in
  let codecs := getCapabilities kind in
  match find (fun codec => (mimeType codec =? forced_codec_mime)%string)
          codecs with
  | None =>
      raise (ValueError
               ("Codec " ++ forced_codec_mime ++ " not found in capabilities"))
  | Some chosen_codec =>
      match find (fun codec =>
                    (lower (mimeType codec) =? kind_str kind ++ "/rtx")%string)
              codecs with
      | None =>
          raise (ValueError
                   ("RTX codec for " ++ forced_codec_mime ++ " not found"))
      | Some rtx_codec =>
          match next_where (fun t => same_sender (sender t) sender0)
                  (transceivers pc) with
          | None => raise StopIteration
          | Some (i, transceiver) =>
              logger INFO
                ("Forcing codec preferences to: "
                 ++ repr_codecs [chosen_codec; rtx_codec]) >>
              ret (with_transceivers
                     (replace_at i
                        (setCodecPreferences [chosen_codec; rtx_codec]
                           transceiver)
                        (transceivers pc))
                     pc)
          end
      end
  end.

(** [stop_pipeline] *)
Definition stop_pipeline : St world unit :=
  logger INFO "stopping pipeline" >>
  pc <- read peer_connection ;;
  match pc with
  | None =>
      raise (AttributeError "'NoneType' object has no attribute 'close'")
  | Some pc =>
      emit (ConnectionClose pc) >>
      assign (set_peer_connection None) >>
      assign (set_data_channel None) >>
      assign (set_aux_data_channel None) >>
      assign (set_video_pipeline_bridge None) >>
      assign (set_audio_pipeline_bridge None) >>
      logger INFO "pipeline stopped"
  end.

(** An outgoing message method applied to its arguments. *)
Definition call (m : outgoing) : St world unit :=
  match m with
  | Clipboard data => send_clipboard_data data
  | Cursor data => send_cursor_data data
  | GpuStats load memory_total memory_used =>
      send_gpu_stats load memory_total memory_used
  | ReloadWindow => send_reload_window
  | Framerate framerate => send_framerate framerate
  | VideoBitrate bitrate => send_video_bitrate bitrate
  | AudioBitrate bitrate => send_audio_bitrate bitrate
  | Encoder encoder => send_encoder encoder
  | ResizeEnabled resize_enabled => send_resize_enabled resize_enabled
  | RemoteResolution res => send_remote_resolution res
  | Ping t => send_ping t
  | LatencyTime latency => send_latency_time latency
  | SystemStats cpu_percent mem_total mem_used =>
      send_system_stats cpu_percent mem_total mem_used
  end.

(** The message catalog of the design (its section 4.5): the tag of each
    message ... *)
Definition catalog_tag (m : outgoing) : string :=
  match m with
  | Clipboard _ => "clipboard"
  | Cursor _ => "cursor"
  | GpuStats _ _ _ => "gpu_stats"
  | ReloadWindow | Framerate _ | VideoBitrate _ | AudioBitrate _
  | Encoder _ | ResizeEnabled _ | RemoteResolution _ => "system"
  | Ping _ => "ping"
  | LatencyTime _ => "latency_measurement"
  | SystemStats _ _ _ => "system_stats"
  end.

Definition action (text : string) : json := JObj [("action", JStr text)].

(** ... and its payload. *)
Definition catalog_payload (m : outgoing) : json :=
  match m with
  | Clipboard data => JObj [("content", JStr (b64_text data))]
  | Cursor data => data
  | GpuStats load memory_total memory_used =>
      JObj [("load", load); ("memory_total", memory_total);
            ("memory_used", memory_used)]
  | ReloadWindow => action "reload"
  | Framerate n => action ("videoFramerate," ++ str_of_int n)
  | VideoBitrate n => action ("video_bitrate," ++ str_of_int n)
  | AudioBitrate n => action ("audio_bitrate," ++ str_of_int n)
  | Encoder name => action ("encoder," ++ name)
  | ResizeEnabled b => action ("resize," ++ str_of_bool b)
  | RemoteResolution res => action ("resolution," ++ res)
  | Ping t => JObj [("start_time", JFloat (round3 t))]
  | LatencyTime latency => JObj [("latency_ms", latency)]
  | SystemStats cpu_percent mem_total mem_used =>
      JObj [("cpu_percent", cpu_percent); ("mem_total", mem_total);
            ("mem_used", mem_used)]
  end.

(** A clipboard payload is within the limit of the catalog; the other
    messages have none. *)
Definition within_limit (m : outgoing) : Prop :=
  match m with
  | Clipboard data => len (b64_text data) <= CLIPBOARD_RESTRICTION
  | _ => True
  end.

(** Unfolds the monad of a run. *)
Ltac st_unfold :=
  cbv [bind ret raise gets modify read assign emit logger try_except] in *.

(** [send_media_data_over_channel] *)
Definition send_media_data_over_channel (msg_type : string) (data : json)
  : St world unit :=
  send_data_channel_message msg_type data.

(** Outgoing message methods called one after the other. *)
Fixpoint send_all (ms : list outgoing) : St world unit :=
  match ms with
  | [] => ret tt
  | m :: ms' => call m >> send_all ms'
  end.

(** The handler [on_datachannel] of [start_rtc_pipeline]. *)
Definition on_datachannel (channel : RTCDataChannel) : St world unit :=
  logger INFO ("Auxiliary data channel opened: " ++ label channel) >>
  assign (set_aux_data_channel (Some channel)).

(** The handler [on_connectionstatechange] of [start_rtc_pipeline]. *)
Definition on_connectionstatechange : St world unit :=
  pc <- read peer_connection ;;
  match pc with
  | None =>
      raise (AttributeError
               "'NoneType' object has no attribute 'connectionState'")
  | Some pc =>
      logger INFO
        ("Peer Connection state is " ++ state_str (connectionState pc)) >>
      match connectionState pc with
      | Failed => emit (ConnectionClose pc)
      | _ => ret tt
      end
  end.

Context {tp : Transport}.

(** A method of [self.peer_connection], which mutates that object. *)
Definition on_connection {A} (method : string)
  (c : St RTCPeerConnection A) : St world A :=
  fun w =>
    match peer_connection (self w) with
    | None =>
        (Raise (AttributeError
                  ("'NoneType' object has no attribute '" ++ method ++ "'")),
         w)
    | Some pc =>
        let '(r, pc') := c pc in
        (r, {| self := set_peer_connection (Some pc') (self w);
               trace := trace w |})
    end.

(** [start_rtc_pipeline].  Registering a handler changes no field; the
    handlers are [on_datachannel] and [on_connectionstatechange] above. *)
Definition start_rtc_pipeline (cfg : RTCSettings) : St world unit :=
  config <- (match get_rtc_config cfg with
             | inl e => raise (config_exn e)
             | inr config => ret config
             end) ;;
  pc <- (fun w => (RTCPeerConnection_new config, w)) ;;
  assign (set_peer_connection (Some pc)) >>
  channel <- on_connection "createDataChannel"
               (createDataChannel "input" true 0) ;;
  assign (set_data_channel (Some channel)) >>
  assign (set_video_pipeline_bridge (Some (PipelineBridge.init Packet))) >>
  assign (set_audio_pipeline_bridge (Some (PipelineBridge.init Packet))) >>
  sender0 <- on_connection "addTrack" (addTrack Video) ;;
  _ <- on_connection "addTrack" (addTrack Audio) ;;
  pc <- read peer_connection ;;
  match pc with
  | None =>
      raise (AttributeError
               "'NoneType' object has no attribute 'getTransceivers'")
  | Some pc =>
      pc <- force_codec pc sender0 "video/H264" ;;
      assign (set_peer_connection (Some pc))
  end >>
  text <- on_connection "createOffer" local_offer ;;
  on_sdp "offer" text.

(** One call of a session; what it returns or raises stays with the
    caller. *)
Definition perform (a : session_call) : St world unit :=
  match a with
  | DoStart cfg => start_rtc_pipeline cfg
  | DoStop => stop_pipeline
  | DoSend m => call m
  | DoIngest sample kind => _ <- receive_data sample kind ;; ret tt
  | DoAnswer sdp_type sdp_text => set_sdp sdp_type sdp_text
  | DoAuxChannel channel => on_datachannel channel
  | DoStateChange => on_connectionstatechange
  end.

(** The world after a script of calls, each made whatever became of the
    one before. *)
Fixpoint run_session (script : list session_call) (w : world) : world :=
  match script with
  | [] => w
  | a :: script' => run_session script' (snd (perform a w))
  end.

(** The fields of a session once [start_rtc_pipeline] has created the
    connection [pc], the channel [ch] and the two bridges. *)
Definition started_fields (ch : RTCDataChannel) (pc : RTCPeerConnection)
  (a : RTCApp) : RTCApp :=
  set_audio_pipeline_bridge (Some (PipelineBridge.init Packet))
    (set_video_pipeline_bridge (Some (PipelineBridge.init Packet))
       (set_data_channel (Some ch) (set_peer_connection (Some pc) a))).

(** A computation keeps a property of the world, however it ends. *)
Definition keeps {A} (Q : world -> Prop) (c : St world A) : Prop :=
  forall w, Q w -> Q (snd (c w)).

(** The connection exists and the bridges are between calls. *)
Definition connected_inv (w : world) : Prop :=
  peer_connection (self w) <> None /\
  at_rest (video_pipeline_bridge (self w)) /\
  at_rest (audio_pipeline_bridge (self w)).

(* ===================================================================== *)
(** * The bridge                                                           *)
(* ===================================================================== *)

Lemma bridge_init_inv (A : Type) : PipelineBridge.inv (PipelineBridge.init A).
Proof. repeat split; simpl; lia. Qed.

(** One [set_data] on a bridge at rest returns and leaves exactly the new
    item, whether the slot was free or taken. *)
Lemma set_data_keeps_newest {A : Type} (x : A) (b : PipelineBridge.t A) :
  PipelineBridge.inv b ->
  PipelineBridge.set_data x b =
    (Ok tt, PipelineBridge.mk false (Queue.mk 1 [x])).
Proof.
  destruct b as [lk [m its]].
  unfold PipelineBridge.inv, PipelineBridge.pending; simpl.
  intros (-> & -> & Hlen).
  destruct its as [|y [|z its]]; simpl in Hlen; try lia; reflexivity.
Qed.

Lemma slot_inv {A : Type} (its : list A) :
  (List.length its <= 1)%nat ->
  PipelineBridge.inv (PipelineBridge.mk false (Queue.mk 1 its)).
Proof. intros H; repeat split; assumption. Qed.

Lemma set_all_app {A : Type} (l1 l2 : list A) (b : PipelineBridge.t A) :
  PipelineBridge.set_all (l1 ++ l2) b =
    (PipelineBridge.set_all l1 >> PipelineBridge.set_all l2) b.
Proof.
  revert b; induction l1 as [|x l1 IH]; intros b; simpl.
  - reflexivity.
  - unfold bind in *.
    destruct (PipelineBridge.set_data x b) as [[[]|e|] b1]; auto.
Qed.

Lemma set_all_inv {A : Type} (l : list A) (b : PipelineBridge.t A) :
  PipelineBridge.inv b ->
  exists b', PipelineBridge.set_all l b = (Ok tt, b') /\ PipelineBridge.inv b'.
Proof.
  revert b; induction l as [|x l IH]; intros b Hb; simpl.
  - exists b; split; [reflexivity | assumption].
  - unfold bind. rewrite (set_data_keeps_newest x _ Hb).
    apply IH, slot_inv; simpl; lia.
Qed.

(** A [get_data] on an empty bridge is left waiting and changes nothing. *)
Lemma get_data_waits {A : Type} (b : PipelineBridge.t A) :
  PipelineBridge.pending b = [] ->
  PipelineBridge.get_data b = (Pending, b).
Proof.
  destruct b as [lk [m its]]; unfold PipelineBridge.pending; simpl.
  intros ->; reflexivity.
Qed.

Lemma get_data_inv {A : Type} (b : PipelineBridge.t A) :
  PipelineBridge.inv b -> PipelineBridge.inv (snd (PipelineBridge.get_data b)).
Proof.
  destruct b as [lk [m its]].
  unfold PipelineBridge.inv, PipelineBridge.pending; simpl.
  intros (-> & -> & Hlen).
  destruct its as [|y its]; simpl in *; repeat split; simpl; lia.
Qed.

(** C1.  On a bridge at rest, any [n >= 1] calls of [set_data] followed by
    one [get_data]: every [set_data] returns, the slot then holds exactly
    the item of the last call (an item already there was evicted), the
    [get_data] returns that item and empties the slot, and a further
    [get_data] is left waiting. *)
Theorem bridge_newest_wins {A : Type} (b : PipelineBridge.t A)
  (earlier : list A) (last : A) :
  PipelineBridge.inv b ->
  exists b1 b2,
    PipelineBridge.set_all (earlier ++ [last]) b = (Ok tt, b1) /\
    PipelineBridge.inv b1 /\
    PipelineBridge.pending b1 = [last] /\
    PipelineBridge.get_data b1 = (Ok last, b2) /\
    PipelineBridge.inv b2 /\
    PipelineBridge.pending b2 = [] /\
    PipelineBridge.get_data b2 = (Pending, b2).
Proof.
  intros Hb.
  destruct (set_all_inv earlier _ Hb) as (b0 & Hrun & Hb0).
  exists (PipelineBridge.mk false (Queue.mk 1 [last])),
         (PipelineBridge.mk false (Queue.mk 1 [])).
  rewrite set_all_app; unfold bind at 1; rewrite Hrun.
  simpl PipelineBridge.set_all. unfold bind at 1.
  rewrite (set_data_keeps_newest last _ Hb0).
  repeat split; simpl; lia.
Qed.

(* ===================================================================== *)
(** * Base64 text                                                          *)
(* ===================================================================== *)

Lemma by_threes (A : Type) (P : list A -> Prop) :
  P [] -> (forall a, P [a]) -> (forall a b, P [a; b]) ->
  (forall a b c l, P l -> P (a :: b :: c :: l)) ->
  forall l, P l.
Proof.
  intros H0 H1 H2 H3 l.
  assert (H : P l /\ (forall a, P (a :: l)) /\ (forall a b, P (a :: b :: l))).
  { induction l as [|x l (IH0 & IH1 & IH2)]; repeat split; auto. }
  apply H.
Qed.

Lemma b64encode_length (l : list ascii) :
  List.length (b64encode l) = (4 * ((List.length l + 2) / 3))%nat.
Proof.
  induction l as [| a | a b | a b c l IH] using by_threes; try reflexivity.
  cbn [b64encode List.length]. rewrite IH.
  replace (S (S (S (List.length l))) + 2)%nat
    with ((List.length l + 2) + 1 * 3)%nat by lia.
  rewrite Nat.div_add by lia. lia.
Qed.

Lemma string_length_of_list (l : list ascii) :
  String.length (string_of_list_ascii l) = List.length l.
Proof. induction l as [|c l IH]; simpl; congruence. Qed.

Lemma list_length_of_string (s : string) :
  List.length (list_ascii_of_string s) = String.length s.
Proof. induction s as [|c s IH]; simpl; congruence. Qed.

(** The encoded text has four characters for every three bytes begun. *)
Lemma b64_text_len (data : string) :
  len (b64_text data) = 4 * ((len data + 2) / 3).
Proof.
  unfold len, b64_text.
  rewrite string_length_of_list, b64encode_length, list_length_of_string.
  rewrite Nat2Z.inj_mul, Nat2Z.inj_div, Nat2Z.inj_add. reflexivity.
Qed.

(** So its length is a multiple of four: 65400 occurs, 65401 never does,
    and the first length above the limit is 65404. *)
Lemma b64_text_len_mod4 (data : string) : len (b64_text data) mod 4 = 0.
Proof.
  rewrite b64_text_len, Z.mul_comm. apply Z.mod_mul. lia.
Qed.

(* ===================================================================== *)
(** * The control channel                                                  *)
(* ===================================================================== *)

Lemma sent_app (t1 t2 : list event) : sent (t1 ++ t2) = (sent t1 ++ sent t2)%list.
Proof.
  induction t1 as [|[] t1 IH]; simpl; rewrite ?IH; reflexivity.
Qed.

Lemma logged_app (lvl : level) (t1 t2 : list event) :
  logged lvl (t1 ++ t2) = (logged lvl t1 ++ logged lvl t2)%list.
Proof.
  induction t1 as [|[l m| | |] t1 IH]; simpl; rewrite ?IH; try reflexivity.
  destruct l, lvl; reflexivity.
Qed.

(** The readiness check never changes anything. *)
Lemma is_data_channel_ready_pure (w : world) :
  snd (is_data_channel_ready w) = w.
Proof.
  unfold is_data_channel_ready; st_unfold.
  destruct (data_channel (self w)); [|reflexivity].
  destruct (peer_connection (self w)); reflexivity.
Qed.

Lemma ready_check (w : world) :
  ready w -> is_data_channel_ready w = (Ok (Some true), w).
Proof.
  intros (ch & pc & Hd & Hp & Hc).
  unfold is_data_channel_ready; st_unfold. rewrite Hd, Hp, Hc. reflexivity.
Qed.

Lemma truthy_check_ready (w : world) (v : option bool) :
  is_data_channel_ready w = (Ok v, w) -> truthy v = true -> ready w.
Proof.
  unfold is_data_channel_ready, ready; st_unfold.
  destruct (data_channel (self w)) as [ch|]; [|intros [= <-]; discriminate].
  destruct (peer_connection (self w)) as [pc|]; [|discriminate].
  intros [= <-]; simpl.
  destruct (connectionState pc) eqn:E; try discriminate.
  intros _; exists ch, pc; auto.
Qed.

Lemma not_ready_check (w : world) :
  wired (self w) -> ~ ready w ->
  exists v, is_data_channel_ready w = (Ok v, w) /\ truthy v = false.
Proof.
  unfold wired; intros Hw Hn.
  pose proof (truthy_check_ready w) as Ht.
  unfold is_data_channel_ready in *; st_unfold.
  destruct (data_channel (self w)) as [ch|].
  - destruct (peer_connection (self w)) as [pc|].
    + eexists; split; [reflexivity|].
      destruct (truthy (Some (is_connected (connectionState pc)))) eqn:E; auto.
      exfalso; apply Hn; eapply Ht; eauto.
    + exfalso; apply Hw; congruence.
  - exists None; split; reflexivity.
Qed.

(** [__send_data_channel_message] on a ready channel writes the envelope,
    once. *)
Lemma send_when_ready (w : world) (msg_type : string) (data : json) :
  ready w ->
  exists ch, data_channel (self w) = Some ch /\
    send_data_channel_message msg_type data w =
      (Ok tt, extend [ChannelSend ch (json_dumps (envelope msg_type data))] w).
Proof.
  intros Hr. pose proof (ready_check w Hr) as Hc.
  destruct Hr as (ch & pc & Hd & Hp & Hs). exists ch; split; [assumption|].
  unfold send_data_channel_message. unfold bind at 1. rewrite Hc. simpl.
  st_unfold. rewrite Hd. reflexivity.
Qed.

(** ... and on a channel that is not ready it only leaves a debug line. *)
Lemma send_when_not_ready (w : world) (msg_type : string) (data : json) :
  wired (self w) -> ~ ready w ->
  send_data_channel_message msg_type data w =
    (Ok tt,
     extend [Log DEBUG
               ("skipping message because data channel is not ready: "
                ++ msg_type)] w).
Proof.
  intros Hw Hn. destruct (not_ready_check w Hw Hn) as (v & Hc & Hv).
  unfold send_data_channel_message. unfold bind at 1. rewrite Hc, Hv. simpl.
  reflexivity.
Qed.

Lemma extend_ready (es : list event) (w : world) : ready (extend es w) <-> ready w.
Proof. unfold ready; simpl; tauto. Qed.

Lemma extend_extend (es1 es2 : list event) (w : world) :
  extend es2 (extend es1 w) = extend (es1 ++ es2) w.
Proof. unfold extend; simpl. rewrite <- app_assoc. reflexivity. Qed.

Lemma sent_extend (es : list event) (w : world) :
  sent (trace (extend es w)) = (sent (trace w) ++ sent es)%list.
Proof. simpl. apply sent_app. Qed.

(** C5.  With the channel ready, clipboard data whose base64 text has at
    most 65400 characters goes out as one clipboard message carrying the
    whole text; longer data goes nowhere: the call only logs a warning. *)
Theorem clipboard_limit (w : world) (data : string) :
  ready w ->
  exists ch, data_channel (self w) = Some ch /\
    (len (b64_text data) <= 65400 ->
     send_clipboard_data data w =
       (Ok tt,
        extend [ChannelSend ch
                  (json_dumps
                     (envelope "clipboard"
                        (JObj [("content", JStr (b64_text data))])))] w)) /\
    (65400 < len (b64_text data) ->
     exists warning,
       send_clipboard_data data w = (Ok tt, extend [Log WARNING warning] w) /\
       sent (trace (extend [Log WARNING warning] w)) = sent (trace w)).
Proof.
  intros Hr.
  destruct (send_when_ready w "clipboard"
              (JObj [("content", JStr (b64_text data))]) Hr) as (ch & Hd & Hs).
  exists ch; split; [assumption|]. unfold send_clipboard_data, CLIPBOARD_RESTRICTION.
  split; intros Hlen.
  - apply Z.leb_le in Hlen. rewrite Hlen. exact Hs.
  - apply Z.leb_gt in Hlen. rewrite Hlen. eexists; split; [reflexivity|].
    rewrite sent_extend; simpl. apply app_nil_r.
Qed.

(** C10.  [send_cursor_data] records the data in [last_cursor_sent]
    whatever the state of the channel and whatever the call then does; when
    the channel is not ready, nothing is sent. *)
Theorem cursor_recorded_before_gate (w : world) (data : json) :
  last_cursor_sent (self (snd (send_cursor_data data w))) = Some data /\
  (~ ready w ->
   sent (trace (snd (send_cursor_data data w))) = sent (trace w)).
Proof.
  unfold send_cursor_data, send_data_channel_message, is_data_channel_ready.
  st_unfold; simpl.
  destruct (data_channel (self w)) as [ch|] eqn:Hd; simpl.
  - destruct (peer_connection (self w)) as [pc|] eqn:Hp; simpl.
    + destruct (is_connected (connectionState pc)) eqn:Hc; simpl.
      * rewrite Hd; simpl. split; [reflexivity|].
        intros Hn; exfalso; apply Hn. exists ch, pc; repeat split; auto.
        destruct (connectionState pc); try discriminate; reflexivity.
      * split; [reflexivity|]. intros _. rewrite sent_app; apply app_nil_r.
    + split; reflexivity.
  - split; [reflexivity|]. intros _. rewrite sent_app; apply app_nil_r.
Qed.

(** Every outgoing message method ends in [__send_data_channel_message]
    with the tag and payload of the catalog, after at most some logging and
    the cursor record. *)
Lemma call_sends (m : outgoing) (w : world) :
  within_limit m ->
  exists w0,
    call m w =
      send_data_channel_message (catalog_tag m) (catalog_payload m) w0 /\
    data_channel (self w0) = data_channel (self w) /\
    peer_connection (self w0) = peer_connection (self w) /\
    sent (trace w0) = sent (trace w) /\
    logged DEBUG (trace w0) = logged DEBUG (trace w).
Proof.
  intros Hfit.
  destruct m; simpl in *;
    try (exists w; repeat split; reflexivity);
    try (eexists (extend [Log INFO _] w); split;
         [reflexivity | simpl; rewrite sent_app, logged_app; simpl;
                        rewrite !app_nil_r; repeat split; reflexivity]).
  - exists w. unfold send_clipboard_data.
    apply Z.leb_le in Hfit. rewrite Hfit. repeat split; reflexivity.
  - eexists {| self := set_last_cursor_sent (Some data) (self w);
               trace := trace w |}.
    repeat split; reflexivity.
Qed.

(** Sending never touches the fields of the session. *)
Lemma send_keeps_self (msg_type : string) (data : json) (w : world) :
  self (snd (send_data_channel_message msg_type data w)) = self w.
Proof.
  unfold send_data_channel_message, is_data_channel_ready; st_unfold.
  destruct (data_channel (self w)) as [ch|] eqn:Hd; simpl; [|reflexivity].
  destruct (peer_connection (self w)) as [pc|]; simpl; [|reflexivity].
  destruct (is_connected (connectionState pc)); simpl; [|reflexivity].
  rewrite Hd; reflexivity.
Qed.

(** The outgoing message methods keep the session wired: they change no
    reference but the cursor record. *)
Lemma call_keeps_wired (m : outgoing) (w : world) :
  wired (self w) -> wired (self (snd (call m w))).
Proof.
  assert (Hlog : forall lvl line ty data,
            self (snd ((logger lvl line >>
                        send_data_channel_message ty data) w)) = self w).
  { intros. unfold bind, logger, emit, modify.
    rewrite send_keeps_self. reflexivity. }
  unfold wired. intros Hw.
  destruct m; simpl;
    unfold send_gpu_stats, send_reload_window, send_framerate,
      send_video_bitrate, send_audio_bitrate, send_encoder,
      send_resize_enabled, send_remote_resolution, send_ping,
      send_latency_time, send_system_stats;
    rewrite ?Hlog, ?send_keeps_self; try assumption.
  - unfold send_clipboard_data.
    destruct (len (b64_text data) <=? CLIPBOARD_RESTRICTION);
      [rewrite send_keeps_self|]; assumption.
  - unfold send_cursor_data, bind, assign, modify.
    rewrite send_keeps_self. exact Hw.
Qed.

(** [stop_pipeline] on a session that has a connection. *)
Lemma stop_pipeline_started (w : world) (pc : RTCPeerConnection) :
  peer_connection (self w) = Some pc ->
  exists w',
    stop_pipeline w = (Ok tt, w') /\
    all_absent (self w') /\
    last_cursor_sent (self w') = last_cursor_sent (self w) /\
    trace w' =
      (trace w ++ [Log INFO "stopping pipeline"; ConnectionClose pc;
                   Log INFO "pipeline stopped"])%list.
Proof.
  intros Hp. unfold stop_pipeline; st_unfold; simpl. rewrite Hp.
  eexists; split; [reflexivity|]. simpl.
  rewrite <- !app_assoc. repeat split; reflexivity.
Qed.

(** [stop_pipeline] on a session without a connection. *)
Lemma stop_pipeline_unstarted (w : world) :
  peer_connection (self w) = None ->
  stop_pipeline w =
    (Raise (AttributeError "'NoneType' object has no attribute 'close'"),
     extend [Log INFO "stopping pipeline"] w).
Proof.
  intros Hp. unfold stop_pipeline; st_unfold; simpl. rewrite Hp. reflexivity.
Qed.

Lemma stop_pipeline_result (w w1 : world) :
  stop_pipeline w = (Ok tt, w1) -> all_absent (self w1).
Proof.
  destruct (peer_connection (self w)) as [pc|] eqn:Hp.
  - destruct (stop_pipeline_started w pc Hp) as (w' & -> & Ha & _).
    intros [= <-]; assumption.
  - rewrite (stop_pipeline_unstarted w Hp); discriminate.
Qed.

(** Stopping keeps the session wired: it drops the channel with the
    connection, or changes no field. *)
Lemma stop_keeps_wired (w : world) :
  wired (self w) -> wired (self (snd (stop_pipeline w))).
Proof.
  intros Hw. destruct (peer_connection (self w)) as [pc|] eqn:Hp.
  - destruct (stop_pipeline_started w pc Hp) as (w' & -> & (_ & Hd & _) & _).
    unfold wired; simpl. rewrite Hd. congruence.
  - rewrite (stop_pipeline_unstarted w Hp). exact Hw.
Qed.

(** C7, as the code has it.  On a session with a peer connection,
    [stop_pipeline] closes that connection and leaves the peer connection,
    both channels and both bridges absent.  It is not idempotent: on a
    session without a peer connection, so also when called a second time,
    it raises before it changes any field, and the fields stay absent. *)
Theorem stop_pipeline_resets (w : world) :
  (forall pc, peer_connection (self w) = Some pc ->
     exists w',
       stop_pipeline w = (Ok tt, w') /\
       all_absent (self w') /\
       last_cursor_sent (self w') = last_cursor_sent (self w) /\
       trace w' =
         (trace w ++ [Log INFO "stopping pipeline"; ConnectionClose pc;
                      Log INFO "pipeline stopped"])%list) /\
  (peer_connection (self w) = None ->
     stop_pipeline w =
       (Raise (AttributeError "'NoneType' object has no attribute 'close'"),
        extend [Log INFO "stopping pipeline"] w)) /\
  (forall w1, stop_pipeline w = (Ok tt, w1) ->
     exists e w2,
       stop_pipeline w1 = (Raise e, w2) /\
       self w2 = self w1 /\ all_absent (self w2)).
Proof.
  split; [|split].
  - apply stop_pipeline_started.
  - apply stop_pipeline_unstarted.
  - intros w1 H1. pose proof (stop_pipeline_result w w1 H1) as Ha.
    destruct Ha as (Hp & Hrest).
    rewrite (stop_pipeline_unstarted w1 Hp).
    do 2 eexists; split; [reflexivity|]. simpl. repeat split; tauto.
Qed.

(** C8, as the code has it.  On a session whose channels belong to its
    connection: [is_data_channel_ready] returns, changes nothing, and its
    value is true exactly when the control channel exists and the
    connection is connected; after a [stop_pipeline] it is not true.  An
    outgoing message within the limit of the catalog, sent while the
    channel is ready, puts exactly one envelope [{type, data}] on the
    channel.  While the channel is not ready, every outgoing message method
    returns without sending, and unless it is a clipboard message over the
    limit it leaves one debug line. *)
Theorem control_channel_gate (w : world) :
  wired (self w) ->
  (exists v, is_data_channel_ready w = (Ok v, w) /\
             (truthy v = true <-> ready w)) /\
  (forall w1, stop_pipeline w = (Ok tt, w1) ->
     is_data_channel_ready w1 = (Ok None, w1)) /\
  (forall m, ready w -> within_limit m ->
     exists w',
       call m w = (Ok tt, w') /\
       sent (trace w') =
         (sent (trace w)
          ++ [json_dumps (envelope (catalog_tag m) (catalog_payload m))])%list) /\
  (forall m, ~ ready w ->
     exists w',
       call m w = (Ok tt, w') /\
       sent (trace w') = sent (trace w) /\
       (within_limit m ->
        logged DEBUG (trace w') =
          (logged DEBUG (trace w)
           ++ [("skipping message because data channel is not ready: "
                ++ catalog_tag m)%string])%list)).
Proof.
  intros Hw. split; [|split; [|split]].
  - destruct (is_data_channel_ready w) as [r w0] eqn:E.
    pose proof (is_data_channel_ready_pure w) as Hpure.
    rewrite E in Hpure; simpl in Hpure; subst w0.
    assert (Hdec : ready w \/ ~ ready w).
    { unfold ready.
      destruct (data_channel (self w)) as [ch|];
        [|right; intros (? & ? & ? & _); discriminate].
      destruct (peer_connection (self w)) as [pc|];
        [|right; intros (? & ? & _ & ? & _); discriminate].
      destruct (connectionState pc) eqn:Hc;
        try (right; intros (? & ? & _ & [= <-] & ?); congruence).
      left; exists ch, pc; auto. }
    destruct Hdec as [Hr|Hn].
    + rewrite (ready_check w Hr) in E. injection E as <-.
      exists (Some true); split; [reflexivity|]. simpl; tauto.
    + destruct (not_ready_check w Hw Hn) as (v & Hc & Hv).
      rewrite Hc in E. injection E as <-.
      exists v; split; [reflexivity|]. rewrite Hv.
      split; [discriminate | contradiction].
  - intros w1 H1. destruct (stop_pipeline_result w w1 H1) as (_ & Hd & _).
    unfold is_data_channel_ready; st_unfold. rewrite Hd. reflexivity.
  - intros m Hr Hfit.
    destruct (call_sends m w Hfit) as (w0 & -> & Hd & Hp & Hs & _).
    assert (Hr0 : ready w0).
    { destruct Hr as (ch & pc & ? & ? & ?). exists ch, pc.
      repeat split; congruence. }
    destruct (send_when_ready w0 (catalog_tag m) (catalog_payload m) Hr0)
      as (ch & _ & ->).
    eexists; split; [reflexivity|]. rewrite sent_extend, Hs. reflexivity.
  - intros m Hn.
    assert (Hgate : forall w0 ty data,
               data_channel (self w0) = data_channel (self w) ->
               peer_connection (self w0) = peer_connection (self w) ->
               send_data_channel_message ty data w0 =
                 (Ok tt,
                  extend [Log DEBUG
                    ("skipping message because data channel is not ready: "
                     ++ ty)] w0)).
    { intros w0 ty data Hd Hp. apply send_when_not_ready.
      - unfold wired in *. rewrite Hd, Hp. exact Hw.
      - intros (ch & pc & ? & ? & ?). apply Hn. exists ch, pc.
        repeat split; congruence. }
    assert (Hlim : within_limit m \/ ~ within_limit m).
    { destruct m; simpl; auto. lia. }
    destruct Hlim as [Hfit|Hover].
    + destruct (call_sends m w Hfit) as (w0 & -> & Hd & Hp & Hs & Hl).
      rewrite (Hgate w0 _ _ Hd Hp).
      eexists; split; [reflexivity|]. simpl.
      rewrite sent_app, logged_app, Hs, Hl; simpl. rewrite app_nil_r.
      split; [reflexivity|]. intros _; reflexivity.
    + destruct m; simpl in Hover; try tauto.
      simpl. unfold send_clipboard_data.
      assert (E : (len (b64_text data) <=? CLIPBOARD_RESTRICTION) = false)
        by (apply Z.leb_gt; lia).
      rewrite E. eexists; split; [reflexivity|]. simpl.
      rewrite sent_app; simpl. rewrite app_nil_r.
      split; [reflexivity|]. intros Hfit; contradiction.
Qed.

(* ===================================================================== *)
(** * The remote answer                                                    *)
(* ===================================================================== *)

(** C3, as the code has it.  [set_sdp] raises [RTCAppError], changing
    nothing, whenever the type is not ["answer"] or the SDP is [None].
    Otherwise, on a session with a peer connection, it hands the
    description made of the given SDP text and type to the connection and
    ends as [setRemoteDescription] ends: when the connection accepts the
    description the call returns and the connection carries it; when the
    connection refuses it the call raises the connection's exception and
    changes nothing.  An SDP text that is the empty string is not refused
    by [set_sdp] itself. *)
Theorem set_sdp_guards (w : world) (sdp_type : string)
  (sdp_text : option string) :
  (sdp_type <> "answer" ->
   exists msg, set_sdp sdp_type sdp_text w = (Raise (RTCAppError msg), w)) /\
  (sdp_type = "answer" -> sdp_text = None ->
   exists msg, set_sdp sdp_type sdp_text w = (Raise (RTCAppError msg), w)) /\
  (forall text pc,
     sdp_type = "answer" -> sdp_text = Some text ->
     peer_connection (self w) = Some pc ->
     let d := {| sdp := text; type := "answer" |} in
     (sdp_fault d pc = None ->
      exists w' pc',
        set_sdp sdp_type sdp_text w = (Ok tt, w') /\
        peer_connection (self w') = Some pc' /\
        remoteDescription pc' = Some d /\
        connectionState pc' = connectionState pc /\
        transceivers pc' = transceivers pc /\
        trace w' = trace w) /\
     (forall e, sdp_fault d pc = Some e ->
        set_sdp sdp_type sdp_text w = (Raise e, w))).
Proof.
  unfold set_sdp. split; [|split].
  - intros Hty. apply String.eqb_neq in Hty. rewrite Hty; simpl.
    eexists; reflexivity.
  - intros -> ->; simpl. eexists; reflexivity.
  - intros text pc -> -> Hp.
    replace ("answer" =? "answer")%string with true by reflexivity.
    cbn [negb]. st_unfold. rewrite Hp. unfold setRemoteDescription. split.
    + intros Hf. rewrite Hf. st_unfold.
      do 2 eexists; split; [reflexivity|]. simpl. repeat split; reflexivity.
    + intros e Hf. rewrite Hf. reflexivity.
Qed.

(* ===================================================================== *)
(** * Codec pinning                                                        *)
(* ===================================================================== *)

Lemma next_where_some {A : Type} (p : A -> bool) (l : list A) (i : nat) (x : A) :
  next_where p l = Some (i, x) -> nth_error l i = Some x /\ p x = true.
Proof.
  revert i; induction l as [|y l IH]; intros i; simpl; [discriminate|].
  destruct (p y) eqn:Hy.
  - intros [= <- <-]; auto.
  - destruct (next_where p l) as [[j z]|]; [|discriminate].
    intros [= <- <-]. apply IH; reflexivity.
Qed.

Lemma next_where_exists {A : Type} (p : A -> bool) (l : list A) :
  (exists x, In x l /\ p x = true) -> exists i x, next_where p l = Some (i, x).
Proof.
  induction l as [|y l IH]; intros (x & Hin & Hx); simpl in *; [contradiction|].
  destruct (p y) eqn:Hy; [eauto|].
  destruct Hin as [->|Hin]; [congruence|].
  destruct IH as (i & z & ->); eauto.
Qed.

Lemma replace_at_same {A : Type} (i : nat) (x y : A) (l : list A) :
  nth_error l i = Some x -> nth_error (replace_at i y l) i = Some y.
Proof.
  revert i; induction l as [|z l IH]; intros [|i]; simpl; try discriminate; auto.
Qed.

Lemma replace_at_other {A : Type} (i j : nat) (y : A) (l : list A) :
  j <> i -> nth_error (replace_at i y l) j = nth_error l j.
Proof.
  revert i j; induction l as [|z l IH]; intros [|i] [|j] H; simpl; auto;
    congruence.
Qed.

Lemma rtx_name_is_lower (k : media_kind) :
  lower (kind_str k ++ "/rtx") = kind_str k ++ "/rtx".
Proof. destruct k; reflexivity. Qed.

(** The test of the second scan is equality up to case with
    ["<kind>/rtx"]. *)
Lemma rtx_test (k : media_kind) (m : string) :
  (lower m =? kind_str k ++ "/rtx")%string = true <->
  eq_ignoring_case m (kind_str k ++ "/rtx").
Proof.
  unfold eq_ignoring_case. rewrite rtx_name_is_lower. apply String.eqb_eq.
Qed.

(** C4.  For a sender that a transceiver of the connection owns:
    [force_codec] returns exactly when the capability list has a codec
    whose MIME type is the requested one and a codec whose MIME type is
    ["<kind>/rtx"] up to case; it then leaves the owning transceiver with
    the preference list [[primary; rtx]], those two codecs in that order,
    and every other transceiver as it was; and when either codec is
    missing it raises [ValueError] and changes nothing. *)
Theorem force_codec_pins (w : world) (pc : RTCPeerConnection)
  (sender0 : RTCRtpSender) (mime : string) :
  (exists t, In t (transceivers pc) /\ same_sender (sender t) sender0 = true) ->
  let kind := track_kind sender0 in
  let codecs := getCapabilities kind in
  let primary_offered := exists c, In c codecs /\ mimeType c = mime in
  let rtx_offered :=
    exists r, In r codecs /\
              eq_ignoring_case (mimeType r) (kind_str kind ++ "/rtx") in
  ((exists pc' w', force_codec pc sender0 mime w = (Ok pc', w')) <->
   primary_offered /\ rtx_offered) /\
  (forall pc' w', force_codec pc sender0 mime w = (Ok pc', w') ->
     exists c r i t,
       In c codecs /\ mimeType c = mime /\
       In r codecs /\
       eq_ignoring_case (mimeType r) (kind_str kind ++ "/rtx") /\
       next_where (fun t => same_sender (sender t) sender0) (transceivers pc)
         = Some (i, t) /\
       nth_error (transceivers pc') i =
         Some {| sender := sender t; preferred_codecs := [c; r] |} /\
       (forall j, j <> i ->
          nth_error (transceivers pc') j = nth_error (transceivers pc) j) /\
       connectionState pc' = connectionState pc /\
       remoteDescription pc' = remoteDescription pc /\
       self w' = self w) /\
  (~ (primary_offered /\ rtx_offered) ->
   exists msg, force_codec pc sender0 mime w = (Raise (ValueError msg), w)).
Proof.
  intros Hown kind codecs primary_offered rtx_offered.
  destruct (next_where_exists _ _ Hown) as (i & t & Hnext).
  destruct (next_where_some _ _ _ _ Hnext) as (Hnth & _).
  unfold force_codec. fold kind. fold codecs.
  destruct (find (fun codec => (mimeType codec =? mime)%string) codecs)
    as [c|] eqn:Hc.
  - apply find_some in Hc. destruct Hc as (Hcin & Hcm).
    apply String.eqb_eq in Hcm.
    destruct (find (fun codec =>
                (lower (mimeType codec) =? kind_str kind ++ "/rtx")%string)
                codecs) as [r|] eqn:Hr.
    + apply find_some in Hr. destruct Hr as (Hrin & Hrm).
      apply rtx_test in Hrm. rewrite Hnext.
      assert (Hp : primary_offered) by (exists c; auto).
      assert (Hx : rtx_offered) by (exists r; auto).
      st_unfold; simpl. split; [|split].
      * split; [auto | intros _; eauto].
      * intros pc' w' [= <- <-]. exists c, r, i, t. simpl.
        repeat split; auto.
        -- unfold setCodecPreferences. eapply replace_at_same; eauto.
        -- intros j Hj. apply replace_at_other; assumption.
      * intros Hno; exfalso; auto.
    + assert (Hx : ~ rtx_offered).
      { intros (r & Hrin & Hrm). apply rtx_test in Hrm.
        pose proof (find_none _ _ Hr r Hrin) as Hf. simpl in Hf. congruence. }
      st_unfold. split; [|split].
      * split; [intros (? & ? & ?); discriminate | tauto].
      * intros ? ? ?; discriminate.
      * intros _; eexists; reflexivity.
  - assert (Hp : ~ primary_offered).
    { intros (c & Hcin & Hcm).
      pose proof (find_none _ _ Hc c Hcin) as Hf. simpl in Hf.
      apply String.eqb_neq in Hf. contradiction. }
    st_unfold. split; [|split].
    + split; [intros (? & ? & ?); discriminate | tauto].
    + intros ? ? ?; discriminate.
    + intros _; eexists; reflexivity.
Qed.

(* ===================================================================== *)
(** * Sample ingestion                                                     *)
(* ===================================================================== *)

Lemma normalize_unit (r : Z) :
  0 < r -> normalize 1 r = {| numerator := 1; denominator := r |}.
Proof.
  intros Hr. unfold normalize.
  destruct (r <? 0) eqn:E; [apply Z.ltb_lt in E; lia|].
  rewrite Z.gcd_1_l, Z.div_1_r, Z.div_1_r. reflexivity.
Qed.

(** The ticks computed are the floor of the exact quotient. *)
Lemma ticks_floor (t clock_rate : Z) :
  let p := t * clock_rate / 1000000000 in
  p * 1000000000 <= t * clock_rate < (p + 1) * 1000000000.
Proof.
  intros p. subst p.
  pose proof (Z.div_mod (t * clock_rate) 1000000000 ltac:(lia)) as Hdm.
  pose proof (Z.mod_pos_bound (t * clock_rate) 1000000000 ltac:(lia)) as Hb.
  lia.
Qed.

Lemma defined_pts_stamp (buf : GstBuffer) (clock_rate : Z) :
  stamped_as buf clock_rate
    (option_map (fun t => t * clock_rate / 1000000000) (defined_pts buf)).
Proof.
  unfold stamped_as, defined_pts. split.
  - intros t -> Ht. apply Z.eqb_neq in Ht. rewrite Ht. reflexivity.
  - intros [-> | ->]; reflexivity.
Qed.

(** Feeding a bridge at rest returns and leaves exactly the packet fed. *)
Lemma feed_at_rest (bridge : RTCApp -> option (PipelineBridge.t Packet))
  (store : option (PipelineBridge.t Packet) -> RTCApp -> RTCApp)
  (p : Packet) (w : world) (b : PipelineBridge.t Packet) :
  bridge (self w) = Some b -> PipelineBridge.inv b ->
  feed bridge store p w = (Ok tt, delivered store p w).
Proof.
  intros Hb Hinv. unfold feed. rewrite Hb.
  rewrite (set_data_keeps_newest p b Hinv). reflexivity.
Qed.

Lemma process_video_at_rest (w : world) (buf : GstBuffer)
  (data : list ascii) (bv : PipelineBridge.t Packet) :
  av_fault data = None ->
  video_pipeline_bridge (self w) = Some bv -> PipelineBridge.inv bv ->
  process_video buf data w =
    (Ok tt, delivered set_video_pipeline_bridge (video_packet buf data) w).
Proof.
  intros Hfault Hbv Hiv. unfold process_video, av_Packet. rewrite Hfault.
  unfold Fraction_new, RTP_VIDEO_CLOCK_RATE; simpl.
  unfold bind, ret.
  erewrite feed_at_rest by eassumption.
  unfold video_packet. destruct (defined_pts buf); reflexivity.
Qed.

Lemma audio_clock_rate_nonzero (info : GstStructure) :
  audio_clock_rate info <> 0.
Proof.
  unfold audio_clock_rate.
  destruct (snd (get_int "rate" info) =? 0) eqn:E; [lia|].
  apply Z.eqb_neq in E; assumption.
Qed.

(** The audio branch once the packet is allocated: the rate is looked up,
    then the packet is fed to the bridge, unless its ticks do not fit the
    timestamp field. *)
Lemma process_audio_run (w : world) (buf : GstBuffer)
  (info : GstStructure) (rest : list GstStructure) (data : list ascii) :
  av_fault data = None ->
  process_audio buf (info :: rest) data w =
    if ticks_fit buf (audio_clock_rate info) then
      feed audio_pipeline_bridge set_audio_pipeline_bridge
        (audio_packet buf (audio_clock_rate info) data)
        (after_rate_lookup info w)
    else
      (Raise (OverflowError "Python int too large to convert to C long"),
       after_rate_lookup info w).
Proof.
  intros Hfault. unfold process_audio, av_Packet. rewrite Hfault.
  simpl get_structure. cbv iota.
  unfold audio_clock_rate, after_rate_lookup, ticks_fit, audio_packet.
  destruct (get_int "rate" info) as [flag rate]; simpl snd.
  destruct (rate =? 0) eqn:E.
  - unfold Fraction_new. st_unfold.
    change (48000 =? 0) with false. cbv beta iota.
    destruct (defined_pts buf) as [t|]; [|reflexivity].
    unfold int64_field. st_unfold.
    destruct (fits_int64 (t * 48000 / 1000000000)); reflexivity.
  - unfold Fraction_new. st_unfold. cbv beta iota. rewrite E.
    destruct (defined_pts buf) as [t|]; [|reflexivity].
    unfold int64_field. st_unfold.
    destruct (fits_int64 (t * rate / 1000000000)); reflexivity.
Qed.

Lemma after_rate_lookup_self (info : GstStructure) (w : world) :
  self (after_rate_lookup info w) = self w.
Proof.
  unfold after_rate_lookup.
  destruct (snd (get_int "rate" info) =? 0); reflexivity.
Qed.

(** How the audio branch can end: it raises before it logs anything, or
    it raises on the timestamp after the rate lookup, or it goes on to
    feed the packet it built. *)
Lemma process_audio_cases (buf : GstBuffer) (caps : GstCaps)
  (data : list ascii) (w : world) :
  (exists e, process_audio buf caps data w = (Raise e, w)) \/
  (exists info e,
     get_structure 0 caps = Some info /\
     process_audio buf caps data w = (Raise e, after_rate_lookup info w)) \/
  (exists info,
     get_structure 0 caps = Some info /\
     process_audio buf caps data w =
       feed audio_pipeline_bridge set_audio_pipeline_bridge
         (audio_packet buf (audio_clock_rate info) data)
         (after_rate_lookup info w)).
Proof.
  destruct (av_fault data) as [e|] eqn:Hfault.
  - left. exists e. unfold process_audio, av_Packet. rewrite Hfault.
    reflexivity.
  - destruct caps as [|info rest].
    + left. eexists. unfold process_audio, av_Packet. rewrite Hfault.
      reflexivity.
    + right. rewrite (process_audio_run w buf info rest data Hfault).
      destruct (ticks_fit buf (audio_clock_rate info)).
      * right. exists info. split; reflexivity.
      * left. exists info. eexists. split; reflexivity.
Qed.

Lemma process_audio_at_rest (w : world) (buf : GstBuffer)
  (info : GstStructure) (rest : list GstStructure)
  (data : list ascii) (ba : PipelineBridge.t Packet) :
  av_fault data = None ->
  ticks_fit buf (audio_clock_rate info) = true ->
  audio_pipeline_bridge (self w) = Some ba -> PipelineBridge.inv ba ->
  process_audio buf (info :: rest) data w =
    (Ok tt,
     delivered set_audio_pipeline_bridge
       (audio_packet buf (audio_clock_rate info) data)
       (after_rate_lookup info w)).
Proof.
  intros Hfault Hfit Hba Hia.
  rewrite (process_audio_run w buf info rest data Hfault), Hfit.
  apply (feed_at_rest _ _ _ _ ba); [|exact Hia].
  unfold after_rate_lookup.
  destruct (snd (get_int "rate" info) =? 0); exact Hba.
Qed.

Lemma get_int_cases (info : GstStructure) :
  (forall r, field "rate" info = Some (GInt r) ->
     snd (get_int "rate" info) = r) /\
  (field "rate" info = None -> snd (get_int "rate" info) = 0).
Proof.
  unfold get_int. split.
  - intros r ->; reflexivity.
  - intros ->; reflexivity.
Qed.

(** Ingestion of a mappable sample while the bridges are at rest. *)
Lemma receive_video_at_rest (w : world) (buf : GstBuffer) (caps : GstCaps)
  (data : list ascii) (bv : PipelineBridge.t Packet) :
  buf_data buf = Some data -> av_fault data = None ->
  video_pipeline_bridge (self w) = Some bv -> PipelineBridge.inv bv ->
  receive_data (Some {| get_buffer := Some buf; get_caps := Some caps |})
    "video" w =
    (Ok None,
     extend [BufferUnmap buf]
       (delivered set_video_pipeline_bridge (video_packet buf data) w)).
Proof.
  intros Hdata Hfault Hbv Hiv.
  unfold receive_data; simpl. unfold buf_map. rewrite Hdata; simpl.
  unfold bind at 1. unfold try_except.
  rewrite (process_video_at_rest w buf data bv Hfault Hbv Hiv).
  reflexivity.
Qed.

Lemma receive_audio_at_rest (w : world) (buf : GstBuffer)
  (info : GstStructure) (rest : list GstStructure) (kind : string)
  (data : list ascii) (ba : PipelineBridge.t Packet) :
  kind <> "video" ->
  buf_data buf = Some data -> av_fault data = None ->
  ticks_fit buf (audio_clock_rate info) = true ->
  audio_pipeline_bridge (self w) = Some ba -> PipelineBridge.inv ba ->
  receive_data
    (Some {| get_buffer := Some buf; get_caps := Some (info :: rest) |})
    kind w =
    (Ok None,
     extend [BufferUnmap buf]
       (delivered set_audio_pipeline_bridge
          (audio_packet buf (audio_clock_rate info) data)
          (after_rate_lookup info w))).
Proof.
  intros Hkind Hdata Hfault Hfit Hba Hia. apply String.eqb_neq in Hkind.
  unfold receive_data; simpl. unfold buf_map. rewrite Hdata; simpl.
  rewrite Hkind. unfold bind at 1. unfold try_except.
  rewrite (process_audio_at_rest w buf info rest data ba Hfault Hfit Hba Hia).
  reflexivity.
Qed.

(** An audio sample whose ticks do not fit the timestamp field: the
    assignment raises inside the [try], the error is logged, the buffer
    unmapped, and no packet reaches the bridge. *)
Lemma receive_audio_overflow (w : world) (buf : GstBuffer)
  (info : GstStructure) (rest : list GstStructure) (kind : string)
  (data : list ascii) :
  kind <> "video" ->
  buf_data buf = Some data -> av_fault data = None ->
  ticks_fit buf (audio_clock_rate info) = false ->
  receive_data
    (Some {| get_buffer := Some buf; get_caps := Some (info :: rest) |})
    kind w =
    (Ok None,
     extend [Log ERROR
               ("error processing audio sample: "
                ++ "Python int too large to convert to C long");
             BufferUnmap buf]
       (after_rate_lookup info w)).
Proof.
  intros Hkind Hdata Hfault Hfit. apply String.eqb_neq in Hkind.
  unfold receive_data; simpl. unfold buf_map. rewrite Hdata; simpl.
  rewrite Hkind. unfold bind at 1. unfold try_except.
  rewrite (process_audio_run w buf info rest data Hfault), Hfit.
  st_unfold. unfold extend; simpl. rewrite <- app_assoc. reflexivity.
Qed.

(** At the video rate the ticks of an unsigned 64-bit buffer timestamp
    always fit the timestamp field. *)
Lemma video_ticks_fit (t : Z) :
  0 <= t < 2 ^ 64 -> fits_int64 (t * RTP_VIDEO_CLOCK_RATE / 1000000000) = true.
Proof.
  intros Ht. unfold fits_int64, RTP_VIDEO_CLOCK_RATE.
  apply andb_true_iff. split; [apply Z.leb_le | apply Z.ltb_lt].
  - assert (0 <= t * 90000 / 1000000000) by (apply Z.div_pos; lia). lia.
  - apply Z.div_lt_upper_bound; lia.
Qed.

(** C2.  An ingested sample whose buffer can be mapped and whose bytes
    make a packet reaches the bridge of its kind as one packet with that
    payload.  Its [pts] is
    [floor(buffer_pts_ns * clock_rate / 1_000_000_000)] when the buffer
    timestamp is defined, and is left unset when the timestamp is [None] or
    [CLOCK_TIME_NONE].  For video the clock rate is 90000 and [dts] is set
    with [pts].  For audio the clock rate is the rate the caps declare,
    and 48000, with a warning logged, when they declare none.  An audio
    packet is produced when its ticks fit the 64-bit timestamp field; when
    they do not, no packet is produced: the error is logged and the bridge
    is left as it was. *)
Theorem receive_data_timestamps (w : world) (buf : GstBuffer)
  (caps : GstCaps) (data : list ascii) (bv ba : PipelineBridge.t Packet) :
  buf_data buf = Some data ->
  av_fault data = None ->
  video_pipeline_bridge (self w) = Some bv -> PipelineBridge.inv bv ->
  audio_pipeline_bridge (self w) = Some ba -> PipelineBridge.inv ba ->
  let sample := Some {| get_buffer := Some buf; get_caps := Some caps |} in
  (exists w' p,
     receive_data sample "video" w = (Ok None, w') /\
     video_pending w' = [p] /\
     payload p = data /\
     time_base p = Some {| numerator := 1; denominator := 90000 |} /\
     stamped_as buf 90000 (pts p) /\
     dts p = pts p /\
     logged WARNING (trace w') = logged WARNING (trace w)) /\
  (forall kind info rest,
     kind <> "video" -> caps = info :: rest ->
     ticks_fit buf (audio_clock_rate info) = true ->
     exists w' p clock_rate,
       receive_data sample kind w = (Ok None, w') /\
       audio_pending w' = [p] /\
       payload p = data /\
       time_base p = Some (normalize 1 clock_rate) /\
       stamped_as buf clock_rate (pts p) /\
       (forall r, field "rate" info = Some (GInt r) -> r <> 0 ->
          clock_rate = r /\
          logged WARNING (trace w') = logged WARNING (trace w)) /\
       (field "rate" info = None ->
          clock_rate = 48000 /\
          logged WARNING (trace w') =
            (logged WARNING (trace w)
             ++ ["Could not get clock-rate from caps, falling back to 48000"])
            %list)) /\
  (forall kind info rest,
     kind <> "video" -> caps = info :: rest ->
     ticks_fit buf (audio_clock_rate info) = false ->
     exists w',
       receive_data sample kind w = (Ok None, w') /\
       audio_pipeline_bridge (self w') = Some ba /\
       logged ERROR (trace w') <> logged ERROR (trace w)).
Proof.
  intros Hdata Hfault Hbv Hiv Hba Hia sample.
  unfold sample; clear sample. split; [|split].
  - do 2 eexists.
    split; [exact (receive_video_at_rest w buf caps data bv
                     Hdata Hfault Hbv Hiv)|].
    unfold video_pending; simpl. split; [reflexivity|].
    rewrite logged_app; simpl. rewrite app_nil_r.
    repeat split; try reflexivity; apply (defined_pts_stamp buf 90000).
  - intros kind info rest Hkind -> Hfit.
    eexists; eexists; exists (audio_clock_rate info).
    split; [exact (receive_audio_at_rest w buf info rest kind data ba
                     Hkind Hdata Hfault Hfit Hba Hia)|].
    unfold audio_pending; simpl. split; [reflexivity|].
    split; [reflexivity|]. split; [reflexivity|].
    split; [apply (defined_pts_stamp buf (audio_clock_rate info))|].
    rewrite logged_app; simpl. rewrite app_nil_r.
    destruct (get_int_cases info) as (Hint & Hnone).
    unfold audio_clock_rate, after_rate_lookup. split.
    + intros r Hf Hr. rewrite (Hint r Hf).
      apply Z.eqb_neq in Hr. rewrite Hr. split; reflexivity.
    + intros Hf.
      rewrite (Hnone Hf); simpl. rewrite logged_app. split; reflexivity.
  - intros kind info rest Hkind -> Hfit.
    eexists.
    split; [exact (receive_audio_overflow w buf info rest kind data
                     Hkind Hdata Hfault Hfit)|].
    split.
    + unfold after_rate_lookup.
      destruct (snd (get_int "rate" info) =? 0); exact Hba.
    + unfold after_rate_lookup.
      destruct (snd (get_int "rate" info) =? 0); simpl;
        rewrite !logged_app; simpl; rewrite ?app_nil_r; intros Heq;
        apply (f_equal (@List.length string)) in Heq;
        rewrite length_app in Heq; simpl in Heq; lia.
Qed.

(** [set_data] only ever drops items and adds the new one. *)
Lemma set_data_keeps {A : Type} (P : A -> Prop) (x : A)
  (b : PipelineBridge.t A) :
  P x -> Forall P (PipelineBridge.pending b) ->
  Forall P (PipelineBridge.pending (snd (PipelineBridge.set_data x b))).
Proof.
  intros Hx Hb. destruct b as [lk [m its]].
  unfold PipelineBridge.pending in *; simpl in *.
  unfold PipelineBridge.set_data, PipelineBridge.with_lock; simpl.
  destruct lk; simpl; [assumption|].
  unfold bind, gets, ret, PipelineBridge.on_queue, zoom; simpl.
  destruct (Queue.full (Queue.mk m its)) eqn:Hfull; simpl.
  - unfold Queue.get_nowait; simpl.
    destruct its as [|y its]; simpl; [assumption|].
    inversion Hb as [|? ? Hy Hits]; subst.
    unfold Queue.put_nowait; simpl.
    destruct (Queue.full (Queue.mk m its)); simpl; [assumption|].
    apply Forall_app; split; [assumption | constructor; auto].
  - unfold Queue.put_nowait; simpl. rewrite Hfull; simpl.
    apply Forall_app; split; [assumption | constructor; auto].
Qed.

Lemma feed_video_keeps (p : Packet) (w : world) :
  let w' := snd (feed video_pipeline_bridge set_video_pipeline_bridge p w) in
  (synced p -> video_synced w -> video_synced w') /\
  audio_pending w' = audio_pending w.
Proof.
  unfold feed, video_synced, video_pending, audio_pending.
  destruct (video_pipeline_bridge (self w)) as [b|] eqn:Hb; simpl.
  - pose proof (set_data_keeps synced p b) as Hk.
    destruct (PipelineBridge.set_data p b) as [r b']; simpl in *.
    split; [auto | reflexivity].
  - rewrite Hb. split; [auto | reflexivity].
Qed.

Lemma feed_audio_keeps (p : Packet) (w : world) :
  let w' := snd (feed audio_pipeline_bridge set_audio_pipeline_bridge p w) in
  (dts p = None -> audio_undated w -> audio_undated w') /\
  video_pending w' = video_pending w.
Proof.
  unfold feed, audio_undated, video_pending, audio_pending.
  destruct (audio_pipeline_bridge (self w)) as [b|] eqn:Hb; simpl.
  - pose proof (set_data_keeps (fun p => dts p = None) p b) as Hk.
    destruct (PipelineBridge.set_data p b) as [r b']; simpl in *.
    split; [auto | reflexivity].
  - rewrite Hb. split; [auto | reflexivity].
Qed.

Lemma process_video_keeps (buf : GstBuffer) (data : list ascii) (w : world) :
  let w' := snd (process_video buf data w) in
  (video_synced w -> video_synced w') /\
  audio_pending w' = audio_pending w /\
  trace w' = trace w.
Proof.
  unfold process_video, av_Packet.
  destruct (av_fault data) as [e|]; [simpl; auto|].
  unfold Fraction_new, RTP_VIDEO_CLOCK_RATE; simpl. unfold bind, ret.
  match goal with
  | |- context [feed _ _ ?p w] =>
      pose proof (feed_video_keeps p w) as Hk;
      assert (Hp : synced p)
        by (unfold synced; destruct (defined_pts buf); reflexivity);
      assert (Ht : trace (snd (feed video_pipeline_bridge
                                 set_video_pipeline_bridge p w)) = trace w)
        by (unfold feed; destruct (video_pipeline_bridge (self w));
            [destruct (PipelineBridge.set_data p t)|]; reflexivity);
      destruct (feed video_pipeline_bridge set_video_pipeline_bridge p w)
        as [[[]|e|] w1]
  end; simpl in *; destruct Hk as (Hv & Ha); auto.
Qed.

Lemma process_audio_keeps (buf : GstBuffer) (caps : GstCaps)
  (data : list ascii) (w : world) :
  let w' := snd (process_audio buf caps data w) in
  (audio_undated w -> audio_undated w') /\
  video_pending w' = video_pending w.
Proof.
  destruct (process_audio_cases buf caps data w)
    as [(e & ->) | [(info & e & _ & ->) | (info & _ & ->)]]; simpl.
  - auto.
  - unfold audio_undated, audio_pending, video_pending.
    rewrite after_rate_lookup_self. auto.
  - pose proof (feed_audio_keeps
                  (audio_packet buf (audio_clock_rate info) data)
                  (after_rate_lookup info w)) as (Hk1 & Hk2).
    unfold audio_undated, audio_pending, video_pending in *.
    rewrite after_rate_lookup_self in *. split; [|exact Hk2].
    intros Hw. apply Hk1; [reflexivity | exact Hw].
Qed.

(** C6, as the code has it.  Ingestion keeps every packet waiting for the
    video track with [dts == pts], and keeps every packet waiting for the
    audio track without a [dts]: the audio branch sets [pts] only.  With
    the bridges at rest, the packet delivered is the one the branch built:
    a video packet with [dts == pts], an audio packet with no [dts]; an
    audio sample whose ticks do not fit the timestamp field delivers no
    packet. *)
Theorem video_dts_follows_pts (w : world) (sample : option GstSample)
  (kind : string) :
  (video_synced w -> video_synced (snd (receive_data sample kind w))) /\
  (audio_undated w -> audio_undated (snd (receive_data sample kind w))) /\
  (forall buf caps data bv,
     sample = Some {| get_buffer := Some buf; get_caps := Some caps |} ->
     kind = "video" ->
     buf_data buf = Some data -> av_fault data = None ->
     video_pipeline_bridge (self w) = Some bv -> PipelineBridge.inv bv ->
     exists p,
       video_pending (snd (receive_data sample kind w)) = [p] /\
       p = video_packet buf data /\ dts p = pts p) /\
  (forall buf info rest data ba,
     sample =
       Some {| get_buffer := Some buf; get_caps := Some (info :: rest) |} ->
     kind <> "video" ->
     buf_data buf = Some data -> av_fault data = None ->
     audio_pipeline_bridge (self w) = Some ba -> PipelineBridge.inv ba ->
     (ticks_fit buf (audio_clock_rate info) = true ->
      exists p,
        audio_pending (snd (receive_data sample kind w)) = [p] /\
        p = audio_packet buf (audio_clock_rate info) data /\
        dts p = None) /\
     (ticks_fit buf (audio_clock_rate info) = false ->
      audio_pending (snd (receive_data sample kind w)) = audio_pending w)).
Proof.
  split; [|split; [|split]].
  - intros Hv. unfold receive_data.
    destruct sample as [[[buf|] [caps|]]|]; simpl; try assumption.
    unfold buf_map. destruct (buf_data buf) as [data|]; simpl; [|assumption].
    destruct (kind =? "video")%string.
    + pose proof (process_video_keeps buf data w) as (Hk & _).
      unfold bind at 1. unfold try_except.
      destruct (process_video buf data w) as [[[]|e|] w1]; simpl in *; auto.
    + pose proof (process_audio_keeps buf caps data w) as (_ & Hk).
      unfold bind at 1. unfold try_except.
      unfold video_synced in *.
      destruct (process_audio buf caps data w) as [[[]|e|] w1]; simpl in *;
        unfold video_pending in *; simpl; rewrite Hk; assumption.
  - intros Ha. unfold receive_data.
    destruct sample as [[[buf|] [caps|]]|]; simpl; try assumption.
    unfold buf_map. destruct (buf_data buf) as [data|]; simpl; [|assumption].
    destruct (kind =? "video")%string.
    + pose proof (process_video_keeps buf data w) as (_ & Hk & _).
      unfold bind at 1. unfold try_except.
      unfold audio_undated in *.
      destruct (process_video buf data w) as [[[]|e|] w1]; simpl in *;
        unfold audio_pending in *; simpl; rewrite Hk; assumption.
    + pose proof (process_audio_keeps buf caps data w) as (Hk & _).
      unfold bind at 1. unfold try_except.
      destruct (process_audio buf caps data w) as [[[]|e|] w1]; simpl in *;
        auto.
  - intros buf caps data bv -> -> Hdata Hfault Hbv Hiv.
    pose proof (receive_video_at_rest w buf caps data bv
                  Hdata Hfault Hbv Hiv) as Hrun.
    eexists; split; [rewrite Hrun; reflexivity|]. split; reflexivity.
  - intros buf info rest data ba -> Hkind Hdata Hfault Hba Hia. split.
    + intros Hfit.
      pose proof (receive_audio_at_rest w buf info rest kind data ba
                    Hkind Hdata Hfault Hfit Hba Hia) as Hrun.
      eexists; split; [rewrite Hrun; reflexivity|]. split; reflexivity.
    + intros Hfit.
      pose proof (receive_audio_overflow w buf info rest kind data
                    Hkind Hdata Hfault Hfit) as Hrun.
      rewrite Hrun. unfold audio_pending; simpl.
      rewrite after_rate_lookup_self. reflexivity.
Qed.

Lemma feed_returns (bridge : RTCApp -> option (PipelineBridge.t Packet))
  (store : option (PipelineBridge.t Packet) -> RTCApp -> RTCApp)
  (p : Packet) (w : world) :
  at_rest (bridge (self w)) -> exists w', feed bridge store p w = (Ok tt, w').
Proof.
  unfold at_rest, feed. destruct (bridge (self w)) as [b|]; intros Hb.
  - rewrite (set_data_keeps_newest p b Hb). eauto.
  - eauto.
Qed.

Lemma process_video_settles (buf : GstBuffer) (data : list ascii) (w : world) :
  at_rest (video_pipeline_bridge (self w)) ->
  fst (process_video buf data w) <> Pending.
Proof.
  intros Hv. unfold process_video, av_Packet.
  destruct (av_fault data) as [e|]; [simpl; discriminate|].
  unfold Fraction_new, RTP_VIDEO_CLOCK_RATE; simpl. unfold bind, ret.
  match goal with
  | |- context [feed ?g ?s ?p w] =>
      destruct (feed_returns g s p w Hv) as (w' & ->)
  end. simpl; discriminate.
Qed.

Lemma process_audio_settles (buf : GstBuffer) (caps : GstCaps)
  (data : list ascii) (w : world) :
  at_rest (audio_pipeline_bridge (self w)) ->
  fst (process_audio buf caps data w) <> Pending.
Proof.
  intros Ha.
  destruct (process_audio_cases buf caps data w)
    as [(e & ->) | [(info & e & _ & ->) | (info & _ & ->)]];
    [simpl; discriminate | simpl; discriminate |].
  rewrite <- (after_rate_lookup_self info w) in Ha.
  destruct (feed_returns audio_pipeline_bridge set_audio_pipeline_bridge
              (audio_packet buf (audio_clock_rate info) data)
              (after_rate_lookup info w) Ha) as (w' & ->).
  simpl; discriminate.
Qed.

(** C9, as the code has it.  [receive_data] never raises, and with the
    bridges at rest it returns.  Without a sample it logs a warning;
    without a buffer or caps it logs a warning and returns [FlowReturn.OK].
    When the buffer cannot be mapped it returns [FlowReturn.ERROR] and
    nothing else happens: no log line.  When the conversion raises, the
    exception is caught, an error line with its text is logged, the buffer
    is unmapped and the call returns. *)
Theorem receive_data_never_raises (w : world) (sample : option GstSample)
  (kind : string) :
  raised (fst (receive_data sample kind w)) = false /\
  (at_rest (video_pipeline_bridge (self w)) ->
   at_rest (audio_pipeline_bridge (self w)) ->
   exists r w', receive_data sample kind w = (Ok r, w')) /\
  (sample = None ->
   receive_data sample kind w =
     (Ok None, extend [Log WARNING "sample received is empty"] w)) /\
  (forall s, sample = Some s ->
     get_buffer s = None \/ get_caps s = None ->
     receive_data sample kind w =
       (Ok (Some FlowOK),
        extend [Log WARNING "receive_data: buffer or caps is None"] w)) /\
  (forall buf caps,
     sample = Some {| get_buffer := Some buf; get_caps := Some caps |} ->
     buf_data buf = None ->
     receive_data sample kind w = (Ok (Some FlowERROR), w)) /\
  (forall buf caps data e w1,
     sample = Some {| get_buffer := Some buf; get_caps := Some caps |} ->
     buf_data buf = Some data ->
     (kind = "video" /\ process_video buf data w = (Raise e, w1) \/
      kind <> "video" /\ process_audio buf caps data w = (Raise e, w1)) ->
     exists line,
       receive_data sample kind w =
         (Ok None, extend [Log ERROR line; BufferUnmap buf] w1) /\
       (line = "error processing video sample: " ++ exn_str e \/
        line = "error processing audio sample: " ++ exn_str e)) /\
  (forall buf caps data e,
     sample = Some {| get_buffer := Some buf; get_caps := Some caps |} ->
     buf_data buf = Some data -> av_fault data = Some e ->
     exists line,
       receive_data sample kind w =
         (Ok None, extend [Log ERROR line; BufferUnmap buf] w) /\
       video_pending (extend [Log ERROR line; BufferUnmap buf] w)
         = video_pending w /\
       audio_pending (extend [Log ERROR line; BufferUnmap buf] w)
         = audio_pending w).
Proof.
  assert (Hcaught : forall buf caps data e w1,
     sample = Some {| get_buffer := Some buf; get_caps := Some caps |} ->
     buf_data buf = Some data ->
     (kind = "video" /\ process_video buf data w = (Raise e, w1) \/
      kind <> "video" /\ process_audio buf caps data w = (Raise e, w1)) ->
     exists line,
       receive_data sample kind w =
         (Ok None, extend [Log ERROR line; BufferUnmap buf] w1) /\
       (line = "error processing video sample: " ++ exn_str e \/
        line = "error processing audio sample: " ++ exn_str e)).
  { intros buf caps data e w1 -> Hdata Hraise.
    unfold receive_data; simpl. unfold buf_map. rewrite Hdata; simpl.
    destruct Hraise as [(-> & Hp) | (Hk & Hp)].
    - simpl. unfold bind at 1. unfold try_except. rewrite Hp.
      st_unfold. cbv beta iota. rewrite extend_extend.
      eexists; split; [reflexivity | left; reflexivity].
    - apply String.eqb_neq in Hk. rewrite Hk.
      unfold bind at 1. unfold try_except. rewrite Hp.
      st_unfold. cbv beta iota. rewrite extend_extend.
      eexists; split; [reflexivity | right; reflexivity]. }
  split; [|split; [|split; [|split; [|split; [|split]]]]].
  - unfold receive_data.
    destruct sample as [[[buf|] [caps|]]|]; simpl; try reflexivity.
    unfold buf_map. destruct (buf_data buf) as [data|]; simpl; [|reflexivity].
    destruct (kind =? "video")%string; unfold bind at 1; unfold try_except.
    + destruct (process_video buf data w) as [[[]|e|] w1]; reflexivity.
    + destruct (process_audio buf caps data w) as [[[]|e|] w1]; reflexivity.
  - intros Hv Ha. unfold receive_data.
    destruct sample as [[[buf|] [caps|]]|]; simpl;
      try (do 2 eexists; reflexivity).
    unfold buf_map. destruct (buf_data buf) as [data|]; simpl;
      try (do 2 eexists; reflexivity).
    destruct (kind =? "video")%string; unfold bind at 1; unfold try_except.
    + pose proof (process_video_settles buf data w Hv) as Hs.
      destruct (process_video buf data w) as [[[]|e|] w1]; simpl in *;
        [do 2 eexists; reflexivity | do 2 eexists; reflexivity | congruence].
    + pose proof (process_audio_settles buf caps data w Ha) as Hs.
      destruct (process_audio buf caps data w) as [[[]|e|] w1]; simpl in *;
        [do 2 eexists; reflexivity | do 2 eexists; reflexivity | congruence].
  - intros ->; reflexivity.
  - intros s -> [Hb|Hc]; unfold receive_data.
    + rewrite Hb. reflexivity.
    + rewrite Hc. destruct (get_buffer s); reflexivity.
  - intros buf caps -> Hdata. unfold receive_data; simpl.
    unfold buf_map. rewrite Hdata. reflexivity.
  - exact Hcaught.
  - intros buf caps data e Hs Hdata Hfault.
    assert (Hv : process_video buf data w = (Raise e, w))
      by (unfold process_video, av_Packet; rewrite Hfault; reflexivity).
    assert (Ha : process_audio buf caps data w = (Raise e, w))
      by (unfold process_audio, av_Packet; rewrite Hfault; reflexivity).
    destruct (String.eqb_spec kind "video") as [Hk|Hk].
    + destruct (Hcaught buf caps data e w Hs Hdata (or_introl (conj Hk Hv)))
        as (line & Hr & _).
      exists line; split; [exact Hr|]. split; reflexivity.
    + destruct (Hcaught buf caps data e w Hs Hdata (or_intror (conj Hk Ha)))
        as (line & Hr & _).
      exists line; split; [exact Hr|]. split; reflexivity.
Qed.

(* ===================================================================== *)
(** * More on the bridge and the tracks                                    *)
(* ===================================================================== *)

Lemma bridge_at_rest_is_slot {A : Type} (b : PipelineBridge.t A) :
  PipelineBridge.inv b -> b = bridge_of (slot_of b).
Proof.
  destruct b as [lk [m its]].
  unfold PipelineBridge.inv, PipelineBridge.pending, slot_of, bridge_of.
  simpl. intros (-> & -> & Hlen).
  destruct its as [|x [|y its]]; simpl in *; try lia; reflexivity.
Qed.

(** One step of a schedule on a bridge at rest is the step of the slot;
    it does not raise, and it keeps the bridge at rest and the consumers
    alert. *)
Lemma run_call_on_slot {A : Type} (c : bridge_call A) (s s1 : served A)
  (r : outcome (option A)) :
  PipelineBridge.inv (bridge s) -> alert s ->
  run_call c s = Some (r, s1) ->
  r = fst (slot_call c (slot_of (bridge s))) /\
  bridge s1 = bridge_of (snd (slot_call c (slot_of (bridge s)))) /\
  raised r = false /\ alert s1.
Proof.
  intros Hb Hal. pose proof (bridge_at_rest_is_slot (bridge s) Hb) as Eb.
  destruct s as [b g wk]; simpl in *.
  destruct (slot_of b) as [y|]; subst b; unfold alert in *; simpl in *.
  - destruct c as [x|c|c]; simpl.
    + destruct g as [|c0 g]; intros [= <- <-]; simpl;
        repeat split; try reflexivity; intros _ Hg; try congruence.
      destruct wk; discriminate.
    + destruct (among c g || among c wk); [discriminate|].
      intros [= <- <-]; simpl. repeat split; try reflexivity.
      intros Hp; contradiction.
    + destruct (among c wk); [|discriminate].
      intros [= <- <-]; simpl. repeat split; try reflexivity.
      intros Hp; contradiction.
  - destruct c as [x|c|c]; simpl.
    + destruct g as [|c0 g]; intros [= <- <-]; simpl;
        repeat split; try reflexivity; intros _ Hg; try congruence.
      destruct wk; discriminate.
    + destruct (among c g || among c wk); [discriminate|].
      intros [= <- <-]; simpl. repeat split; try reflexivity.
      intros Hp; contradiction.
    + destruct (among c wk); [|discriminate].
      intros [= <- <-]; simpl. repeat split; try reflexivity.
      intros Hp; contradiction.
Qed.

Lemma bridge_of_inv {A : Type} (slot : option A) :
  PipelineBridge.inv (bridge_of slot).
Proof. destruct slot; repeat split; simpl; lia. Qed.

Lemma slot_of_bridge_of {A : Type} (slot : option A) :
  slot_of (bridge_of slot) = slot.
Proof. destruct slot; reflexivity. Qed.

(** X1.  Under any schedule of [set_data] calls, [get_data] calls and
    resumptions of woken consumers, a bridge that starts at rest behaves
    as a slot holding the newest item not yet taken: a [set_data]
    overwrites and wakes the consumer first in line; a consumer, on its
    call or when resumed, takes the item or stays suspended on an empty
    slot.  No step raises [QueueFull] or [QueueEmpty], the bridge ends at
    rest, and no wake-up is lost. *)
Theorem bridge_refines_slot {A : Type} (cs : list (bridge_call A))
  (s s' : served A) (rs : list (outcome (option A))) :
  PipelineBridge.inv (bridge s) -> alert s ->
  run_script cs s = Some (rs, s') ->
  rs = fst (slot_script cs (slot_of (bridge s))) /\
  bridge s' = bridge_of (snd (slot_script cs (slot_of (bridge s)))) /\
  Forall (fun r => raised r = false) rs /\
  PipelineBridge.inv (bridge s') /\ alert s'.
Proof.
  revert s rs; induction cs as [|c cs IH]; intros s rs Hb Hal; simpl.
  - intros [= <- <-]. split; [reflexivity|].
    split; [apply bridge_at_rest_is_slot; exact Hb|].
    split; [constructor|]. split; assumption.
  - destruct (run_call c s) as [[r s1]|] eqn:Hc; [|discriminate].
    destruct (run_call_on_slot c s s1 r Hb Hal Hc) as (Hr & Hb1 & Hnr & Hal1).
    destruct (run_script cs s1) as [[rs1 s2]|] eqn:Hcs; [|discriminate].
    intros [= <- <-].
    assert (Hi1 : PipelineBridge.inv (bridge s1))
      by (rewrite Hb1; apply bridge_of_inv).
    destruct (IH s1 rs1 Hi1 Hal1 Hcs) as (Hrs & Hb2 & Hnrs & Hi2 & Hal2).
    rewrite Hb1, slot_of_bridge_of in Hrs, Hb2.
    destruct (slot_call c (slot_of (bridge s))) as [r0 slot1]; simpl in *.
    destruct (slot_script cs slot1) as [rs0 slot2]; simpl in *.
    subst. split; [reflexivity|]. split; [assumption|].
    split; [constructor; assumption|]. split; assumption.
Qed.

(* ===================================================================== *)
(** * ICE configuration                                                    *)
(* ===================================================================== *)

Lemma split_on_cons (sep : ascii) (s : string) :
  exists piece pieces, split_on sep s = piece :: pieces.
Proof.
  induction s as [|c s (p & ps & IH)]; simpl; [eauto|].
  destruct (Ascii.eqb c sep); [eauto|]. rewrite IH; eauto.
Qed.

Lemma split_on_clean (sep : ascii) (s : string) :
  occurs sep s = false -> split_on sep s = [s].
Proof.
  induction s as [|c s IH]; simpl; [reflexivity|].
  destruct (Ascii.eqb c sep); simpl; [discriminate|].
  intros H. rewrite (IH H). reflexivity.
Qed.

(** A separator-free prefix stays with the first piece. *)
Lemma split_on_prefix (sep : ascii) (a s : string) :
  occurs sep a = false ->
  split_on sep (a ++ s) =
    match split_on sep s with
    | piece :: pieces => (a ++ piece) :: pieces
    | [] => [a]
    end.
Proof.
  induction a as [|c a IH]; simpl.
  - intros _. destruct (split_on_cons sep s) as (p & ps & ->). reflexivity.
  - destruct (Ascii.eqb c sep); simpl; [discriminate|].
    intros H. rewrite (IH H).
    destruct (split_on_cons sep s) as (p & ps & ->). reflexivity.
Qed.

Lemma split_once_clean (sep : ascii) (s : string) :
  occurs sep s = false -> split_once sep s = [s].
Proof.
  induction s as [|c s IH]; simpl; [reflexivity|].
  destruct (Ascii.eqb c sep); simpl; [discriminate|].
  intros H. rewrite (IH H). reflexivity.
Qed.

Lemma split_once_prefix (sep : ascii) (a s : string) :
  occurs sep a = false ->
  split_once sep (a ++ String sep s) = [a; s].
Proof.
  induction a as [|c a IH]; simpl.
  - intros _. rewrite Ascii.eqb_refl. reflexivity.
  - destruct (Ascii.eqb c sep); simpl; [discriminate|].
    intros H. rewrite (IH H). reflexivity.
Qed.

Lemma split_once_head (sep : ascii) (s : string) :
  exists scheme rest, split_once sep s = scheme :: rest.
Proof.
  induction s as [|c s (p & ps & IH)]; simpl; [eauto|].
  destruct (Ascii.eqb c sep); [eauto|]. rewrite IH; eauto.
Qed.

(** Without a separator there is one piece, with one there are more. *)
Lemma split_on_second (sep : ascii) (s : string) :
  nth_error (split_on sep s) 1 = None <-> occurs sep s = false.
Proof.
  split.
  - induction s as [|c s IH]; simpl; [reflexivity|].
    destruct (Ascii.eqb c sep); simpl.
    + destruct (split_on_cons sep s) as (p & ps & ->). discriminate.
    + destruct (split_on_cons sep s) as (p & ps & E). rewrite E in *.
      simpl. exact IH.
  - intros H. rewrite (split_on_clean sep s H). reflexivity.
Qed.


Lemma occurs_app (sep : ascii) (a b : string) :
  occurs sep (a ++ b) = occurs sep a || occurs sep b.
Proof.
  induction a as [|c a IH]; simpl; [reflexivity|].
  rewrite IH. apply orb_assoc.
Qed.

Lemma append_empty (s : string) : s ++ EmptyString = s.
Proof. induction s as [|c s IH]; simpl; congruence. Qed.

(** X2.  [get_rtc_config] fails exactly when there is no TURN list
    ([TypeError]), or when the list is empty or its first entry has no
    ["@"] ([IndexError]).  When it returns, the configuration has exactly
    two ICE servers: the STUN servers first, without credentials, then one
    TURN address with the configured user name and password. *)
Theorem get_rtc_config_outcomes (cfg : RTCSettings) :
  (get_rtc_config cfg = inl NotSubscriptable <-> turn_servers cfg = None) /\
  (get_rtc_config cfg = inl IndexOutOfRange <->
   turn_servers cfg = Some [] \/
   exists first others,
     turn_servers cfg = Some (first :: others) /\
     occurs at_sign first = false) /\
  (forall config, get_rtc_config cfg = inr config ->
     exists url,
       iceServers config = [stun_entry cfg; turn_entry_of cfg url]).
Proof.
  unfold get_rtc_config, item.
  destruct (turn_servers cfg) as [[|first others]|].
  - cbn [nth_error].
    split; [split; discriminate|]. split; [|discriminate].
    split; [auto | reflexivity].
  - destruct (split_once_head colon first) as (scheme & rest & Es).
    change (nth_error (first :: others) 0) with (Some first).
    cbv beta iota.
    destruct (nth_error (split_on at_sign first) 1) as [seg|] eqn:E;
      cbv beta iota; rewrite ?Es;
      change (nth_error (scheme :: rest) 0) with (Some scheme);
      cbv beta iota.
    + assert (Hocc : occurs at_sign first <> false).
      { intros H. apply split_on_second in H. congruence. }
      split; [split; discriminate|]. split.
      * split; [discriminate|].
        intros [H|(f & o & H & Hf)]; [discriminate|].
        injection H as <- <-. contradiction.
      * intros config [= <-]. eexists; reflexivity.
    + apply split_on_second in E.
      split; [split; discriminate|]. split; [|discriminate].
      split; [|reflexivity]. intros _. right; eauto.
  - split; [split; reflexivity|]. split; [|discriminate].
    split; [discriminate|].
    intros [H|(? & ? & H & _)]; discriminate.
Qed.

(** X3.  For a first TURN entry of the form [scheme:userinfo@hostport],
    where the scheme has no [":"] and no part has an ["@"], the TURN
    address of the configuration is [scheme://hostport]: the credentials
    are cut out of the address.  The entries after the first play no
    part. *)
Theorem turn_url_of_entry (cfg : RTCSettings)
  (scheme userinfo hostport : string) (others : list string) :
  turn_servers cfg =
    Some ((scheme ++ ":" ++ userinfo ++ "@" ++ hostport) :: others) ->
  occurs colon scheme = false ->
  occurs at_sign scheme = false ->
  occurs at_sign userinfo = false ->
  occurs at_sign hostport = false ->
  get_rtc_config cfg =
    inr {| iceServers :=
             [stun_entry cfg;
              turn_entry_of cfg (scheme ++ "://" ++ hostport)] |}.
Proof.
  intros Hts Hc Hs Hu Hh. unfold get_rtc_config, item. rewrite Hts; simpl.
  change (scheme ++ String ":" (userinfo ++ String "@" hostport))
    with (scheme ++ String colon (userinfo ++ String at_sign hostport)).
  rewrite (split_once_prefix colon scheme _ Hc); simpl.
  rewrite (split_on_prefix at_sign scheme _ Hs). simpl.
  rewrite (split_on_prefix at_sign userinfo _ Hu). simpl.
  rewrite (split_on_clean at_sign hostport Hh). reflexivity.
Qed.

(** X4.  Two entries that [get_rtc_config] does not read as intended.
    When the user information has an ["@"] itself, the address is built
    from the text between the first two ["@"], and the host is lost.  When
    the entry has no [":"], the whole entry stands for the scheme. *)
Theorem turn_url_edges (cfg : RTCSettings) (others : list string) :
  (forall scheme user middle hostport,
     turn_servers cfg =
       Some ((scheme ++ ":" ++ user ++ "@" ++ middle ++ "@" ++ hostport)
             :: others) ->
     occurs colon scheme = false ->
     occurs at_sign scheme = false ->
     occurs at_sign user = false ->
     occurs at_sign middle = false ->
     get_rtc_config cfg =
       inr {| iceServers :=
                [stun_entry cfg;
                 turn_entry_of cfg (scheme ++ "://" ++ middle)] |}) /\
  (forall user hostport,
     turn_servers cfg = Some ((user ++ "@" ++ hostport) :: others) ->
     occurs colon user = false ->
     occurs colon hostport = false ->
     occurs at_sign user = false ->
     occurs at_sign hostport = false ->
     get_rtc_config cfg =
       inr {| iceServers :=
                [stun_entry cfg;
                 turn_entry_of cfg
                   ((user ++ "@" ++ hostport) ++ "://" ++ hostport)] |}).
Proof.
  split.
  - intros scheme user middle hostport Hts Hc Hs Hu Hm.
    unfold get_rtc_config, item. rewrite Hts; simpl.
    change (scheme ++
            String ":" (user ++ String "@" (middle ++ String "@" hostport)))
      with (scheme ++
            String colon
              (user ++ String at_sign (middle ++ String at_sign hostport))).
    rewrite (split_once_prefix colon scheme _ Hc); simpl.
    rewrite (split_on_prefix at_sign scheme _ Hs). simpl.
    rewrite (split_on_prefix at_sign user _ Hu). simpl.
    rewrite (split_on_prefix at_sign middle _ Hm). simpl.
    rewrite append_empty. reflexivity.
  - intros user hostport Hts Hcu Hch Hu Hh.
    unfold get_rtc_config, item. rewrite Hts; simpl.
    change (user ++ String "@" hostport)
      with (user ++ String at_sign hostport).
    rewrite (split_on_prefix at_sign user _ Hu). simpl.
    rewrite (split_on_clean at_sign hostport Hh). simpl.
    rewrite split_once_clean; [reflexivity|].
    rewrite occurs_app, Hcu; simpl. exact Hch.
Qed.

(* ===================================================================== *)
(** * More on the control channel                                          *)
(* ===================================================================== *)

Lemma send_trace (msg_type : string) (data : json) (w : world) :
  exists es,
    snd (send_data_channel_message msg_type data w) = extend es w /\
    Forall (control_event (self w)) es.
Proof.
  unfold send_data_channel_message, is_data_channel_ready; st_unfold.
  destruct (data_channel (self w)) as [ch|] eqn:Hd; simpl.
  - destruct (peer_connection (self w)) as [pc|]; simpl.
    + destruct (is_connected (connectionState pc)); simpl.
      * rewrite Hd. eexists; split; [reflexivity|].
        constructor; [exact Hd | constructor].
      * eexists; split; [reflexivity|]. repeat constructor.
    + exists []. unfold extend; rewrite app_nil_r.
      split; [destruct w; reflexivity | constructor].
  - eexists; split; [reflexivity|]. repeat constructor.
Qed.

Lemma logged_send_trace (lvl : level) (line msg_type : string) (data : json)
  (w : world) :
  exists es,
    snd ((logger lvl line >> send_data_channel_message msg_type data) w)
      = extend es w /\
    Forall (control_event (self w)) es.
Proof.
  unfold bind, logger, emit, modify.
  destruct (send_trace msg_type data (extend [Log lvl line] w))
    as (es & Hes & Hall).
  destruct (send_data_channel_message msg_type data
              (extend [Log lvl line] w)) as [[[]|e|] w1]; simpl in *;
    subst w1; rewrite extend_extend;
    (eexists; split; [reflexivity|]); constructor; simpl; auto.
Qed.

(** X5.  An outgoing message method changes no field of the session but
    the cursor record, which only [send_cursor_data] sets; and all it does
    besides is log and write to the primary data channel: it never writes
    to the auxiliary channel, closes a connection or unmaps a buffer. *)
Theorem outgoing_frame (m : outgoing) (w : world) :
  self (snd (call m w)) =
    match m with
    | Cursor data => set_last_cursor_sent (Some data) (self w)
    | _ => self w
    end /\
  exists es,
    trace (snd (call m w)) = (trace w ++ es)%list /\
    Forall (control_event (self w)) es.
Proof.
  assert (Hlog : forall lvl line ty data,
    self (snd ((logger lvl line >> send_data_channel_message ty data) w))
      = self w /\
    exists es,
      trace (snd ((logger lvl line >>
                   send_data_channel_message ty data) w))
        = (trace w ++ es)%list /\
      Forall (control_event (self w)) es).
  { intros. destruct (logged_send_trace lvl line ty data w) as (es & -> & H).
    split; [reflexivity | exists es; split; [reflexivity | exact H]]. }
  assert (Hsend : forall ty data,
    self (snd (send_data_channel_message ty data w)) = self w /\
    exists es,
      trace (snd (send_data_channel_message ty data w))
        = (trace w ++ es)%list /\
      Forall (control_event (self w)) es).
  { intros. destruct (send_trace ty data w) as (es & -> & H).
    split; [reflexivity | exists es; split; [reflexivity | exact H]]. }
  destruct m; simpl;
    unfold send_gpu_stats, send_reload_window, send_framerate,
      send_video_bitrate, send_audio_bitrate, send_encoder,
      send_resize_enabled, send_remote_resolution, send_ping,
      send_latency_time, send_system_stats;
    try apply Hlog; try apply Hsend.
  - unfold send_clipboard_data.
    destruct (len (b64_text data) <=? CLIPBOARD_RESTRICTION);
      [apply Hsend|].
    split; [reflexivity|]. eexists; split; [reflexivity|].
    repeat constructor.
  - unfold send_cursor_data, bind, assign, modify.
    destruct (send_trace "cursor" data
                {| self := set_last_cursor_sent (Some data) (self w);
                   trace := trace w |}) as (es & Hes & Hall).
    destruct (send_data_channel_message "cursor" data _) as [[[]|e|] w1];
      simpl in *; subst w1; simpl;
      (split; [reflexivity|]); exists es; split; auto.
Qed.

Lemma call_self (m : outgoing) (w : world) :
  self (snd (call m w)) =
    match m with
    | Cursor data => set_last_cursor_sent (Some data) (self w)
    | _ => self w
    end.
Proof.
  assert (Hlog : forall lvl line ty data,
            self (snd ((logger lvl line >>
                        send_data_channel_message ty data) w)) = self w).
  { intros. unfold bind, logger, emit, modify.
    rewrite send_keeps_self. reflexivity. }
  destruct m; simpl;
    unfold send_gpu_stats, send_reload_window, send_framerate,
      send_video_bitrate, send_audio_bitrate, send_encoder,
      send_resize_enabled, send_remote_resolution, send_ping,
      send_latency_time, send_system_stats;
    rewrite ?Hlog, ?send_keeps_self; try reflexivity.
  - unfold send_clipboard_data.
    destruct (len (b64_text data) <=? CLIPBOARD_RESTRICTION);
      [rewrite send_keeps_self|]; reflexivity.
  - unfold send_cursor_data, bind, assign, modify.
    rewrite send_keeps_self. reflexivity.
Qed.

Lemma ready_after_call (m : outgoing) (w : world) :
  ready w -> ready (snd (call m w)).
Proof.
  intros (ch & pc & Hd & Hp & Hs).
  exists ch, pc. rewrite call_self.
  destruct m; simpl; auto.
Qed.

(** X6.  Outgoing messages within the limit, sent one after the other on
    a ready channel, all go out, as one envelope each and in the order of
    the calls; the channel stays ready. *)
Theorem outgoing_in_call_order (ms : list outgoing) (w : world) :
  ready w -> Forall within_limit ms ->
  exists w',
    send_all ms w = (Ok tt, w') /\
    sent (trace w') =
      (sent (trace w)
       ++ map (fun m =>
                 json_dumps (envelope (catalog_tag m) (catalog_payload m)))
            ms)%list /\
    ready w'.
Proof.
  revert w; induction ms as [|m ms IH]; intros w Hr Hall; simpl.
  - exists w. rewrite app_nil_r. auto.
  - inversion Hall as [|? ? Hm Hms]; subst.
    pose proof (ready_after_call m w Hr) as Hr1.
    destruct (call_sends m w Hm) as (w0 & Hcall & Hd & Hp & Hs & _).
    assert (Hr0 : ready w0).
    { destruct Hr as (ch & pc & ? & ? & ?). exists ch, pc.
      repeat split; congruence. }
    destruct (send_when_ready w0 (catalog_tag m) (catalog_payload m) Hr0)
      as (ch & _ & Hsend).
    unfold bind. rewrite Hcall, Hsend in *. simpl in Hr1.
    destruct (IH _ Hr1 Hms) as (w' & Hrun & Hsent & Hr').
    exists w'. split; [exact Hrun|]. split; [|exact Hr'].
    rewrite Hsent, sent_extend, Hs. simpl. rewrite <- app_assoc.
    reflexivity.
Qed.

(** The limit of the encoded text is a limit of 49050 bytes of data. *)
Lemma clipboard_limit_in_bytes (data : string) :
  len (b64_text data) <= 65400 <-> len data <= 49050.
Proof.
  rewrite b64_text_len.
  pose proof (Z.div_mod (len data + 2) 3 ltac:(lia)) as Hdm.
  pose proof (Z.mod_pos_bound (len data + 2) 3 ltac:(lia)) as Hb.
  lia.
Qed.

(** X7.  With the channel ready, clipboard data goes out exactly when its
    UTF-8 encoding has at most 49050 bytes; otherwise the call only warns.
    Empty data is sent like any other. *)
Theorem clipboard_byte_limit (w : world) (data : string) :
  ready w ->
  (len data <= 49050 ->
   exists w',
     send_clipboard_data data w = (Ok tt, w') /\
     sent (trace w') =
       (sent (trace w)
        ++ [json_dumps
              (envelope "clipboard"
                 (JObj [("content", JStr (b64_text data))]))])%list) /\
  (49050 < len data ->
   exists w',
     send_clipboard_data data w = (Ok tt, w') /\
     sent (trace w') = sent (trace w) /\
     logged WARNING (trace w') <> logged WARNING (trace w)).
Proof.
  intros Hr. unfold send_clipboard_data, CLIPBOARD_RESTRICTION. split.
  - intros Hlen. apply clipboard_limit_in_bytes in Hlen.
    apply Z.leb_le in Hlen. rewrite Hlen.
    destruct (send_when_ready w "clipboard"
                (JObj [("content", JStr (b64_text data))]) Hr)
      as (ch & _ & ->).
    eexists; split; [reflexivity|]. apply sent_extend.
  - intros Hlen.
    assert (E : (len (b64_text data) <=? 65400) = false).
    { apply Z.leb_gt. pose proof (clipboard_limit_in_bytes data). lia. }
    rewrite E. eexists; split; [reflexivity|]. simpl.
    rewrite sent_app, logged_app; simpl. rewrite app_nil_r.
    split; [reflexivity|].
    intros H. apply (f_equal (@List.length string)) in H.
    rewrite length_app in H. simpl in H. lia.
Qed.

(* ===================================================================== *)
(** * More on sample ingestion                                             *)
(* ===================================================================== *)

Lemma closed_connections_app (t1 t2 : list event) :
  closed_connections (t1 ++ t2) =
    (closed_connections t1 ++ closed_connections t2)%list.
Proof.
  induction t1 as [|[] t1 IH]; simpl; rewrite ?IH; reflexivity.
Qed.

Lemma unmaps_app (t1 t2 : list event) :
  unmaps (t1 ++ t2) = (unmaps t1 + unmaps t2)%nat.
Proof.
  induction t1 as [|[] t1 IH]; simpl; rewrite ?IH; reflexivity.
Qed.

Lemma logs_are_silent (es : list event) :
  Forall log_event es ->
  sent es = [] /\ closed_connections es = [] /\ unmaps es = O.
Proof.
  induction 1 as [|e es He _ (IH1 & IH2 & IH3)]; simpl; [auto|].
  destruct e; simpl in He; try contradiction. auto.
Qed.

(** Feeding a bridge touches that bridge and nothing else. *)
Lemma feed_video_frame (p : Packet) (w : world) :
  let w' := snd (feed video_pipeline_bridge set_video_pipeline_bridge p w) in
  controls (self w') = controls (self w) /\
  audio_pipeline_bridge (self w') = audio_pipeline_bridge (self w) /\
  trace w' = trace w.
Proof.
  unfold feed. destruct (video_pipeline_bridge (self w)) as [b|]; simpl.
  - destruct (PipelineBridge.set_data p b); simpl. auto.
  - auto.
Qed.

Lemma feed_audio_frame (p : Packet) (w : world) :
  let w' := snd (feed audio_pipeline_bridge set_audio_pipeline_bridge p w) in
  controls (self w') = controls (self w) /\
  video_pipeline_bridge (self w') = video_pipeline_bridge (self w) /\
  trace w' = trace w.
Proof.
  unfold feed. destruct (audio_pipeline_bridge (self w)) as [b|]; simpl.
  - destruct (PipelineBridge.set_data p b); simpl. auto.
  - auto.
Qed.

Lemma process_video_frame (buf : GstBuffer) (data : list ascii) (w : world) :
  let w' := snd (process_video buf data w) in
  controls (self w') = controls (self w) /\
  audio_pipeline_bridge (self w') = audio_pipeline_bridge (self w) /\
  trace w' = trace w.
Proof.
  unfold process_video, av_Packet.
  destruct (av_fault data) as [e|]; [simpl; auto|].
  unfold Fraction_new, RTP_VIDEO_CLOCK_RATE; simpl. unfold bind, ret.
  match goal with
  | |- context [feed _ _ ?p w] =>
      pose proof (feed_video_frame p w) as Hk;
      destruct (feed video_pipeline_bridge set_video_pipeline_bridge p w)
        as [[[]|e|] w1]
  end; exact Hk.
Qed.

Lemma after_rate_lookup_trace (info : GstStructure) (w : world) :
  exists es,
    trace (after_rate_lookup info w) = (trace w ++ es)%list /\
    Forall log_event es.
Proof.
  unfold after_rate_lookup.
  destruct (snd (get_int "rate" info) =? 0).
  - eexists. split; [reflexivity|]. repeat constructor.
  - exists []. rewrite app_nil_r. split; [reflexivity | constructor].
Qed.

Lemma process_audio_frame (buf : GstBuffer) (caps : GstCaps)
  (data : list ascii) (w : world) :
  let w' := snd (process_audio buf caps data w) in
  controls (self w') = controls (self w) /\
  video_pipeline_bridge (self w') = video_pipeline_bridge (self w) /\
  exists es, trace w' = (trace w ++ es)%list /\ Forall log_event es.
Proof.
  destruct (process_audio_cases buf caps data w)
    as [(e & ->) | [(info & e & _ & ->) | (info & _ & ->)]]; simpl.
  - split; [reflexivity|]. split; [reflexivity|].
    exists []. rewrite app_nil_r. split; [reflexivity | constructor].
  - rewrite after_rate_lookup_self. split; [reflexivity|].
    split; [reflexivity|]. apply after_rate_lookup_trace.
  - pose proof (feed_audio_frame
                  (audio_packet buf (audio_clock_rate info) data)
                  (after_rate_lookup info w)) as (Hk1 & Hk2 & Hk3).
    rewrite after_rate_lookup_self in Hk1, Hk2.
    split; [exact Hk1|]. split; [exact Hk2|].
    rewrite Hk3. apply after_rate_lookup_trace.
Qed.

(** What one call of [receive_data] does, whatever the sample. *)
Lemma receive_effect (sample : option GstSample) (kind : string)
  (w w' : world) (r : outcome (option FlowReturn)) :
  receive_data sample kind w = (r, w') ->
  controls (self w') = controls (self w) /\
  (kind = "video" ->
   audio_pipeline_bridge (self w') = audio_pipeline_bridge (self w)) /\
  (kind <> "video" ->
   video_pipeline_bridge (self w') = video_pipeline_bridge (self w)) /\
  exists logs tail,
    trace w' = (trace w ++ logs ++ tail)%list /\
    Forall log_event logs /\
    Forall (fun e => exists b, e = BufferUnmap b) tail /\
    (forall v, r = Ok v ->
       List.length tail = if mapped sample then 1%nat else 0%nat).
Proof.
  assert (Hquiet : forall (logs : list event),
    Forall log_event logs ->
    exists logs0 tail,
      (trace w ++ logs)%list = (trace w ++ logs0 ++ tail)%list /\
      Forall log_event logs0 /\
      Forall (fun e => exists b, e = BufferUnmap b) tail /\
      (forall v : option FlowReturn, r = Ok v -> List.length tail = 0%nat)).
  { intros logs Hl. exists logs, []. rewrite app_nil_r.
    repeat split; auto. }
  unfold receive_data, mapped.
  destruct sample as [[[buf|] [caps|]]|]; simpl;
    try (intros [= <- <-]; simpl; repeat split; auto;
         apply Hquiet; repeat constructor).
  unfold buf_map. destruct (buf_data buf) as [data|]; simpl.
  2:{ intros [= <- <-]. repeat split; auto.
      destruct (Hquiet []) as (l & t & H1 & H2); [constructor|].
      rewrite app_nil_r in H1. exists l, t. split; assumption. }
  destruct (String.eqb_spec kind "video") as [Hk|Hk].
  - pose proof (process_video_frame buf data w) as (Hc & Ha & Ht).
    unfold bind at 1. unfold try_except.
    destruct (process_video buf data w) as [[[]|e|] w1]; simpl in *;
      st_unfold; simpl; intros [= <- <-]; simpl;
      (split; [exact Hc|]); (split; [intros _; exact Ha|]);
      (split; [intros; contradiction|]); rewrite Ht.
    + exists [], [BufferUnmap buf]. repeat split; eauto.
    + exists [Log ERROR ("error processing video sample: " ++ exn_str e)],
        [BufferUnmap buf].
      rewrite <- app_assoc. repeat split; eauto. repeat constructor.
    + exists [], []. rewrite app_nil_r.
      repeat split; auto. intros; discriminate.
  - pose proof (process_audio_frame buf caps data w)
      as (Hc & Hv & es & Ht & Hl).
    unfold bind at 1. unfold try_except.
    destruct (process_audio buf caps data w) as [[[]|e|] w1]; simpl in *;
      st_unfold; simpl; intros [= <- <-]; simpl;
      (split; [exact Hc|]); (split; [intros; contradiction|]);
      (split; [intros _; exact Hv|]); rewrite Ht.
    + exists es, [BufferUnmap buf]. rewrite <- app_assoc.
      repeat split; eauto.
    + exists (es ++
              [Log ERROR ("error processing audio sample: " ++ exn_str e)])%list,
        [BufferUnmap buf].
      rewrite <- !app_assoc. repeat split; eauto.
      apply Forall_app; split; [assumption | repeat constructor].
    + exists es, []. rewrite app_nil_r.
      repeat split; auto. intros; discriminate.
Qed.

(** X8.  [receive_data] touches nothing of the session but the bridge of
    the kind it was given: the connection, both channels and the cursor
    record stay as they were, the bridge of the other kind too, and the
    call never writes to a data channel nor closes a connection. *)
Theorem ingestion_frame (sample : option GstSample) (kind : string)
  (w : world) :
  let w' := snd (receive_data sample kind w) in
  controls (self w') = controls (self w) /\
  (kind = "video" ->
   audio_pipeline_bridge (self w') = audio_pipeline_bridge (self w)) /\
  (kind <> "video" ->
   video_pipeline_bridge (self w') = video_pipeline_bridge (self w)) /\
  sent (trace w') = sent (trace w) /\
  closed_connections (trace w') = closed_connections (trace w).
Proof.
  destruct (receive_data sample kind w) as [r w'] eqn:E; simpl.
  destruct (receive_effect sample kind w w' r E)
    as (Hc & Ha & Hv & logs & tail & Ht & Hl & Hu & _).
  repeat split; auto.
  - rewrite Ht, !sent_app.
    destruct (logs_are_silent logs Hl) as (-> & _).
    assert (Hs : sent tail = []).
    { clear Ht. induction Hu as [|e t (b & ->) _ IH]; simpl; auto. }
    rewrite Hs. simpl. apply app_nil_r.
  - rewrite Ht, !closed_connections_app.
    destruct (logs_are_silent logs Hl) as (_ & -> & _).
    assert (Hs : closed_connections tail = []).
    { clear Ht. induction Hu as [|e t (b & ->) _ IH]; simpl; auto. }
    rewrite Hs. simpl. apply app_nil_r.
Qed.

(** X9.  Whenever [receive_data] returns, it has unmapped the buffer
    exactly once if it had mapped it, also when the conversion raised, and
    not at all otherwise. *)
Theorem map_unmap_balance (sample : option GstSample) (kind : string)
  (w w' : world) (v : option FlowReturn) :
  receive_data sample kind w = (Ok v, w') ->
  unmaps (trace w') =
    (unmaps (trace w) + (if mapped sample then 1 else 0))%nat.
Proof.
  intros E.
  destruct (receive_effect sample kind w w' (Ok v) E)
    as (_ & _ & _ & logs & tail & Ht & Hl & Hu & Hn).
  rewrite Ht, !unmaps_app.
  destruct (logs_are_silent logs Hl) as (_ & _ & ->).
  assert (Hs : unmaps tail = List.length tail).
  { clear Ht Hn. induction Hu as [|e t (b & ->) _ IH]; simpl; auto. }
  rewrite Hs, (Hn v eq_refl). reflexivity.
Qed.

Lemma feed_absent (bridge : RTCApp -> option (PipelineBridge.t Packet))
  (store : option (PipelineBridge.t Packet) -> RTCApp -> RTCApp)
  (p : Packet) (w : world) :
  bridge (self w) = None -> feed bridge store p w = (Ok tt, w).
Proof. intros H. unfold feed. rewrite H. reflexivity. Qed.

(** X10.  On a session that holds no bridge for the kind of a sample, so
    before [start_rtc_pipeline] and after [stop_pipeline], the sample is
    converted and then dropped: the call returns, unmaps the buffer and
    changes no field.  An audio sample whose ticks do not fit the
    timestamp field fails in the conversion, which adds the error line to
    the log. *)
Theorem ingestion_without_bridge (w : world) (buf : GstBuffer)
  (data : list ascii) :
  buf_data buf = Some data -> av_fault data = None ->
  (forall caps,
     video_pipeline_bridge (self w) = None ->
     receive_data (Some {| get_buffer := Some buf; get_caps := Some caps |})
       "video" w = (Ok None, extend [BufferUnmap buf] w)) /\
  (forall kind info rest,
     kind <> "video" ->
     audio_pipeline_bridge (self w) = None ->
     receive_data
       (Some {| get_buffer := Some buf; get_caps := Some (info :: rest) |})
       kind w =
       (Ok None,
        extend
          (if ticks_fit buf (audio_clock_rate info) then [BufferUnmap buf]
           else [Log ERROR
                   ("error processing audio sample: "
                    ++ "Python int too large to convert to C long");
                 BufferUnmap buf])
          (after_rate_lookup info w))).
Proof.
  intros Hdata Hfault. split.
  - intros caps Hb.
    unfold receive_data; simpl. unfold buf_map. rewrite Hdata; simpl.
    unfold bind at 1. unfold try_except.
    unfold process_video, av_Packet. rewrite Hfault.
    unfold Fraction_new, RTP_VIDEO_CLOCK_RATE; simpl. unfold bind, ret.
    rewrite feed_absent by exact Hb. reflexivity.
  - intros kind info rest Hk Hb.
    destruct (ticks_fit buf (audio_clock_rate info)) eqn:Hfit;
      [|exact (receive_audio_overflow w buf info rest kind data
                 Hk Hdata Hfault Hfit)].
    apply String.eqb_neq in Hk.
    unfold receive_data; simpl. unfold buf_map. rewrite Hdata; simpl.
    rewrite Hk. unfold bind at 1. unfold try_except.
    rewrite (process_audio_run w buf info rest data Hfault), Hfit.
    rewrite feed_absent
      by (rewrite after_rate_lookup_self; exact Hb).
    reflexivity.
Qed.

Lemma defined_pts_some (buf : GstBuffer) (t : Z) :
  buf_pts buf = Some t -> t <> CLOCK_TIME_NONE -> defined_pts buf = Some t.
Proof.
  intros Hb Ht. unfold defined_pts. rewrite Hb.
  apply Z.eqb_neq in Ht. rewrite Ht. reflexivity.
Qed.

(** X11.  Two video samples ingested one after the other, the second not
    earlier than the first, both with a timestamp a buffer can carry
    (from 0 to below [CLOCK_TIME_NONE]): the [pts] of the second packet is
    not below that of the first, each [pts] is less than one tick below
    the exact value, and it fits a signed 64-bit field. *)
Theorem video_pts_monotone (w : world) (buf1 buf2 : GstBuffer)
  (caps1 caps2 : GstCaps) (data1 data2 : list ascii) (t1 t2 : Z)
  (bv : PipelineBridge.t Packet) :
  buf_data buf1 = Some data1 -> av_fault data1 = None ->
  buf_data buf2 = Some data2 -> av_fault data2 = None ->
  buf_pts buf1 = Some t1 -> buf_pts buf2 = Some t2 ->
  0 <= t1 -> t1 <= t2 -> t2 < CLOCK_TIME_NONE ->
  video_pipeline_bridge (self w) = Some bv -> PipelineBridge.inv bv ->
  let w1 :=
    snd (receive_data
           (Some {| get_buffer := Some buf1; get_caps := Some caps1 |})
           "video" w) in
  let w2 :=
    snd (receive_data
           (Some {| get_buffer := Some buf2; get_caps := Some caps2 |})
           "video" w1) in
  exists p1 p2 a b,
    video_pending w1 = [p1] /\ video_pending w2 = [p2] /\
    pts p1 = Some a /\ pts p2 = Some b /\
    0 <= a /\ a <= b /\ b < 2 ^ 63 /\
    a * 1000000000 <= t1 * 90000 < (a + 1) * 1000000000 /\
    b * 1000000000 <= t2 * 90000 < (b + 1) * 1000000000.
Proof.
  intros Hd1 Hf1 Hd2 Hf2 Hp1 Hp2 H0 H12 Hmax Hbv Hiv w1 w2.
  unfold CLOCK_TIME_NONE in Hmax.
  pose proof (receive_video_at_rest w buf1 caps1 data1 bv Hd1 Hf1 Hbv Hiv)
    as E1.
  assert (Hw1 : w1 = extend [BufferUnmap buf1]
                  (delivered set_video_pipeline_bridge
                     (video_packet buf1 data1) w))
    by (unfold w1; rewrite E1; reflexivity).
  assert (Hiv1 : PipelineBridge.inv
                   (PipelineBridge.mk false
                      (Queue.mk 1 [video_packet buf1 data1])))
    by (repeat split; simpl; lia).
  pose proof (receive_video_at_rest w1 buf2 caps2 data2 _ Hd2 Hf2
                ltac:(rewrite Hw1; reflexivity) Hiv1) as E2.
  assert (Hw2 : w2 = extend [BufferUnmap buf2]
                  (delivered set_video_pipeline_bridge
                     (video_packet buf2 data2) w1))
    by (unfold w2; rewrite E2; reflexivity).
  exists (video_packet buf1 data1), (video_packet buf2 data2),
    (t1 * 90000 / 1000000000), (t2 * 90000 / 1000000000).
  split; [rewrite Hw1; reflexivity|]. split; [rewrite Hw2; reflexivity|].
  unfold video_packet; simpl.
  rewrite (defined_pts_some buf1 t1 Hp1) by (unfold CLOCK_TIME_NONE; lia).
  rewrite (defined_pts_some buf2 t2 Hp2) by (unfold CLOCK_TIME_NONE; lia).
  split; [reflexivity|]. split; [reflexivity|].
  split; [apply Z.div_pos; lia|].
  split; [apply Z.div_le_mono; lia|].
  split; [apply Z.div_lt_upper_bound; lia|].
  split; [apply (ticks_floor t1 90000) | apply (ticks_floor t2 90000)].
Qed.

(** X12.  What a track receives.  After two samples of a kind were
    ingested and none was taken, [recv] on the track of that kind returns
    the packet of the second sample, the first is gone, and the next
    [recv] stays suspended until another sample comes.  For audio the
    second sample is one whose ticks fit the timestamp field, so that it
    makes a packet. *)
Theorem track_receives_newest (w : world) (buf1 buf2 : GstBuffer)
  (data1 data2 : list ascii) :
  buf_data buf1 = Some data1 -> av_fault data1 = None ->
  buf_data buf2 = Some data2 -> av_fault data2 = None ->
  (forall caps1 caps2 bv,
     video_pipeline_bridge (self w) = Some bv -> PipelineBridge.inv bv ->
     exists b2 b3,
       video_pipeline_bridge
         (self
            (snd (receive_data
                    (Some {| get_buffer := Some buf2;
                             get_caps := Some caps2 |}) "video"
                    (snd (receive_data
                            (Some {| get_buffer := Some buf1;
                                     get_caps := Some caps1 |})
                            "video" w))))) = Some b2 /\
       Media_recv b2 = (Ok (video_packet buf2 data2), b3) /\
       Media_recv b3 = (Pending, b3)) /\
  (forall kind (info1 : GstStructure) (rest1 : list GstStructure)
          (info2 : GstStructure) (rest2 : list GstStructure) ba,
     kind <> "video" ->
     ticks_fit buf2 (audio_clock_rate info2) = true ->
     audio_pipeline_bridge (self w) = Some ba -> PipelineBridge.inv ba ->
     exists b2 b3,
       audio_pipeline_bridge
         (self
            (snd (receive_data
                    (Some {| get_buffer := Some buf2;
                             get_caps := Some (info2 :: rest2) |}) kind
                    (snd (receive_data
                            (Some {| get_buffer := Some buf1;
                                     get_caps := Some (info1 :: rest1) |})
                            kind w))))) = Some b2 /\
       Media_recv b2 =
         (Ok (audio_packet buf2 (audio_clock_rate info2) data2), b3) /\
       Media_recv b3 = (Pending, b3)).
Proof.
  intros Hd1 Hf1 Hd2 Hf2. split.
  - intros caps1 caps2 bv Hbv Hiv.
    pose proof (receive_video_at_rest w buf1 caps1 data1 bv Hd1 Hf1 Hbv Hiv)
      as E1.
    rewrite E1. cbn [snd].
    assert (Hiv1 : PipelineBridge.inv
                     (PipelineBridge.mk false
                        (Queue.mk 1 [video_packet buf1 data1])))
      by (repeat split; simpl; lia).
    pose proof (receive_video_at_rest _ buf2 caps2 data2 _ Hd2 Hf2
                  (eq_refl : video_pipeline_bridge
                     (self (extend [BufferUnmap buf1]
                              (delivered set_video_pipeline_bridge
                                 (video_packet buf1 data1) w))) = Some _)
                  Hiv1) as E2.
    rewrite E2. cbn [snd].
    do 2 eexists. split; [reflexivity|]. split; reflexivity.
  - intros kind info1 rest1 info2 rest2 ba Hk Hfit2 Hba Hia.
    assert (H1 : exists b1,
               audio_pipeline_bridge
                 (self (snd (receive_data
                               (Some {| get_buffer := Some buf1;
                                        get_caps := Some (info1 :: rest1) |})
                               kind w))) = Some b1 /\
               PipelineBridge.inv b1).
    { destruct (ticks_fit buf1 (audio_clock_rate info1)) eqn:Hfit1.
      - pose proof (receive_audio_at_rest w buf1 info1 rest1 kind data1 ba
                      Hk Hd1 Hf1 Hfit1 Hba Hia) as E1.
        eexists. split; [exact (f_equal
                   (fun x => audio_pipeline_bridge (self (snd x))) E1)|].
        repeat split; simpl; lia.
      - pose proof (receive_audio_overflow w buf1 info1 rest1 kind data1
                      Hk Hd1 Hf1 Hfit1) as E1.
        exists ba. split; [|exact Hia].
        rewrite (f_equal
                   (fun x => audio_pipeline_bridge (self (snd x))) E1).
        simpl. rewrite after_rate_lookup_self. exact Hba. }
    destruct H1 as (b1 & Hb1 & Hi1).
    pose proof (receive_audio_at_rest _ buf2 info2 rest2 kind data2 b1
                  Hk Hd2 Hf2 Hfit2 Hb1 Hi1) as E2.
    exists (PipelineBridge.mk false
              (Queue.mk 1 [audio_packet buf2 (audio_clock_rate info2) data2])).
    eexists.
    split; [exact (f_equal
              (fun x => audio_pipeline_bridge (self (snd x))) E2)|].
    split; reflexivity.
Qed.

(* ===================================================================== *)
(** * More on codec pinning                                                *)
(* ===================================================================== *)

Lemma find_first {A : Type} (p : A -> bool) (l1 l2 : list A) (c : A) :
  (forall x, In x l1 -> p x = false) -> p c = true ->
  find p (l1 ++ c :: l2) = Some c.
Proof.
  intros Hl Hc. induction l1 as [|x l1 IH]; simpl.
  - rewrite Hc. reflexivity.
  - rewrite (Hl x (or_introl eq_refl)). apply IH.
    intros y Hy. apply Hl. right; exact Hy.
Qed.

Lemma next_where_none {A : Type} (p : A -> bool) (l : list A) :
  (forall x, In x l -> p x = false) -> next_where p l = None.
Proof.
  induction l as [|x l IH]; intros H; simpl; [reflexivity|].
  rewrite (H x (or_introl eq_refl)). rewrite IH; [reflexivity|].
  intros y Hy. apply H. right; exact Hy.
Qed.

Lemma next_where_replace {A : Type} (p : A -> bool) (l : list A) (i : nat)
  (x y : A) :
  next_where p l = Some (i, x) -> p y = true ->
  next_where p (replace_at i y l) = Some (i, y).
Proof.
  revert i; induction l as [|z l IH]; intros i; simpl; [discriminate|].
  destruct (p z) eqn:Hz.
  - intros [= <- <-] Hy. simpl. rewrite Hy. reflexivity.
  - destruct (next_where p l) as [[j u]|] eqn:E; [|discriminate].
    intros [= <- <-] Hy. simpl. rewrite Hz.
    rewrite (IH j eq_refl Hy). reflexivity.
Qed.

Lemma replace_at_twice {A : Type} (i : nat) (x y : A) (l : list A) :
  replace_at i y (replace_at i x l) = replace_at i y l.
Proof.
  revert i; induction l as [|z l IH]; intros [|i]; simpl; auto.
  rewrite IH; reflexivity.
Qed.

(** X13.  Both scans of [force_codec] take the first match in the order
    of the capability list: the codec pinned is the earliest one with the
    requested MIME type, the retransmission codec the earliest one named
    ["<kind>/rtx"], whichever codec was chosen; the call logs the pair
    once and sets it on the first transceiver of the sender. *)
Theorem force_codec_first_match (w : world) (pc : RTCPeerConnection)
  (sender0 : RTCRtpSender) (mime : string)
  (l1 l2 r1 r2 : list RTCRtpCodecCapability) (c r : RTCRtpCodecCapability)
  (i : nat) (t : RTCRtpTransceiver) :
  let kind := track_kind sender0 in
  getCapabilities kind = (l1 ++ c :: l2)%list ->
  mimeType c = mime ->
  (forall x, In x l1 -> mimeType x <> mime) ->
  getCapabilities kind = (r1 ++ r :: r2)%list ->
  eq_ignoring_case (mimeType r) (kind_str kind ++ "/rtx") ->
  (forall x, In x r1 ->
     ~ eq_ignoring_case (mimeType x) (kind_str kind ++ "/rtx")) ->
  next_where (fun t => same_sender (sender t) sender0) (transceivers pc)
    = Some (i, t) ->
  force_codec pc sender0 mime w =
    (Ok (with_transceivers
           (replace_at i (setCodecPreferences [c; r] t) (transceivers pc))
           pc),
     extend [Log INFO
               ("Forcing codec preferences to: " ++ repr_codecs [c; r])] w).
Proof.
  intros kind Hl Hc Hl1 Hr Hrx Hr1 Hnext.
  assert (F1 : find (fun codec => (mimeType codec =? mime)%string)
                 (getCapabilities kind) = Some c).
  { rewrite Hl. apply find_first.
    - intros x Hx. apply String.eqb_neq. apply Hl1; exact Hx.
    - apply String.eqb_eq. exact Hc. }
  assert (F2 : find (fun codec =>
                 (lower (mimeType codec) =? kind_str kind ++ "/rtx")%string)
                 (getCapabilities kind) = Some r).
  { rewrite Hr. apply find_first.
    - intros x Hx. specialize (Hr1 x Hx).
      destruct (lower (mimeType x) =? kind_str kind ++ "/rtx")%string eqn:E;
        [|reflexivity].
      apply rtx_test in E. contradiction.
    - apply rtx_test. exact Hrx. }
  unfold force_codec. cbv zeta. fold kind.
  rewrite F1, F2, Hnext. reflexivity.
Qed.

(** X14.  When both codecs are offered and no transceiver of the
    connection has the sender, [force_codec] raises [StopIteration] after
    both scans, before it logs or changes anything. *)
Theorem force_codec_without_owner (w : world) (pc : RTCPeerConnection)
  (sender0 : RTCRtpSender) (mime : string) (c r : RTCRtpCodecCapability) :
  In c (getCapabilities (track_kind sender0)) -> mimeType c = mime ->
  In r (getCapabilities (track_kind sender0)) ->
  eq_ignoring_case (mimeType r) (kind_str (track_kind sender0) ++ "/rtx") ->
  (forall t, In t (transceivers pc) ->
     same_sender (sender t) sender0 = false) ->
  force_codec pc sender0 mime w = (Raise StopIteration, w).
Proof.
  intros Hc Hcm Hr Hrm Hnone. unfold force_codec.
  destruct (find (fun codec => (mimeType codec =? mime)%string)
              (getCapabilities (track_kind sender0))) as [c'|] eqn:Ec.
  - destruct (find (fun codec =>
                (lower (mimeType codec) =?
                 kind_str (track_kind sender0) ++ "/rtx")%string)
                (getCapabilities (track_kind sender0))) as [r'|] eqn:Er.
    + rewrite next_where_none; [reflexivity|].
      intros t Ht. apply Hnone; exact Ht.
    + pose proof (find_none _ _ Er r Hr) as Hf. simpl in Hf.
      apply rtx_test in Hrm. congruence.
  - pose proof (find_none _ _ Ec c Hc) as Hf. simpl in Hf.
    apply String.eqb_neq in Hf. contradiction.
Qed.

(** X15.  [force_codec] is idempotent on the connection: a second call
    with the same sender and MIME type returns and leaves the connection
    as the first call left it. *)
Theorem force_codec_idempotent (w w1 : world) (pc pc1 : RTCPeerConnection)
  (sender0 : RTCRtpSender) (mime : string) :
  force_codec pc sender0 mime w = (Ok pc1, w1) ->
  exists w2, force_codec pc1 sender0 mime w1 = (Ok pc1, w2).
Proof.
  unfold force_codec.
  destruct (find (fun codec => (mimeType codec =? mime)%string)
              (getCapabilities (track_kind sender0))) as [c|];
    [|discriminate].
  destruct (find (fun codec =>
              (lower (mimeType codec) =?
               kind_str (track_kind sender0) ++ "/rtx")%string)
              (getCapabilities (track_kind sender0))) as [r|];
    [|discriminate].
  destruct (next_where (fun t => same_sender (sender t) sender0)
              (transceivers pc)) as [[i t]|] eqn:Hnext; [|discriminate].
  st_unfold. intros [= <- <-]. simpl.
  destruct (next_where_some _ _ _ _ Hnext) as (_ & Hown).
  rewrite (next_where_replace _ _ _ _ (setCodecPreferences [c; r] t) Hnext)
    by exact Hown.
  rewrite replace_at_twice. eexists. reflexivity.
Qed.

(* ===================================================================== *)
(** * After a stop, after a failure                                        *)
(* ===================================================================== *)

Lemma not_ready_without_channel (w : world) :
  data_channel (self w) = None -> ~ ready w.
Proof. intros H (ch & pc & Hd & _). congruence. Qed.

(** While the channel is not ready, an outgoing message method returns
    and sends nothing. *)
Lemma call_skips (m : outgoing) (w : world) :
  wired (self w) -> ~ ready w ->
  exists w', call m w = (Ok tt, w') /\ sent (trace w') = sent (trace w).
Proof.
  intros Hw Hn.
  assert (Hlim : within_limit m \/ ~ within_limit m).
  { destruct m; simpl; auto. lia. }
  destruct Hlim as [Hfit|Hover].
  - destruct (call_sends m w Hfit) as (w0 & -> & Hd & Hp & Hs & _).
    rewrite send_when_not_ready.
    + eexists; split; [reflexivity|]. simpl.
      rewrite sent_app, Hs; simpl. apply app_nil_r.
    + unfold wired in *. rewrite Hd, Hp. exact Hw.
    + intros (ch & pc & ? & ? & ?). apply Hn. exists ch, pc.
      repeat split; congruence.
  - destruct m; simpl in Hover; try tauto.
    simpl. unfold send_clipboard_data.
    assert (E : (len (b64_text data) <=? CLIPBOARD_RESTRICTION) = false)
      by (apply Z.leb_gt; lia).
    rewrite E. eexists; split; [reflexivity|]. simpl.
    rewrite sent_app; simpl. apply app_nil_r.
Qed.

Lemma process_video_bridgeless (buf : GstBuffer) (data : list ascii)
  (w : world) :
  video_pipeline_bridge (self w) = None ->
  exists r, process_video buf data w = (r, w) /\ r <> Pending.
Proof.
  intros Hb. unfold process_video, av_Packet.
  destruct (av_fault data) as [e|].
  - eexists; split; [reflexivity | discriminate].
  - unfold Fraction_new, RTP_VIDEO_CLOCK_RATE; simpl. unfold bind, ret.
    rewrite feed_absent by exact Hb.
    eexists; split; [reflexivity | discriminate].
Qed.

Lemma process_audio_bridgeless (buf : GstBuffer) (caps : GstCaps)
  (data : list ascii) (w : world) :
  audio_pipeline_bridge (self w) = None ->
  exists r es, process_audio buf caps data w = (r, extend es w) /\
               r <> Pending.
Proof.
  intros Hb.
  assert (Hnil : extend [] w = w)
    by (unfold extend; rewrite app_nil_r; destruct w; reflexivity).
  assert (Hlook : forall info, exists es, after_rate_lookup info w = extend es w).
  { intros info. unfold after_rate_lookup.
    destruct (snd (get_int "rate" info) =? 0);
      [eexists; reflexivity | exists []; rewrite Hnil; reflexivity]. }
  destruct (process_audio_cases buf caps data w)
    as [(e & ->) | [(info & e & _ & ->) | (info & _ & ->)]].
  - exists (Raise e), []. rewrite Hnil. split; [reflexivity | discriminate].
  - destruct (Hlook info) as (es & ->).
    exists (Raise e), es. split; [reflexivity | discriminate].
  - rewrite feed_absent by (rewrite after_rate_lookup_self; exact Hb).
    destruct (Hlook info) as (es & ->).
    exists (Ok tt), es. split; [reflexivity | discriminate].
Qed.

(** X16.  After a [stop_pipeline] that returned, the session is as
    [__init__] built it, but for the cursor record, and it is inert: every
    outgoing message method returns without sending, [receive_data]
    returns and changes no field, a remote answer is met with
    [AttributeError], and so is a connection-state notification that
    arrives late. *)
Theorem after_stop (w w1 : world) :
  stop_pipeline w = (Ok tt, w1) ->
  unstarted (self w1) /\
  (forall m, exists w2,
     call m w1 = (Ok tt, w2) /\ sent (trace w2) = sent (trace w1)) /\
  (forall sample kind, exists v w2,
     receive_data sample kind w1 = (Ok v, w2) /\ self w2 = self w1) /\
  (forall text, exists msg,
     set_sdp "answer" (Some text) w1 = (Raise (AttributeError msg), w1)) /\
  (exists msg,
     on_connectionstatechange w1 = (Raise (AttributeError msg), w1)).
Proof.
  intros Hstop.
  destruct (stop_pipeline_result w w1 Hstop) as (Hp & Hd & Ha & Hv & Hau).
  split; [|split; [|split; [|split]]].
  - unfold unstarted. destruct w1 as [[pc dc aux cur ab vb] t]; simpl in *.
    subst. reflexivity.
  - intros m. apply call_skips.
    + unfold wired. congruence.
    + apply not_ready_without_channel; exact Hd.
  - intros sample kind. unfold receive_data.
    destruct sample as [[[buf|] [caps|]]|]; simpl;
      try (do 2 eexists; split; reflexivity).
    unfold buf_map. destruct (buf_data buf) as [data|]; simpl;
      [|do 2 eexists; split; reflexivity].
    destruct (kind =? "video")%string; unfold bind at 1; unfold try_except.
    + destruct (process_video_bridgeless buf data w1 Hv) as (r & -> & Hr).
      destruct r as [[]|e|]; [| |congruence];
        do 2 eexists; split; reflexivity.
    + destruct (process_audio_bridgeless buf caps data w1 Hau)
        as (r & es & -> & Hr).
      destruct r as [[]|e|]; [| |congruence];
        do 2 eexists; split; reflexivity.
  - intros text. unfold set_sdp; simpl. st_unfold. rewrite Hp.
    eexists; reflexivity.
  - unfold on_connectionstatechange. st_unfold. rewrite Hp.
    eexists; reflexivity.
Qed.

(** X17.  When the connection has failed, the state-change handler closes
    it and leaves every field as it was: the session keeps the failed
    connection, its channel is not ready, and a later [stop_pipeline]
    closes the same connection once more before it clears the fields.
    In any other state the handler closes nothing. *)
Theorem failure_then_stop (w : world) (pc : RTCPeerConnection) :
  peer_connection (self w) = Some pc ->
  exists w1,
    on_connectionstatechange w = (Ok tt, w1) /\
    self w1 = self w /\
    sent (trace w1) = sent (trace w) /\
    (connectionState pc <> Failed ->
     closed_connections (trace w1) = closed_connections (trace w)) /\
    (connectionState pc = Failed ->
     closed_connections (trace w1)
       = (closed_connections (trace w) ++ [pc])%list /\
     ~ ready w1 /\
     exists w2,
       stop_pipeline w1 = (Ok tt, w2) /\
       closed_connections (trace w2)
         = (closed_connections (trace w) ++ [pc; pc])%list /\
       all_absent (self w2)).
Proof.
  intros Hp. unfold on_connectionstatechange. st_unfold. rewrite Hp.
  destruct (connectionState pc) eqn:Hs; simpl;
    (eexists; split; [reflexivity|]); simpl;
    (split; [reflexivity|]);
    rewrite ?sent_app, ?closed_connections_app; simpl;
    rewrite ?app_nil_r; (split; [reflexivity|]);
    (split; [try reflexivity; try congruence | try discriminate]).
  intros _. split; [reflexivity|]. split.
  - intros (ch & pc' & _ & Hp' & Hc). simpl in Hp'.
    rewrite Hp in Hp'. injection Hp' as <-. congruence.
  - match goal with
    | |- exists w2, stop_pipeline ?w1 = _ /\ _ =>
        destruct (stop_pipeline_started w1 pc Hp)
          as (w2 & Hstop & Habs & _ & Ht)
    end.
    exists w2. split; [exact Hstop|]. split; [|exact Habs].
    rewrite Ht; simpl. rewrite !closed_connections_app; simpl.
    rewrite app_nil_r, <- app_assoc. reflexivity.
Qed.

(* ===================================================================== *)
(** * Starting a session                                                   *)
(* ===================================================================== *)

Lemma force_codec_self (pc : RTCPeerConnection) (sender0 : RTCRtpSender)
  (mime : string) (w : world) :
  self (snd (force_codec pc sender0 mime w)) = self w.
Proof.
  unfold force_codec.
  destruct (find _ _); [|reflexivity].
  destruct (find _ _); [|reflexivity].
  destruct (next_where _ _) as [[i t]|]; reflexivity.
Qed.

Lemma force_codec_missing (pc : RTCPeerConnection) (sender0 : RTCRtpSender)
  (mime : string) (w : world) :
  ~ ((exists c, In c (getCapabilities (track_kind sender0)) /\
                mimeType c = mime) /\
     (exists r, In r (getCapabilities (track_kind sender0)) /\
                eq_ignoring_case (mimeType r)
                  (kind_str (track_kind sender0) ++ "/rtx"))) ->
  exists msg, force_codec pc sender0 mime w = (Raise (ValueError msg), w).
Proof.
  intros Hno. unfold force_codec.
  destruct (find (fun codec => (mimeType codec =? mime)%string)
              (getCapabilities (track_kind sender0))) as [c|] eqn:Ec;
    [|eexists; reflexivity].
  destruct (find (fun codec =>
              (lower (mimeType codec) =?
               kind_str (track_kind sender0) ++ "/rtx")%string)
              (getCapabilities (track_kind sender0))) as [r|] eqn:Er;
    [|eexists; reflexivity].
  exfalso. apply Hno.
  apply find_some in Ec. destruct Ec as (Hc & Hcm).
  apply find_some in Er. destruct Er as (Hr & Hrm).
  apply String.eqb_eq in Hcm. apply rtx_test in Hrm.
  split; eauto.
Qed.

Lemma force_codec_returns (pc : RTCPeerConnection) (sender0 : RTCRtpSender)
  (mime : string) (w : world) (i : nat) (t : RTCRtpTransceiver) :
  (exists c, In c (getCapabilities (track_kind sender0)) /\
             mimeType c = mime) ->
  (exists r, In r (getCapabilities (track_kind sender0)) /\
             eq_ignoring_case (mimeType r)
               (kind_str (track_kind sender0) ++ "/rtx")) ->
  next_where (fun t => same_sender (sender t) sender0) (transceivers pc)
    = Some (i, t) ->
  exists c r line,
    mimeType c = mime /\
    eq_ignoring_case (mimeType r) (kind_str (track_kind sender0) ++ "/rtx") /\
    force_codec pc sender0 mime w =
      (Ok (with_transceivers
             (replace_at i (setCodecPreferences [c; r] t) (transceivers pc))
             pc),
       extend [Log INFO line] w).
Proof.
  intros (c0 & Hc0 & Hcm0) (r0 & Hr0 & Hrm0) Hnext. unfold force_codec.
  destruct (find (fun codec => (mimeType codec =? mime)%string)
              (getCapabilities (track_kind sender0))) as [c|] eqn:Ec.
  2:{ pose proof (find_none _ _ Ec c0 Hc0) as Hf. simpl in Hf.
      apply String.eqb_neq in Hf. contradiction. }
  destruct (find (fun codec =>
              (lower (mimeType codec) =?
               kind_str (track_kind sender0) ++ "/rtx")%string)
              (getCapabilities (track_kind sender0))) as [r|] eqn:Er.
  2:{ pose proof (find_none _ _ Er r0 Hr0) as Hf. simpl in Hf.
      apply rtx_test in Hrm0. congruence. }
  rewrite Hnext.
  apply find_some in Ec. destruct Ec as (_ & Hcm).
  apply find_some in Er. destruct Er as (_ & Hrm).
  apply String.eqb_eq in Hcm. apply rtx_test in Hrm.
  exists c, r. eexists. repeat split; auto.
Qed.

(** X18.  When [get_rtc_config] fails, so without a usable TURN entry,
    [start_rtc_pipeline] raises before it creates a connection: no field
    of the session is assigned and nothing is logged. *)
Theorem start_needs_turn (cfg : RTCSettings) (w : world) :
  (turn_servers cfg = None \/ turn_servers cfg = Some [] \/
   exists first others,
     turn_servers cfg = Some (first :: others) /\
     occurs at_sign first = false) ->
  exists e, start_rtc_pipeline cfg w = (Raise e, w).
Proof.
  intros Hbad.
  assert (Hcfg : exists e, get_rtc_config cfg = inl e).
  { unfold get_rtc_config, item.
    destruct Hbad as [Ht | [Ht | (entry & rest & Ht & Hocc)]];
      rewrite Ht; [eexists; reflexivity | eexists; reflexivity |].
    change (nth_error (entry :: rest) 0) with (Some entry). cbv beta iota.
    apply split_on_second in Hocc. rewrite Hocc. eexists; reflexivity. }
  destruct Hcfg as (e & He).
  unfold start_rtc_pipeline. unfold bind at 1. rewrite He.
  eexists; reflexivity.
Qed.

(** X19.  When the transport does its part and the capabilities lack
    H264 or its retransmission codec, [start_rtc_pipeline] raises
    [ValueError] with the session half started: the connection, the data
    channel and both bridges are in place, no offer was made.  A
    [stop_pipeline] then closes that connection and clears the fields. *)
Theorem start_without_codec (cfg : RTCSettings) (w : world)
  (config : RTCConfiguration) (pc0 pc1 pc2 pc3 : RTCPeerConnection)
  (ch : RTCDataChannel) (s s' : RTCRtpSender) :
  get_rtc_config cfg = inr config ->
  RTCPeerConnection_new config = Ok pc0 ->
  createDataChannel "input" true 0 pc0 = (Ok ch, pc1) ->
  addTrack Video pc1 = (Ok s, pc2) ->
  addTrack Audio pc2 = (Ok s', pc3) ->
  ~ ((exists c, In c (getCapabilities (track_kind s)) /\
                mimeType c = "video/H264") /\
     (exists r, In r (getCapabilities (track_kind s)) /\
                eq_ignoring_case (mimeType r)
                  (kind_str (track_kind s) ++ "/rtx"))) ->
  exists msg,
    start_rtc_pipeline cfg w =
      (Raise (ValueError msg),
       {| self := started_fields ch pc3 (self w); trace := trace w |}) /\
    exists w2,
      stop_pipeline
        {| self := started_fields ch pc3 (self w); trace := trace w |}
        = (Ok tt, w2) /\
      all_absent (self w2) /\
      closed_connections (trace w2)
        = (closed_connections (trace w) ++ [pc3])%list.
Proof.
  intros Hcfg Hnew Hch Hv Ha Hno.
  destruct (force_codec_missing pc3 s "video/H264"
              {| self := started_fields ch pc3 (self w); trace := trace w |}
              Hno) as (msg & Hforce).
  exists msg. split.
  - unfold start_rtc_pipeline. unfold bind at 1. rewrite Hcfg.
    unfold ret at 1. unfold bind at 1. rewrite Hnew.
    unfold bind at 1. unfold assign at 1, modify at 1.
    unfold bind at 1. unfold on_connection at 1. simpl. rewrite Hch.
    unfold bind at 1. unfold assign at 1, modify at 1.
    unfold bind at 1. unfold assign at 1, modify at 1.
    unfold bind at 1. unfold assign at 1, modify at 1.
    unfold bind at 1. unfold on_connection at 1. simpl. rewrite Hv.
    unfold bind at 1. unfold on_connection at 1. simpl. rewrite Ha.
    unfold bind at 1. unfold bind at 1. unfold read at 1, gets at 1. simpl.
    unfold bind at 1.
    match goal with
    | |- context [force_codec pc3 s "video/H264" ?w0] =>
        change w0
          with {| self := started_fields ch pc3 (self w); trace := trace w |}
    end.
    rewrite Hforce. reflexivity.
  - match goal with
    | |- exists w2, stop_pipeline ?w1 = _ /\ _ =>
        destruct (stop_pipeline_started w1 pc3 eq_refl)
          as (w2 & Hstop & Habs & _ & Ht)
    end.
    exists w2. split; [exact Hstop|]. split; [exact Habs|].
    rewrite Ht; simpl. rewrite closed_connections_app; simpl. reflexivity.
Qed.

(** X20.  When the transport does its part, H264 and its retransmission
    codec are offered and the video sender has its transceiver,
    [start_rtc_pipeline] ends in the offer handler, called with the type
    ["offer"] and the SDP of the local description.  By then the session
    is complete: connection and channel are in place, both bridges are new
    and empty, the video transceiver is pinned to the two codecs, and the
    pinning was logged.  A connection the session held before is replaced
    and not closed. *)
Theorem start_makes_offer (cfg : RTCSettings) (w : world)
  (config : RTCConfiguration) (pc0 pc1 pc2 pc3 : RTCPeerConnection)
  (ch : RTCDataChannel) (s s' : RTCRtpSender) (i : nat)
  (t : RTCRtpTransceiver) :
  get_rtc_config cfg = inr config ->
  RTCPeerConnection_new config = Ok pc0 ->
  createDataChannel "input" true 0 pc0 = (Ok ch, pc1) ->
  addTrack Video pc1 = (Ok s, pc2) ->
  addTrack Audio pc2 = (Ok s', pc3) ->
  (exists c, In c (getCapabilities (track_kind s)) /\
             mimeType c = "video/H264") ->
  (exists r, In r (getCapabilities (track_kind s)) /\
             eq_ignoring_case (mimeType r)
               (kind_str (track_kind s) ++ "/rtx")) ->
  next_where (fun t => same_sender (sender t) s) (transceivers pc3)
    = Some (i, t) ->
  (forall pc, exists text pc', local_offer pc = (Ok text, pc')) ->
  exists c r line pc4 text pc5 w5,
    mimeType c = "video/H264" /\
    eq_ignoring_case (mimeType r) (kind_str (track_kind s) ++ "/rtx") /\
    pc4 = with_transceivers
            (replace_at i (setCodecPreferences [c; r] t) (transceivers pc3))
            pc3 /\
    local_offer pc4 = (Ok text, pc5) /\
    w5 = {| self := started_fields ch pc5 (self w);
            trace := (trace w ++ [Log INFO line])%list |} /\
    start_rtc_pipeline cfg w = on_sdp "offer" text w5 /\
    session_inv w5 /\ video_pending w5 = [] /\ audio_pending w5 = [] /\
    closed_connections (trace w5) = closed_connections (trace w).
Proof.
  intros Hcfg Hnew Hch Hv Ha Hc Hr Hnext Hoffer.
  destruct (force_codec_returns pc3 s "video/H264"
              {| self := started_fields ch pc3 (self w); trace := trace w |}
              i t Hc Hr Hnext) as (c & r & line & Hcm & Hrm & Hforce).
  destruct (Hoffer (with_transceivers
                      (replace_at i (setCodecPreferences [c; r] t)
                         (transceivers pc3)) pc3)) as (text & pc5 & Hoff).
  exists c, r, line. eexists. exists text, pc5. eexists.
  split; [exact Hcm|]. split; [exact Hrm|]. split; [reflexivity|].
  split; [exact Hoff|]. split; [reflexivity|]. split.
  - unfold start_rtc_pipeline. unfold bind at 1. rewrite Hcfg.
    unfold ret at 1. unfold bind at 1. rewrite Hnew.
    unfold bind at 1. unfold assign at 1, modify at 1.
    unfold bind at 1. unfold on_connection at 1. simpl. rewrite Hch.
    unfold bind at 1. unfold assign at 1, modify at 1.
    unfold bind at 1. unfold assign at 1, modify at 1.
    unfold bind at 1. unfold assign at 1, modify at 1.
    unfold bind at 1. unfold on_connection at 1. simpl. rewrite Hv.
    unfold bind at 1. unfold on_connection at 1. simpl. rewrite Ha.
    unfold bind at 1. unfold bind at 1. unfold read at 1, gets at 1. simpl.
    unfold bind at 1.
    match goal with
    | |- context [force_codec pc3 s "video/H264" ?w0] =>
        change w0
          with {| self := started_fields ch pc3 (self w); trace := trace w |}
    end.
    rewrite Hforce. unfold assign at 1, modify at 1.
    unfold bind at 1. unfold on_connection at 1. simpl. rewrite Hoff.
    reflexivity.
  - split; [|split; [reflexivity|split; [reflexivity|]]].
    + unfold session_inv, wired; simpl.
      split; [discriminate|]. split; apply bridge_init_inv.
    + simpl. rewrite closed_connections_app. simpl. apply app_nil_r.
Qed.

Lemma keeps_bind {A B : Type} (Q : world -> Prop) (c : St world A)
  (k : A -> St world B) :
  keeps Q c -> (forall a, keeps Q (k a)) -> keeps Q (bind c k).
Proof.
  intros Hc Hk w Hw. unfold bind. specialize (Hc w Hw).
  destruct (c w) as [[a|e|] w1]; simpl in *; auto. apply Hk; exact Hc.
Qed.

Lemma keeps_assign (Q : world -> Prop) (f : RTCApp -> RTCApp) :
  (forall w, Q w -> Q {| self := f (self w); trace := trace w |}) ->
  keeps Q (assign f).
Proof. intros H w Hw. apply H; exact Hw. Qed.

Lemma keeps_on_connection {A : Type} (method : string)
  (c : St RTCPeerConnection A) :
  keeps connected_inv (on_connection method c).
Proof.
  intros w (Hp & Hv & Ha). unfold on_connection.
  destruct (peer_connection (self w)) as [pc|]; [|congruence].
  destruct (c pc) as [r pc']; simpl.
  repeat split; simpl; auto. discriminate.
Qed.

(** Once the connection is assigned, the rest of [start_rtc_pipeline]
    keeps it and leaves the bridges at rest, however the transport
    answers. *)
Lemma start_tail_keeps (ch_call : St RTCPeerConnection RTCDataChannel) :
  (forall ty text w0, self (snd (on_sdp ty text w0)) = self w0) ->
  keeps connected_inv
    (channel <- on_connection "createDataChannel" ch_call ;;
     assign (set_data_channel (Some channel)) >>
     assign (set_video_pipeline_bridge (Some (PipelineBridge.init Packet))) >>
     assign (set_audio_pipeline_bridge (Some (PipelineBridge.init Packet))) >>
     sender0 <- on_connection "addTrack" (addTrack Video) ;;
     _ <- on_connection "addTrack" (addTrack Audio) ;;
     pc <- read peer_connection ;;
     match pc with
     | None =>
         raise (AttributeError
                  "'NoneType' object has no attribute 'getTransceivers'")
     | Some pc =>
         pc <- force_codec pc sender0 "video/H264" ;;
         assign (set_peer_connection (Some pc))
     end >>
     text <- on_connection "createOffer" local_offer ;;
     on_sdp "offer" text).
Proof.
  intros Hsdp.
  assert (Hinit : PipelineBridge.inv (PipelineBridge.init Packet))
    by apply bridge_init_inv.
  apply keeps_bind; [apply keeps_on_connection|]. intros channel.
  apply keeps_bind.
  { apply keeps_assign. intros w (Hp & Hv & Ha). repeat split; auto. }
  intros _. apply keeps_bind.
  { apply keeps_assign. intros w (Hp & Hv & Ha). repeat split; auto. }
  intros _. apply keeps_bind.
  { apply keeps_assign. intros w (Hp & Hv & Ha). repeat split; auto. }
  intros _. apply keeps_bind; [apply keeps_on_connection|]. intros sender0.
  apply keeps_bind; [apply keeps_on_connection|]. intros _.
  apply keeps_bind; [intros w Hw; exact Hw|]. intros pc.
  apply keeps_bind.
  { destruct pc as [pc|].
    - apply keeps_bind.
      + intros w (Hp & Hv & Ha). unfold connected_inv.
        rewrite force_codec_self. auto.
      + intros pc'. apply keeps_assign.
        intros w (Hp & Hv & Ha). repeat split; auto. discriminate.
    - intros w Hw; exact Hw. }
  intros _. apply keeps_bind; [apply keeps_on_connection|]. intros text.
  intros w (Hp & Hv & Ha). unfold connected_inv. rewrite Hsdp. auto.
Qed.

Lemma connected_is_session (w : world) : connected_inv w -> session_inv w.
Proof. intros (Hp & Hv & Ha). repeat split; auto. intros _; exact Hp. Qed.

Lemma start_keeps_inv (cfg : RTCSettings) :
  (forall ty text w0, self (snd (on_sdp ty text w0)) = self w0) ->
  keeps session_inv (start_rtc_pipeline cfg).
Proof.
  intros Hsdp w (Hw & Hv & Ha). unfold start_rtc_pipeline.
  unfold bind at 1.
  destruct (get_rtc_config cfg) as [e|config]; simpl;
    [repeat split; assumption|].
  unfold bind at 1.
  destruct (RTCPeerConnection_new config) as [pc| |]; simpl;
    try (repeat split; assumption).
  unfold bind at 1. unfold assign at 1, modify at 1.
  apply connected_is_session.
  apply (start_tail_keeps (createDataChannel "input" true 0) Hsdp).
  repeat split; simpl; auto. discriminate.
Qed.

Lemma feed_video_rest (p : Packet) (w : world) :
  at_rest (video_pipeline_bridge (self w)) ->
  at_rest (video_pipeline_bridge
             (self (snd (feed video_pipeline_bridge
                           set_video_pipeline_bridge p w)))).
Proof.
  unfold feed. destruct (video_pipeline_bridge (self w)) as [b|] eqn:E.
  - intros Hb. simpl in Hb.
    rewrite (set_data_keeps_newest p b Hb). simpl.
    repeat split; simpl; lia.
  - simpl. rewrite E. auto.
Qed.

Lemma feed_audio_rest (p : Packet) (w : world) :
  at_rest (audio_pipeline_bridge (self w)) ->
  at_rest (audio_pipeline_bridge
             (self (snd (feed audio_pipeline_bridge
                           set_audio_pipeline_bridge p w)))).
Proof.
  unfold feed. destruct (audio_pipeline_bridge (self w)) as [b|] eqn:E.
  - intros Hb. simpl in Hb.
    rewrite (set_data_keeps_newest p b Hb). simpl.
    repeat split; simpl; lia.
  - simpl. rewrite E. auto.
Qed.

Lemma process_video_rest (buf : GstBuffer) (data : list ascii) (w : world) :
  at_rest (video_pipeline_bridge (self w)) ->
  at_rest (video_pipeline_bridge (self (snd (process_video buf data w)))).
Proof.
  intros Hv. unfold process_video, av_Packet.
  destruct (av_fault data) as [e|]; [exact Hv|].
  unfold Fraction_new, RTP_VIDEO_CLOCK_RATE; simpl. unfold bind, ret.
  match goal with
  | |- context [feed _ _ ?p w] =>
      pose proof (feed_video_rest p w Hv) as Hk;
      destruct (feed video_pipeline_bridge set_video_pipeline_bridge p w)
        as [[[]|e|] w1]
  end; exact Hk.
Qed.

Lemma process_audio_rest (buf : GstBuffer) (caps : GstCaps)
  (data : list ascii) (w : world) :
  at_rest (audio_pipeline_bridge (self w)) ->
  at_rest (audio_pipeline_bridge (self (snd (process_audio buf caps data w)))).
Proof.
  intros Ha.
  destruct (process_audio_cases buf caps data w)
    as [(e & ->) | [(info & e & _ & ->) | (info & _ & ->)]]; simpl.
  - exact Ha.
  - rewrite after_rate_lookup_self. exact Ha.
  - apply feed_audio_rest. rewrite after_rate_lookup_self. exact Ha.
Qed.

Lemma receive_keeps_inv (sample : option GstSample) (kind : string) :
  keeps session_inv
    (_ <- receive_data sample kind ;; ret tt).
Proof.
  intros w (Hw & Hv & Ha).
  assert (Hgoal : session_inv (snd (receive_data sample kind w))).
  { destruct (receive_data sample kind w) as [r w'] eqn:E; simpl.
    destruct (receive_effect sample kind w w' r E)
      as (Hc & Hau & Hvi & _).
    assert (Hwired : wired (self w')).
    { unfold wired, controls in *. injection Hc as -> -> _ _. exact Hw. }
    split; [exact Hwired|].
    unfold receive_data in E.
    destruct sample as [[[buf|] [caps|]]|]; simpl in E;
      try (injection E as <- <-; simpl; split; assumption).
    unfold buf_map in E. destruct (buf_data buf) as [data|]; simpl in E;
      [|injection E as <- <-; split; assumption].
    destruct (String.eqb_spec kind "video") as [Hk|Hk].
    - rewrite (Hau Hk). split; [|exact Ha].
      pose proof (process_video_rest buf data w Hv) as Hr.
      unfold bind at 1 in E. unfold try_except in E.
      destruct (process_video buf data w) as [[[]|e|] w1]; simpl in *;
        st_unfold; simpl in E; injection E as <- <-; exact Hr.
    - rewrite (Hvi Hk). split; [exact Hv|].
      pose proof (process_audio_rest buf caps data w Ha) as Hr.
      unfold bind at 1 in E. unfold try_except in E.
      destruct (process_audio buf caps data w) as [[[]|e|] w1]; simpl in *;
        st_unfold; simpl in E; injection E as <- <-; exact Hr. }
  unfold bind, ret.
  destruct (receive_data sample kind w) as [[v|e|] w']; exact Hgoal.
Qed.

(** X21.  Whatever calls an application makes on a session, in any order
    and whatever each returns or raises, two properties hold from the
    constructor on, provided the offer handler leaves the fields alone:
    the data channel never exists without a peer connection, and both
    bridges are between calls with at most one packet waiting.  The calls
    are [start_rtc_pipeline], [stop_pipeline], the outgoing message
    methods, [receive_data], [set_sdp] and the two handlers. *)
Theorem session_invariant (script : list session_call) (w : world) :
  (forall ty text w0, self (snd (on_sdp ty text w0)) = self w0) ->
  session_inv w -> session_inv (run_session script w).
Proof.
  intros Hsdp. revert w; induction script as [|a script IH]; intros w Hw.
  - exact Hw.
  - simpl. apply IH. destruct Hw as (Hwired & Hv & Ha).
    destruct a as [cfg| |m|sample kind|ty text|channel|]; simpl.
    + apply (start_keeps_inv cfg Hsdp). repeat split; assumption.
    + split; [apply stop_keeps_wired; exact Hwired|].
      destruct (peer_connection (self w)) as [pc|] eqn:Hp.
      * destruct (stop_pipeline_started w pc Hp)
          as (w' & -> & (_ & _ & _ & Hvb & Hab) & _).
        simpl. rewrite Hvb, Hab. split; exact I.
      * rewrite (stop_pipeline_unstarted w Hp). split; assumption.
    + unfold session_inv. rewrite call_self.
      destruct m; simpl; repeat split; assumption.
    + apply (receive_keeps_inv sample kind). repeat split; assumption.
    + unfold set_sdp.
      destruct (negb (ty =? "answer")%string); [repeat split; assumption|].
      destruct text as [text|]; [|repeat split; assumption].
      st_unfold. destruct (peer_connection (self w)) as [pc|] eqn:Hp;
        [|simpl; repeat split; assumption].
      unfold setRemoteDescription.
      destruct (sdp_fault {| sdp := text; type := ty |} pc);
        [simpl; repeat split; assumption|].
      st_unfold. simpl. repeat split; try assumption.
      intros _. simpl. discriminate.
    + unfold on_datachannel. st_unfold. simpl.
      repeat split; assumption.
    + unfold on_connectionstatechange. st_unfold.
      destruct (peer_connection (self w)) as [pc|] eqn:Hp; simpl;
        [|repeat split; assumption].
      destruct (connectionState pc); simpl; repeat split; assumption.
Qed.

End Session.

(* ===================================================================== *)
(** * Closed instances                                                     *)
(* ===================================================================== *)

(** The encoder on the test vectors of RFC 4648. *)
Example b64_text_vectors :
  b64_text "f" = "Zg==" /\ b64_text "fo" = "Zm8=" /\
  b64_text "foo" = "Zm9v" /\ b64_text "foobar" = "Zm9vYmFy".
Proof. repeat split; reflexivity. Qed.

Example lower_mime : lower "Video/RTX" = "video/rtx".
Proof. reflexivity. Qed.

(** C1 at a bridge whose slot is taken: after three calls of [set_data] the
    [get_data] returns the third item. *)
Lemma bridge_newest_wins_witness :
  PipelineBridge.inv taken /\
  exists b1 b2,
    PipelineBridge.set_all [1; 2; 3] taken = (Ok tt, b1) /\
    PipelineBridge.get_data b1 = (Ok 3, b2) /\
    PipelineBridge.get_data b2 = (Pending, b2).
Proof.
  assert (H : PipelineBridge.inv taken) by (repeat split; simpl; lia).
  split; [exact H|].
  destruct (bridge_newest_wins taken [1; 2] 3 H)
    as (b1 & b2 & Hset & _ & _ & Hget & _ & _ & Hwait).
  exists b1, b2. auto.
Defined.

Lemma started_ready : ready (started Connected).
Proof. exists input_channel, (sample_connection Connected). auto. Defined.

Lemma started_wired (s : connection_state) : wired (self (started s)).
Proof. unfold wired; simpl; discriminate. Defined.

Lemma exact_fit_len : len (b64_text exact_fit) = 65400.
Proof. vm_compute. reflexivity. Qed.

Lemma one_more_len : len (b64_text one_more) = 65404.
Proof. vm_compute. reflexivity. Qed.

(** C5 at the limit: 49050 bytes encode to 65400 characters and are sent
    whole; 49051 bytes encode to 65404 characters and are dropped. *)
Lemma clipboard_limit_witness :
  ready (started Connected) /\
  @send_clipboard_data sound exact_fit (started Connected) =
    (Ok tt,
     extend [ChannelSend input_channel
               (plain_dumps
                  (envelope "clipboard"
                     (JObj [("content", JStr (b64_text exact_fit))])))]
       (started Connected)) /\
  exists warning,
    @send_clipboard_data sound one_more (started Connected) =
      (Ok tt, extend [Log WARNING warning] (started Connected)).
Proof.
  split; [exact started_ready|].
  split.
  - destruct (@clipboard_limit sound (started Connected) exact_fit
                started_ready) as (ch & Hch & Hfit & _).
    injection Hch as <-. apply Hfit. rewrite exact_fit_len. lia.
  - destruct (@clipboard_limit sound (started Connected) one_more
                started_ready) as (ch & _ & _ & Hover).
    destruct Hover as (warning & Hsend & _);
      [rewrite one_more_len; lia | eauto].
Defined.

(** C10 on a session that was never started: the cursor is recorded and
    nothing is sent. *)
Lemma cursor_recorded_before_gate_witness :
  ~ ready fresh /\
  last_cursor_sent (self (snd (@send_cursor_data sound (JStr "arrow") fresh)))
    = Some (JStr "arrow") /\
  sent (trace (snd (@send_cursor_data sound (JStr "arrow") fresh))) = [].
Proof.
  assert (H : ~ ready fresh) by (intros (? & ? & ? & _); discriminate).
  split; [exact H|].
  destruct (@cursor_recorded_before_gate sound fresh (JStr "arrow"))
    as (Hrec & Hsent).
  split; [exact Hrec | exact (Hsent H)].
Defined.

Lemma started_bridges (s : connection_state) :
  video_pipeline_bridge (self (started s)) = Some (PipelineBridge.init Packet)
  /\ audio_pipeline_bridge (self (started s))
     = Some (PipelineBridge.init Packet).
Proof. split; reflexivity. Defined.

(** C2 at the figures of the design: a video sample at 1 s gets
    [pts = dts = 90000]; an audio sample at 0.5 s declaring 44100 Hz gets
    [pts = 22050]; an audio sample declaring no rate is stamped at 48000 Hz
    and a warning is logged; an audio sample whose ticks would be [2 ^ 63]
    makes no packet. *)
Lemma receive_data_timestamps_witness :
  (exists w' p,
     @receive_data sound (Some (sample_of (Some one_second) frame video_caps))
       "video" (started Connected) = (Ok None, w') /\
     video_pending w' = [p] /\
     pts p = Some 90000 /\ dts p = Some 90000) /\
  (exists w' p,
     @receive_data sound
       (Some (sample_of (Some half_second) frame (caps_at 44100)))
       "audio" (started Connected) = (Ok None, w') /\
     audio_pending w' = [p] /\
     pts p = Some 22050 /\
     logged WARNING (trace w') = []) /\
  (exists w' p,
     @receive_data sound (Some (sample_of (Some one_second) frame [[]]))
       "audio" (started Connected) = (Ok None, w') /\
     audio_pending w' = [p] /\
     pts p = Some 48000 /\
     logged WARNING (trace w') =
       ["Could not get clock-rate from caps, falling back to 48000"]) /\
  (exists w' p,
     @receive_data sound (Some (sample_of (Some CLOCK_TIME_NONE) frame video_caps))
       "video" (started Connected) = (Ok None, w') /\
     video_pending w' = [p] /\
     pts p = None) /\
  (exists w',
     @receive_data sound
       (Some (sample_of (Some (2 ^ 63)) frame (caps_at 1000000000)))
       "audio" (started Connected) = (Ok None, w') /\
     audio_pending w' = [] /\
     logged ERROR (trace w') <> []).
Proof.
  assert (Hinv : PipelineBridge.inv (PipelineBridge.init Packet))
    by apply bridge_init_inv.
  pose (at_time := fun (t : Z) (caps : GstCaps) =>
    @receive_data_timestamps sound (started Connected)
      {| buf_pts := Some t; buf_data := Some frame |} caps frame
      (PipelineBridge.init Packet) (PipelineBridge.init Packet)
      eq_refl eq_refl eq_refl Hinv eq_refl Hinv).
  split; [|split; [|split; [|split]]].
  - destruct (at_time one_second video_caps)
      as ((w' & p & Hrun & Hpend & _ & _ & (Hstamp & _) & Hdts & _) & _).
    exists w', p. split; [exact Hrun|]. split; [exact Hpend|].
    assert (Hpts : pts p = Some 90000)
      by (apply (Hstamp one_second); [reflexivity | discriminate]).
    split; [exact Hpts | congruence].
  - destruct (at_time half_second (caps_at 44100)) as (_ & Haudio & _).
    destruct (Haudio "audio" [("rate", GInt 44100)] [])
      as (w' & p & rate & Hrun & Hpend & _ & _ & (Hstamp & _) & Hrate & _);
      [discriminate | reflexivity | reflexivity |].
    destruct (Hrate 44100) as (-> & Hlog); [reflexivity | discriminate |].
    exists w', p. split; [exact Hrun|]. split; [exact Hpend|].
    split; [apply (Hstamp half_second); [reflexivity | discriminate]
           | exact Hlog].
  - destruct (at_time one_second [[]]) as (_ & Haudio & _).
    destruct (Haudio "audio" [] [])
      as (w' & p & rate & Hrun & Hpend & _ & _ & (Hstamp & _) & _ & Hdef);
      [discriminate | reflexivity | reflexivity |].
    destruct Hdef as (-> & Hlog); [reflexivity|].
    exists w', p. split; [exact Hrun|]. split; [exact Hpend|].
    split; [apply (Hstamp one_second); [reflexivity | discriminate]
           | exact Hlog].
  - destruct (at_time CLOCK_TIME_NONE video_caps)
      as ((w' & p & Hrun & Hpend & _ & _ & (_ & Hunset) & _) & _).
    exists w', p. split; [exact Hrun|]. split; [exact Hpend|].
    apply Hunset. right; reflexivity.
  - destruct (at_time (2 ^ 63) (caps_at 1000000000)) as (_ & _ & Hover).
    destruct (Hover "audio" [("rate", GInt 1000000000)] [])
      as (w' & Hrun & Hbridge & Hlog);
      [discriminate | reflexivity | reflexivity |].
    exists w'. split; [exact Hrun|]. split.
    + unfold audio_pending. rewrite Hbridge. reflexivity.
    + intros Hnil. apply Hlog. rewrite Hnil. reflexivity.
Defined.

(** C3 at the calls of the design: an offer is refused, a missing SDP is
    refused, an answer the connection accepts is installed. *)
Lemma set_sdp_guards_witness :
  (exists msg,
     @set_sdp sound "offer" (Some "v=0...") (started StateNew)
       = (Raise (RTCAppError msg), started StateNew)) /\
  (exists msg,
     @set_sdp sound "answer" None (started StateNew)
       = (Raise (RTCAppError msg), started StateNew)) /\
  (exists w' pc',
     @set_sdp sound "answer" (Some "v=0...") (started StateNew)
       = (Ok tt, w') /\
     peer_connection (self w') = Some pc' /\
     remoteDescription pc' = Some {| sdp := "v=0..."; type := "answer" |}).
Proof.
  split; [|split].
  - destruct (@set_sdp_guards sound (started StateNew) "offer"
                (Some "v=0...")) as (Hty & _).
    apply Hty. discriminate.
  - destruct (@set_sdp_guards sound (started StateNew) "answer" None)
      as (_ & Hnone & _). apply Hnone; reflexivity.
  - destruct (@set_sdp_guards sound (started StateNew) "answer"
                (Some "v=0...")) as (_ & _ & Hok).
    destruct (Hok "v=0..." (sample_connection StateNew)
                eq_refl eq_refl eq_refl) as (Haccepted & _).
    destruct (Haccepted eq_refl) as (w' & pc' & Hrun & Hpc & Hrd & _).
    exists w', pc'. auto.
Defined.

(** C3 fails as stated at an SDP that is the empty string: [set_sdp] does
    not refuse it but hands it to the connection, and the error is the
    one the connection raises for a text it cannot read, not
    [RTCAppError]. *)
Lemma set_sdp_not_as_claimed :
  @set_sdp sound "answer" (Some EmptyString) (started StateNew) =
    (Raise (ValueError "invalid session description"), started StateNew) /\
  forall msg,
    fst (@set_sdp sound "answer" (Some EmptyString) (started StateNew))
      <> Raise (RTCAppError msg).
Proof. split; [reflexivity | discriminate]. Qed.

(** C4 on the started session: with H264 and rtx offered the video
    transceiver is pinned to [[h264; video_rtx]]; without rtx the call
    raises [ValueError]. *)
Lemma force_codec_pins_witness :
  (exists t, In t (transceivers (sample_connection StateNew)) /\
             same_sender (sender t) video_sender = true) /\
  (exists pc' w',
     @force_codec sound (sample_connection StateNew) video_sender
       "video/H264" fresh = (Ok pc', w') /\
     nth_error (transceivers pc') 0 =
       Some {| sender := video_sender;
               preferred_codecs := [h264; video_rtx] |}) /\
  (exists msg,
     @force_codec starved (sample_connection StateNew) video_sender
       "video/H264" fresh = (Raise (ValueError msg), fresh)).
Proof.
  assert (Hown : exists t, In t (transceivers (sample_connection StateNew)) /\
                           same_sender (sender t) video_sender = true).
  { eexists; split; [left; reflexivity | reflexivity]. }
  split; [exact Hown|]. split.
  - destruct (@force_codec_pins sound fresh (sample_connection StateNew)
                video_sender "video/H264" Hown) as (Hiff & Hok & _).
    destruct Hiff as (_ & Hrun).
    destruct Hrun as (pc' & w' & Hrun).
    { split.
      - exists h264. split; [simpl; auto | reflexivity].
      - exists video_rtx. split; [simpl; auto | reflexivity]. }
    exists pc', w'. split; [exact Hrun|].
    destruct (Hok pc' w' Hrun)
      as (c & r & i & t & Hc & Hcm & Hr & Hrm & Hnext & Hnth & _).
    injection Hnext as <- <-.
    assert (Ec : c = h264).
    { simpl in Hc. destruct Hc as [<-|[<-|[<-|[]]]];
        first [reflexivity | discriminate]. }
    assert (Er : r = video_rtx).
    { simpl in Hr. destruct Hr as [<-|[<-|[<-|[]]]];
        first [reflexivity | discriminate]. }
    rewrite Hnth, Ec, Er. reflexivity.
  - destruct (@force_codec_pins starved fresh (sample_connection StateNew)
                video_sender "video/H264" Hown) as (_ & _ & Hfail).
    apply Hfail. intros (_ & (r & Hr & Hrm)).
    simpl in Hr. destruct Hr as [<-|[<-|[]]]; discriminate.
Defined.

(** C6 fails as stated for audio: the packet of an audio sample at 0.5 s
    and 44100 Hz carries [pts = 22050] and no [dts]. *)
Lemma audio_packet_has_no_dts :
  exists w' p,
    @receive_data sound
      (Some (sample_of (Some half_second) frame (caps_at 44100)))
      "audio" (started Connected) = (Ok None, w') /\
    audio_pending w' = [p] /\
    pts p = Some 22050 /\ dts p = None /\ dts p <> pts p.
Proof.
  do 2 eexists. split; [reflexivity|]. split; [reflexivity|].
  split; [reflexivity|]. split; [reflexivity | discriminate].
Qed.

(** C6 as amended, on the started session: the video packet at 1 s has
    [dts = pts = 90000], the audio packet has no [dts]. *)
Lemma video_dts_follows_pts_witness :
  video_synced (started Connected) /\
  audio_undated (started Connected) /\
  video_synced
    (snd (@receive_data sound (Some (sample_of (Some one_second) frame video_caps))
            "video" (started Connected))) /\
  (exists p,
     video_pending
       (snd (@receive_data sound
               (Some (sample_of (Some one_second) frame video_caps))
               "video" (started Connected))) = [p] /\
     pts p = Some 90000 /\ dts p = pts p) /\
  audio_undated
    (snd (@receive_data sound
            (Some (sample_of (Some half_second) frame (caps_at 44100)))
            "audio" (started Connected))).
Proof.
  assert (Hv : video_synced (started Connected)) by constructor.
  assert (Ha : audio_undated (started Connected)) by constructor.
  split; [exact Hv|]. split; [exact Ha|].
  destruct (@video_dts_follows_pts sound (started Connected)
              (Some (sample_of (Some one_second) frame video_caps)) "video")
    as (Hsync & _ & Hvideo & _).
  split; [exact (Hsync Hv)|]. split.
  - destruct (Hvideo _ _ frame (PipelineBridge.init Packet) eq_refl eq_refl
                eq_refl eq_refl eq_refl (bridge_init_inv Packet))
      as (p & Hpend & Hp & Hdts).
    exists p. split; [exact Hpend|]. split; [rewrite Hp; reflexivity|].
    exact Hdts.
  - destruct (@video_dts_follows_pts sound (started Connected)
                (Some (sample_of (Some half_second) frame (caps_at 44100)))
                "audio") as (_ & Hund & _).
    exact (Hund Ha).
Defined.

(** C7 fails as stated: the second [stop_pipeline] raises. *)
Lemma stop_twice_raises :
  exists w1,
    stop_pipeline (started Connected) = (Ok tt, w1) /\
    all_absent (self w1) /\
    fst (stop_pipeline w1) =
      Raise (AttributeError "'NoneType' object has no attribute 'close'").
Proof.
  eexists. split; [reflexivity|]. split; [|reflexivity].
  repeat split; reflexivity.
Qed.

(** C7 as amended, on the started session. *)
Lemma stop_pipeline_resets_witness :
  peer_connection (self (started Connected))
    = Some (sample_connection Connected) /\
  (exists w1,
     stop_pipeline (started Connected) = (Ok tt, w1) /\
     all_absent (self w1) /\
     trace w1 = [Log INFO "stopping pipeline";
                 ConnectionClose (sample_connection Connected);
                 Log INFO "pipeline stopped"] /\
     exists e w2, stop_pipeline w1 = (Raise e, w2) /\ all_absent (self w2)) /\
  peer_connection (self fresh) = None /\
  stop_pipeline fresh =
    (Raise (AttributeError "'NoneType' object has no attribute 'close'"),
     extend [Log INFO "stopping pipeline"] fresh).
Proof.
  split; [reflexivity|].
  destruct (stop_pipeline_resets (started Connected)) as (Hrun & _ & Hagain).
  destruct (Hrun (sample_connection Connected) eq_refl)
    as (w1 & Hstop & Habs & _ & Htrace).
  split.
  - exists w1. split; [exact Hstop|]. split; [exact Habs|].
    split; [exact Htrace|].
    destruct (Hagain w1 Hstop) as (e & w2 & Hraise & _ & Habs2).
    exists e, w2. auto.
  - split; [reflexivity|].
    destruct (stop_pipeline_resets fresh) as (_ & Hnone & _).
    exact (Hnone eq_refl).
Defined.

(** C8 fails as stated for the clipboard: with the channel ready, a
    clipboard text over the limit is not sent. *)
Lemma ready_yet_nothing_sent :
  ready (started Connected) /\
  exists w',
    @call sound (Clipboard one_more) (started Connected) = (Ok tt, w') /\
    sent (trace w') = [].
Proof.
  split; [exact started_ready|].
  unfold call, send_clipboard_data, CLIPBOARD_RESTRICTION.
  rewrite one_more_len. simpl.
  eexists. split; reflexivity.
Qed.

(** C8 as amended: on the connected session a framerate message goes out
    as one envelope; before the connection is connected and after the stop
    nothing goes out. *)
Lemma control_channel_gate_witness :
  wired (self (started Connected)) /\
  wired (self (started Connecting)) /\
  @is_data_channel_ready (started Connected)
    = (Ok (Some true), started Connected) /\
  (exists w',
     @call sound (Framerate 60) (started Connected) = (Ok tt, w') /\
     sent (trace w') =
       [plain_dumps
          (envelope "system"
             (JObj [("action", JStr "videoFramerate,60")]))]) /\
  (exists w',
     @call sound (Framerate 60) (started Connecting) = (Ok tt, w') /\
     sent (trace w') = [] /\
     logged DEBUG (trace w') =
       ["skipping message because data channel is not ready: system"]) /\
  (forall w1, stop_pipeline (started Connected) = (Ok tt, w1) ->
     is_data_channel_ready w1 = (Ok None, w1)).
Proof.
  split; [apply started_wired|]. split; [apply started_wired|].
  destruct (@control_channel_gate sound (started Connected)
              (started_wired Connected)) as (Hcheck & Hstop & Hsend & _).
  split; [|split; [|split]].
  - destruct Hcheck as (v & Hrun & Hv).
    destruct Hv as (_ & Htrue). specialize (Htrue started_ready).
    destruct v as [[|]|]; try discriminate. exact Hrun.
  - destruct (Hsend (Framerate 60) started_ready I) as (w' & Hrun & Hsent).
    exists w'. split; [exact Hrun | exact Hsent].
  - destruct (@control_channel_gate sound (started Connecting)
                (started_wired Connecting)) as (_ & _ & _ & Hskip).
    destruct (Hskip (Framerate 60)) as (w' & Hrun & Hsent & Hlog).
    { intros (ch & pc & _ & Hpc & Hst). injection Hpc as <-. discriminate. }
    exists w'. split; [exact Hrun|]. split; [exact Hsent | exact (Hlog I)].
  - exact Hstop.
Defined.

(** C9 fails as stated for a buffer that cannot be mapped: the call
    returns [FlowReturn.ERROR] and logs nothing. *)
Lemma unmappable_is_error_unlogged :
  @receive_data sound (Some sealed_sample) "video" (started Connected)
    = (Ok (Some FlowERROR), started Connected) /\
  trace (snd (@receive_data sound (Some sealed_sample) "video"
                (started Connected))) = [].
Proof. split; reflexivity. Qed.

(** C9 as amended, with a packet allocation that fails: the exception is
    caught and logged, the sample is dropped, the call returns. *)
Lemma receive_data_never_raises_witness :
  at_rest (video_pipeline_bridge (self (started Connected))) /\
  at_rest (audio_pipeline_bridge (self (started Connected))) /\
  (exists r w',
     @receive_data starved (Some (sample_of (Some one_second) frame video_caps))
       "video" (started Connected) = (Ok r, w')) /\
  (exists line,
     @receive_data starved (Some (sample_of (Some one_second) frame video_caps))
       "video" (started Connected) =
       (Ok None,
        extend [Log ERROR line;
                BufferUnmap {| buf_pts := Some one_second;
                               buf_data := Some frame |}]
          (started Connected))) /\
  @receive_data starved None "video" (started Connected) =
    (Ok None, extend [Log WARNING "sample received is empty"]
                (started Connected)) /\
  @receive_data starved (Some sealed_sample) "audio" (started Connected) =
    (Ok (Some FlowERROR), started Connected).
Proof.
  assert (Hrest : at_rest (Some (PipelineBridge.init Packet)))
    by apply bridge_init_inv.
  split; [exact Hrest|]. split; [exact Hrest|].
  split; [|split; [|split]].
  - destruct (@receive_data_never_raises starved (started Connected)
                (Some (sample_of (Some one_second) frame video_caps)) "video")
      as (_ & Hret & _).
    exact (Hret Hrest Hrest).
  - destruct (@receive_data_never_raises starved (started Connected)
                (Some (sample_of (Some one_second) frame video_caps)) "video")
      as (_ & _ & _ & _ & _ & _ & Hfault).
    destruct (Hfault _ video_caps frame (ForeignError "out of memory")
                eq_refl eq_refl eq_refl) as (line & Hrun & _).
    exists line. exact Hrun.
  - destruct (@receive_data_never_raises starved (started Connected)
                None "video") as (_ & _ & Hnone & _).
    exact (Hnone eq_refl).
  - destruct (@receive_data_never_raises starved (started Connected)
                (Some sealed_sample) "audio") as (_ & _ & _ & _ & Hmap & _).
    exact (Hmap _ _ eq_refl eq_refl).
Defined.

(* ===================================================================== *)
(** * Closed instances of the further properties                           *)
(* ===================================================================== *)

(** X1 on a schedule with waiting consumers: the first consumer finds the
    bridge empty and is served by the next [set_data]; of two items set
    in a row the second is the one taken; a consumer woken too late finds
    the slot empty and waits again. *)
Lemma bridge_refines_slot_witness :
  exists s',
    run_script
      [GetData 1%nat; SetData 5; Resume 1%nat; GetData 2%nat; SetData 6; SetData 7;
       GetData 3%nat; Resume 2%nat]
      (unattended (PipelineBridge.init Z))
    = Some ([Pending; Ok None; Ok (Some 5); Pending; Ok None; Ok None;
             Ok (Some 7); Pending], s') /\
    PipelineBridge.pending (bridge s') = [] /\
    getters s' = [2%nat] /\ woken s' = [].
Proof.
  assert (Hal : alert (unattended (PipelineBridge.init Z)))
    by (intros H _; exact (False_ind _ (H eq_refl))).
  assert (Hrun :
    run_script
      [GetData 1%nat; SetData 5; Resume 1%nat; GetData 2%nat; SetData 6;
       SetData 7; GetData 3%nat; Resume 2%nat]
      (unattended (PipelineBridge.init Z))
    = Some ([Pending; Ok None; Ok (Some 5); Pending; Ok None; Ok None;
             Ok (Some 7); Pending],
            {| bridge := bridge_of None; getters := [2%nat]; woken := [] |}))
    by (vm_compute; reflexivity).
  eexists. split; [exact Hrun|].
  destruct (@bridge_refines_slot Z _ (unattended (PipelineBridge.init Z))
              _ _ (bridge_init_inv Z) Hal Hrun) as (_ & Hb & _).
  split; [rewrite Hb; reflexivity|]. split; reflexivity.
Defined.

(** X3 on the sample settings. *)
Lemma turn_url_of_entry_witness :
  get_rtc_config sample_settings =
    inr {| iceServers :=
             [stun_entry sample_settings;
              turn_entry_of sample_settings
                "turn://relay.example.org:3478"] |}.
Proof.
  apply (turn_url_of_entry sample_settings "turn" "selkies:secret"
           "relay.example.org:3478"
           ["turn:other@backup.example.org:3478"]);
    reflexivity.
Defined.

(** X4 on a password with an ["@"], and on an entry without a scheme. *)
Lemma turn_url_edges_witness :
  get_rtc_config
    {| stun_servers := None;
       turn_servers := Some ["turn:selkies:p@ss@relay.example.org:3478"];
       turn_username := "selkies";
       turn_password := "p@ss" |} =
    inr {| iceServers :=
             [ {| urls := NoUrls; username := None; credential := None |};
               {| urls := OneUrl "turn://ss";
                  username := Some "selkies";
                  credential := Some "p@ss" |} ] |} /\
  get_rtc_config
    {| stun_servers := None;
       turn_servers := Some ["selkies@relay"];
       turn_username := "selkies";
       turn_password := "secret" |} =
    inr {| iceServers :=
             [ {| urls := NoUrls; username := None; credential := None |};
               {| urls := OneUrl "selkies@relay://relay";
                  username := Some "selkies";
                  credential := Some "secret" |} ] |}.
Proof.
  split.
  - destruct (turn_url_edges
                {| stun_servers := None;
                   turn_servers :=
                     Some ["turn:selkies:p@ss@relay.example.org:3478"];
                   turn_username := "selkies";
                   turn_password := "p@ss" |} []) as (Hat & _).
    apply (Hat "turn" "selkies:p" "ss" "relay.example.org:3478");
      reflexivity.
  - destruct (turn_url_edges
                {| stun_servers := None;
                   turn_servers := Some ["selkies@relay"];
                   turn_username := "selkies";
                   turn_password := "secret" |} []) as (_ & Hplain).
    apply (Hplain "selkies" "relay"); reflexivity.
Defined.

(** X6 on the connected session: three messages, three envelopes, in the
    order of the calls. *)
Lemma outgoing_in_call_order_witness :
  ready (started Connected) /\
  exists w',
    @send_all sound [Framerate 60; Cursor (JStr "arrow"); ReloadWindow]
      (started Connected) = (Ok tt, w') /\
    sent (trace w') =
      [plain_dumps (envelope "system" (action "videoFramerate,60"));
       plain_dumps (envelope "cursor" (JStr "arrow"));
       plain_dumps (envelope "system" (action "reload"))].
Proof.
  split; [exact started_ready|].
  destruct (@outgoing_in_call_order sound
              [Framerate 60; Cursor (JStr "arrow"); ReloadWindow]
              (started Connected) started_ready)
    as (w' & Hrun & Hsent & _).
  { repeat constructor. }
  exists w'. split; [exact Hrun | exact Hsent].
Defined.

Lemma exact_fit_bytes : len exact_fit = 49050.
Proof. vm_compute. reflexivity. Qed.

Lemma one_more_bytes : len one_more = 49051.
Proof. vm_compute. reflexivity. Qed.

(** X7 at the limit: 49050 bytes go out, 49051 bytes do not. *)
Lemma clipboard_byte_limit_witness :
  ready (started Connected) /\
  (exists w',
     @send_clipboard_data sound exact_fit (started Connected) = (Ok tt, w') /\
     List.length (sent (trace w')) = 1%nat) /\
  (exists w',
     @send_clipboard_data sound one_more (started Connected) = (Ok tt, w') /\
     sent (trace w') = []).
Proof.
  split; [exact started_ready|].
  destruct (@clipboard_byte_limit sound (started Connected) exact_fit
              started_ready) as (Hfit & _).
  destruct (@clipboard_byte_limit sound (started Connected) one_more
              started_ready) as (_ & Hover).
  split.
  - destruct Hfit as (w' & Hrun & Hsent); [rewrite exact_fit_bytes; lia|].
    exists w'. split; [exact Hrun|]. rewrite Hsent. reflexivity.
  - destruct Hover as (w' & Hrun & Hsent & _); [rewrite one_more_bytes; lia|].
    exists w'. split; [exact Hrun | exact Hsent].
Defined.

(** X9 with a packet allocation that fails: the buffer was mapped, the
    conversion raised, the buffer is unmapped once. *)
Lemma map_unmap_balance_witness :
  exists w',
    @receive_data starved
      (Some (sample_of (Some one_second) frame video_caps)) "video"
      (started Connected) = (Ok None, w') /\
    unmaps (trace w') = 1%nat.
Proof.
  eexists. split; [reflexivity|].
  apply (@map_unmap_balance starved
           (Some (sample_of (Some one_second) frame video_caps)) "video"
           (started Connected) _ None).
  reflexivity.
Defined.

(** X10 on a session that was never started. *)
Lemma ingestion_without_bridge_witness :
  @receive_data sound (Some (sample_of (Some one_second) frame video_caps))
    "video" fresh =
    (Ok None,
     extend [BufferUnmap {| buf_pts := Some one_second;
                            buf_data := Some frame |}] fresh) /\
  self (snd (@receive_data sound
               (Some (sample_of (Some half_second) frame (caps_at 44100)))
               "audio" fresh)) = RTCApp_init.
Proof.
  destruct (@ingestion_without_bridge sound fresh
              {| buf_pts := Some one_second; buf_data := Some frame |}
              frame eq_refl eq_refl) as (Hvideo & _).
  destruct (@ingestion_without_bridge sound fresh
              {| buf_pts := Some half_second; buf_data := Some frame |}
              frame eq_refl eq_refl) as (_ & Haudio).
  split.
  - exact (Hvideo video_caps eq_refl).
  - pose proof (Haudio "audio" [("rate", GInt 44100)] []
                  ltac:(discriminate) eq_refl) as E.
    exact (f_equal (fun x => self (snd x)) E).
Defined.

(** X11 on two samples one nanosecond apart: both get [pts = 90000]. *)
Lemma video_pts_monotone_witness :
  exists p1 p2,
    video_pending
      (snd (@receive_data sound
              (Some (sample_of (Some one_second) frame video_caps))
              "video" (started Connected))) = [p1] /\
    video_pending
      (snd (@receive_data sound
              (Some (sample_of (Some (one_second + 1)) frame video_caps))
              "video"
              (snd (@receive_data sound
                      (Some (sample_of (Some one_second) frame video_caps))
                      "video" (started Connected))))) = [p2] /\
    pts p1 = Some 90000 /\ pts p2 = Some 90000.
Proof.
  destruct (@video_pts_monotone sound (started Connected)
              {| buf_pts := Some one_second; buf_data := Some frame |}
              {| buf_pts := Some (one_second + 1); buf_data := Some frame |}
              video_caps video_caps frame frame one_second (one_second + 1)
              (PipelineBridge.init Packet)
              eq_refl eq_refl eq_refl eq_refl eq_refl eq_refl
              ltac:(unfold one_second; lia) ltac:(lia)
              ltac:(unfold one_second, CLOCK_TIME_NONE; lia)
              eq_refl (bridge_init_inv Packet))
    as (p1 & p2 & a & b & H1 & H2 & Ha & Hb & _ & _ & _ & Hfa & Hfb).
  exists p1, p2. split; [exact H1|]. split; [exact H2|].
  unfold one_second in *.
  split; [rewrite Ha | rewrite Hb]; f_equal; lia.
Defined.

(** X12 on the started session: of two video samples the track receives
    the second. *)
Lemma track_receives_newest_witness :
  (exists b2 b3,
     video_pipeline_bridge
       (self
          (snd (@receive_data sound
                  (Some (sample_of (Some one_second) frame video_caps))
                  "video"
                  (snd (@receive_data sound
                          (Some (sample_of (Some half_second) frame
                                   video_caps))
                          "video" (started Connected)))))) = Some b2 /\
     Media_recv b2 =
       (Ok {| payload := frame;
              time_base := Some {| numerator := 1; denominator := 90000 |};
              pts := Some 90000;
              dts := Some 90000 |}, b3) /\
     Media_recv b3 = (Pending, b3)) /\
  (exists b2 b3 p,
     audio_pipeline_bridge
       (self
          (snd (@receive_data sound
                  (Some (sample_of (Some half_second) frame (caps_at 44100)))
                  "audio"
                  (snd (@receive_data sound
                          (Some (sample_of (Some (2 ^ 63)) frame
                                   (caps_at 1000000000)))
                          "audio" (started Connected)))))) = Some b2 /\
     Media_recv b2 = (Ok p, b3) /\ pts p = Some 22050 /\
     Media_recv b3 = (Pending, b3)).
Proof.
  split.
  - destruct (@track_receives_newest sound (started Connected)
                {| buf_pts := Some half_second; buf_data := Some frame |}
                {| buf_pts := Some one_second; buf_data := Some frame |}
                frame frame eq_refl eq_refl eq_refl eq_refl) as (Hvideo & _).
    destruct (Hvideo video_caps video_caps (PipelineBridge.init Packet)
                eq_refl (bridge_init_inv Packet))
      as (b2 & b3 & Hb & Hrecv & Hwait).
    exists b2, b3. split; [exact Hb|]. split; [exact Hrecv | exact Hwait].
  - destruct (@track_receives_newest sound (started Connected)
                {| buf_pts := Some (2 ^ 63); buf_data := Some frame |}
                {| buf_pts := Some half_second; buf_data := Some frame |}
                frame frame eq_refl eq_refl eq_refl eq_refl) as (_ & Haudio).
    destruct (Haudio "audio" [("rate", GInt 1000000000)] []
                [("rate", GInt 44100)] [] (PipelineBridge.init Packet)
                ltac:(discriminate) eq_refl eq_refl (bridge_init_inv Packet))
      as (b2 & b3 & Hb & Hrecv & Hwait).
    exists b2, b3. eexists.
    split; [exact Hb|]. split; [exact Hrecv|]. split; [reflexivity|].
    exact Hwait.
Defined.

(** X13 on the sample capabilities: H264 is the third codec and the first
    of its MIME type, rtx the second codec and the first rtx. *)
Lemma force_codec_first_match_witness :
  @force_codec sound (sample_connection StateNew) video_sender "video/H264"
    fresh =
    (Ok (with_transceivers
           [ {| sender := video_sender;
                preferred_codecs := [h264; video_rtx] |};
             {| sender := audio_sender; preferred_codecs := [] |} ]
           (sample_connection StateNew)),
     extend [Log INFO
               ("Forcing codec preferences to: "
                ++ sample_repr [h264; video_rtx])] fresh).
Proof.
  apply (@force_codec_first_match sound fresh (sample_connection StateNew)
           video_sender "video/H264" [vp8; video_rtx] [] [vp8] [h264]
           h264 video_rtx 0%nat
           {| sender := video_sender; preferred_codecs := [] |});
    try reflexivity.
  - intros x [<-|[<-|[]]]; discriminate.
  - intros x [<-|[]]; vm_compute; discriminate.
Defined.

(** X14 on a connection without transceivers. *)
Lemma force_codec_without_owner_witness :
  @force_codec sound
    {| connectionState := StateNew; remoteDescription := None;
       transceivers := [] |}
    video_sender "video/H264" fresh = (Raise StopIteration, fresh).
Proof.
  apply (@force_codec_without_owner sound fresh _ video_sender "video/H264"
           h264 video_rtx); try reflexivity; simpl; auto.
  intros t [].
Defined.

(** X15 on the sample connection. *)
Lemma force_codec_idempotent_witness :
  exists pc1 w1 w2,
    @force_codec sound (sample_connection StateNew) video_sender
      "video/H264" fresh = (Ok pc1, w1) /\
    @force_codec sound pc1 video_sender "video/H264" w1 = (Ok pc1, w2).
Proof.
  eexists. eexists.
  destruct (@force_codec_idempotent sound fresh _
              (sample_connection StateNew) _ video_sender "video/H264"
              eq_refl) as (w2 & H2).
  exists w2. split; [reflexivity | exact H2].
Defined.

(** X16 on the connected session. *)
Lemma after_stop_witness :
  exists w1,
    stop_pipeline (started Connected) = (Ok tt, w1) /\
    unstarted (self w1) /\
    (exists w2,
       @call sound (Framerate 60) w1 = (Ok tt, w2) /\
       sent (trace w2) = sent (trace w1)) /\
    (exists v w2,
       @receive_data sound
         (Some (sample_of (Some one_second) frame video_caps)) "video" w1
         = (Ok v, w2) /\ self w2 = self w1).
Proof.
  eexists. split; [reflexivity|].
  destruct (@after_stop sound (started Connected) _ eq_refl)
    as (Hinit & Hcall & Hingest & _).
  split; [exact Hinit|]. split.
  - exact (Hcall (Framerate 60)).
  - exact (Hingest (Some (sample_of (Some one_second) frame video_caps))
             "video").
Defined.

(** X17 on a session whose connection failed. *)
Lemma failure_then_stop_witness :
  exists w1 w2,
    on_connectionstatechange (started Failed) = (Ok tt, w1) /\
    closed_connections (trace w1) = [sample_connection Failed] /\
    stop_pipeline w1 = (Ok tt, w2) /\
    closed_connections (trace w2)
      = [sample_connection Failed; sample_connection Failed].
Proof.
  destruct (failure_then_stop (started Failed) (sample_connection Failed)
              eq_refl) as (w1 & Hrun & _ & _ & _ & Hfailed).
  destruct (Hfailed eq_refl) as (Hclosed & _ & w2 & Hstop & Hclosed2 & _).
  exists w1, w2. auto.
Defined.

(** X18 on settings without a TURN server. *)
Lemma start_needs_turn_witness :
  exists e,
    @start_rtc_pipeline sound loopback no_turn fresh = (Raise e, fresh).
Proof.
  apply (@start_needs_turn sound loopback no_turn fresh).
  right; left; reflexivity.
Defined.

(** X19 with a transport that offers no retransmission codec. *)
Lemma start_without_codec_witness :
  exists msg w1 w2,
    @start_rtc_pipeline starved loopback sample_settings fresh
      = (Raise (ValueError msg), w1) /\
    data_channel (self w1) = Some input_channel /\
    video_pending w1 = [] /\
    trace w1 = [] /\
    stop_pipeline w1 = (Ok tt, w2) /\
    all_absent (self w2).
Proof.
  destruct (@start_without_codec starved loopback sample_settings fresh
              _ _ _ _ _ _ _ _
              eq_refl eq_refl eq_refl eq_refl eq_refl)
    as (msg & Hrun & w2 & Hstop & Habs & _).
  { intros (_ & (r & Hr & Hrm)).
    simpl in Hr. destruct Hr as [<-|[<-|[]]]; vm_compute in Hrm;
      discriminate. }
  exists msg. eexists. exists w2.
  split; [exact Hrun|]. split; [reflexivity|]. split; [reflexivity|].
  split; [reflexivity|]. split; [exact Hstop | exact Habs].
Defined.

(** X20 with the loopback transport: the handler is given the offer, on a
    session that is complete. *)
Lemma start_makes_offer_witness :
  exists w5,
    @start_rtc_pipeline sound loopback sample_settings fresh
      = @on_sdp loopback "offer" "v=0" w5 /\
    session_inv w5 /\
    data_channel (self w5) = Some input_channel /\
    video_pending w5 = [] /\ audio_pending w5 = [].
Proof.
  destruct (@start_makes_offer sound loopback sample_settings fresh
              _ _ _ _ _ _ _ _ 0%nat
              {| sender := {| sender_id := 0; track_kind := Video |};
                 preferred_codecs := [] |}
              eq_refl eq_refl eq_refl eq_refl eq_refl)
    as (c & r & line & pc4 & text & pc5 & w5 & _ & _ & _ & Hoff & Hw5
        & Hrun & Hinv & Hv & Ha & _).
  - exists h264. split; [simpl; auto | reflexivity].
  - exists video_rtx. split; [simpl; auto | reflexivity].
  - reflexivity.
  - intros pc. exists "v=0", pc. reflexivity.
  - injection Hoff as <- _.
    exists w5. split; [exact Hrun|]. split; [exact Hinv|].
    split; [rewrite Hw5; reflexivity|]. split; [exact Hv | exact Ha].
Defined.

(** X21 from the constructor, through a start, traffic, a failure, a stop
    and a start that fails. *)
Lemma session_invariant_witness :
  session_inv fresh /\
  session_inv
    (@run_session sound loopback
       [DoStart sample_settings;
        DoIngest (Some (sample_of (Some one_second) frame video_caps))
          "video";
        DoSend (Cursor (JStr "arrow"));
        DoAuxChannel {| label := "files" |};
        DoAnswer "answer" (Some "v=0");
        DoStateChange;
        DoStop;
        DoIngest (Some (sample_of (Some half_second) frame (caps_at 44100)))
          "audio";
        DoStart no_turn]
       fresh).
Proof.
  assert (H : session_inv fresh).
  { split; [intros Hd; exact (False_ind _ (Hd eq_refl)) | split; exact I]. }
  split; [exact H|].
  apply (@session_invariant sound loopback); [|exact H].
  intros ty text w0. reflexivity.
Defined.
